(** * GitScope: scanning a directory tree for Git work trees

    A shallow embedding of [gitscope.py] (classes [GitProject] and
    [GitScope]) and the properties of its scanner, status extractor and
    progress estimate.

    What the program asks of GitPython, of the file system and of the
    clock is a parameter of the model (a [World]); what the program does
    with the answers is transcribed statement by statement.  Exceptions are
    values ([Raise e]), objects mutated through [self] are the state of a
    small monad, and every call that leaves the program is recorded in a
    trace, so that "nothing further is done" is a statement about that
    trace. *)

From Stdlib Require Import ZArith QArith Lia List.
From stdpp Require Import base option list strings gmap pretty.

Local Open Scope Z_scope.

(** ** Exceptions and outcomes *)

(** The exception classes that matter to the control flow.  The only
    [except] clause naming a class names [InvalidGitRepositoryError]; the
    two other handlers are bare [except:] clauses. *)
Inductive exn : Set :=
| InvalidGitRepositoryError
| NoSuchPathError
| GitCommandError
| TypeError
| ValueError
| AttributeError
| OverflowError
| OSError
| FileNotFoundError
| IsADirectoryError
| PermissionError
| UnicodeDecodeError.

Global Instance exn_eq_dec : EqDecision exn.
Proof. solve_decision. Defined.

Inductive result (A : Type) : Type :=
| Ok (a : A)
| Raise (e : exn).
Global Arguments Ok {A} a.
Global Arguments Raise {A} e.

(** A path is the list of its segments, outermost first; the empty list is
    the directory the file-system model is rooted at ([Path(".")]). *)
Definition Path := list string.

(** [p / name] *)
Definition joinpath (p : Path) (name : string) : Path := p ++ [name].

(** [p.parent] *)
Definition parent (p : Path) : Path := removelast p.

(** [p.name]: the final segment, the empty string when there is none. *)
Definition name_of (p : Path) : string := List.last p ""%string.

(** ** Calls that leave the program *)

Inductive event : Type :=
| EvRepo (p : Path)                    (* Repo(p) *)
| EvHeadIsValid                        (* repo.head.is_valid() *)
| EvActiveBranch                       (* repo.active_branch *)
| EvIsDirty                            (* repo.is_dirty() *)
| EvHeadCommit                         (* repo.head.commit.committed_date *)
| EvIterCommits (rev : option string)  (* repo.iter_commits(rev) *)
| EvExists (p : Path)                  (* p.exists() *)
| EvOpen (p : Path).                   (* open(p, 'r', encoding='utf-8') *)

(** ** The monad of methods

    A method of an object of class [O] takes the object and gives back
    how it ended, the object as it has left it, and the calls it made.
    When an exception is raised the object keeps the mutations made so
    far. *)
Record Outcome (O A : Type) : Type := mkOutcome {
  res : result A;
  obj : O;
  trace : list event
}.
Global Arguments mkOutcome {O A} res obj trace.
Global Arguments res {O A} o.
Global Arguments obj {O A} o.
Global Arguments trace {O A} o.

Definition M (O A : Type) : Type := O -> Outcome O A.

Definition ret {O A} (a : A) : M O A := fun o => mkOutcome (Ok a) o [].

Definition bind {O A B} (m : M O A) (k : A -> M O B) : M O B :=
  fun o =>
    match m o with
    | mkOutcome (Ok a) o1 t1 =>
        match k a o1 with
        | mkOutcome r o2 t2 => mkOutcome r o2 (t1 ++ t2)
        end
    | mkOutcome (Raise e) o1 t1 => mkOutcome (Raise e) o1 t1
    end.

Global Instance M_ret {O} : MRet (M O) := fun A a => ret a.
Global Instance M_bind {O} : MBind (M O) := fun A B k m => bind m k.

(** [raise e] *)
Definition raise {O A} (e : exn) : M O A := fun o => mkOutcome (Raise e) o [].

(** Reading [self] and assigning to its attributes. *)
Definition get {O} : M O O := fun o => mkOutcome (Ok o) o [].
Definition modify {O} (f : O -> O) : M O unit := fun o => mkOutcome (Ok tt) (f o) [].

(** A call answered from outside: it is recorded, and returns or raises as
    the answer says. *)
Definition call {O A} (ev : event) (answer : result A) : M O A :=
  fun o => mkOutcome answer o [ev].

(** [try: body  except <classes caught>: handler] *)
Definition try_except {O A} (body : M O A) (caught : exn -> bool) (handler : M O A) : M O A :=
  fun o =>
    match body o with
    | mkOutcome (Ok a) o1 t1 => mkOutcome (Ok a) o1 t1
    | mkOutcome (Raise e) o1 t1 =>
        if caught e then
          match handler o1 with
          | mkOutcome r o2 t2 => mkOutcome r o2 (t1 ++ t2)
          end
        else mkOutcome (Raise e) o1 t1
    end.

(** A bare [except:] catches every class. *)
Definition any_exception (e : exn) : bool := true.

(** [for x in l: body x] *)
Fixpoint for_each {O A} (l : list A) (body : A -> M O unit) : M O unit :=
  match l with
  | [] => ret tt
  | x :: l' => body x ;; for_each l' body
  end.

(** An operation that may raise and is not recorded (the clock). *)
Definition lift {O A} (answer : result A) : M O A :=
  fun o => mkOutcome answer o [].

(** A block that assigns to local variables [L] only: it is run on the
    locals, leaves [self] as it was and gives the locals as it has left
    them. *)
Definition with_locals {O L} (init : L) (block : M L unit) : M O L :=
  fun o =>
    match block init with
    | mkOutcome (Ok _) l t => mkOutcome (Ok l) o t
    | mkOutcome (Raise e) _ t => mkOutcome (Raise e) o t
    end.

(** ** Text and [str.split()]

    A [str] is a sequence of code points.  [content.split()] with no
    argument cuts at runs of white space and keeps no empty word. *)
Definition str := list N.

(** [str.isspace] on one code point: the white-space code points of
    Unicode together with the four ASCII separators 0x1C-0x1F. *)
Definition isspace (c : N) : bool :=
  ((9 <=? c) && (c <=? 13) || (28 <=? c) && (c <=? 32)
   || (c =? 133) || (c =? 160) || (c =? 5760)
   || (8192 <=? c) && (c <=? 8202)
   || (c =? 8232) || (c =? 8233) || (c =? 8239) || (c =? 8287)
   || (c =? 12288))%N.

(** [split_from word s]: the words of [s], [word] being the characters
    (latest first) of the word that is being read. *)
Fixpoint split_from (word : list N) (s : str) : list str :=
  match s with
  | [] => match word with [] => [] | _ => [rev word] end
  | c :: s' =>
      if isspace c then
        match word with
        | [] => split_from [] s'
        | _ => rev word :: split_from [] s'
        end
      else split_from (c :: word) s'
  end.

Definition split (s : str) : list str := split_from [] s.

(** The number of white-space delimited words of a text, counted on the
    text itself, without cutting it: a word begins wherever a character
    that is not white space stands first or follows white space.  This is
    the count the specification speaks of; it is compared with
    [len(content.split())] below. *)
Fixpoint word_starts (after_space : bool) (s : str) : nat :=
  match s with
  | [] => 0
  | c :: s' =>
      ((if after_space && negb (isspace c) then 1 else 0)
       + word_starts (isspace c) s')%nat
  end.

Definition word_count (s : str) : nat := word_starts true s.

(** ASCII literals for examples. *)
Fixpoint str_of_string (s : string) : str :=
  match s with
  | EmptyString => []
  | String a s' => Ascii.N_of_ascii a :: str_of_string s'
  end.

(** ** Dates

    A naive [datetime] is a number of microseconds on the local wall
    clock; [a - b] is a [timedelta], whose [days] attribute is the floor of
    the difference in days (so it is negative as soon as [a] is before
    [b]). *)
Definition datetime := Z.

Definition timedelta_days (a b : datetime) : Z := (a - b) / 86400000000.

(** ** The file system

    A tree of directories and files, without links.  A file is given by
    what reading it as UTF-8 text yields: the decoded text or the
    exception raised.  The entries of a directory are listed in the order
    in which the directory is enumerated; on a real file system their
    names are distinct, which nothing below relies on. *)
Unset Elimination Schemes.
Inductive Node : Type :=
| File (content : result str)
| Dir (entries : list (string * Node)).
Set Elimination Schemes.

Definition is_dir (n : Node) : bool :=
  match n with Dir _ => true | File _ => false end.

Fixpoint entry (name : string) (es : list (string * Node)) : option Node :=
  match es with
  | [] => None
  | (k, c) :: es' => if String.eqb k name then Some c else entry name es'
  end.

(** The node a path leads to. *)
Fixpoint lookup_path (n : Node) (p : Path) : option Node :=
  match p with
  | [] => Some n
  | s :: p' =>
      match n with
      | Dir es => match entry s es with
                  | Some c => lookup_path c p'
                  | None => None
                  end
      | File _ => None
      end
  end.

(** ** GitPython

    A [Repo] object is given by what its attributes and methods answer.
    [iter_commits rev] is the whole iteration [repo.iter_commits(rev)],
    newest commit first, or the exception raised on the way. *)
Record Commit : Type := { committed_date : Z }.

Record Repo : Type := {
  bare : bool;
  head_is_valid : result bool;
  active_branch : result string;        (* str(repo.active_branch) *)
  is_dirty : result bool;
  head_commit_committed_date : result Z;
  iter_commits : option string -> result (list Commit)
}.

(** ** The world a scan runs in

    The program only reads: the file system and the repositories are the
    same from the start of a scan to its end.  The clock is read while a
    record is built (lines 89 and 92); the readings of one scan are taken
    to be one instant.  [datetime_fromtimestamp] is the conversion to the
    local zone, which raises on a time stamp out of range. *)
Record World : Type := {
  fs : Node;
  git_Repo : Path -> result Repo;                 (* Repo(path) *)
  datetime_now : datetime;                        (* datetime.now() *)
  datetime_fromtimestamp : Z -> result datetime   (* datetime.fromtimestamp(t) *)
}.

(** [p.exists()] *)
Definition exists_ (w : World) (p : Path) : bool :=
  match lookup_path (fs w) p with Some _ => true | None => false end.

(** [open(p, 'r', encoding='utf-8')] followed by [f.read()] *)
Definition read_text (w : World) (p : Path) : result str :=
  match lookup_path (fs w) p with
  | Some (File content) => content
  | Some (Dir _) => Raise IsADirectoryError
  | None => Raise FileNotFoundError
  end.

(** [base.rglob(name)] for a name without wild cards: the directories
    under [base], [base] included, are visited parents first, and each
    one that has an entry called [name], of either kind, yields the path of
    that entry.  A base that is not a directory yields nothing.  The
    enumeration is lazy in Python; as nothing is written in between it is
    taken as a list. *)
Fixpoint iterate_directories (p : Path) (n : Node) : list (Path * list (string * Node)) :=
  match n with
  | File _ => []
  | Dir es =>
      (p, es) ::
      (fix children (l : list (string * Node)) : list (Path * list (string * Node)) :=
         match l with
         | [] => []
         | (k, c) :: l' =>
             (if is_dir c then iterate_directories (joinpath p k) c else [])
             ++ children l'
         end) es
  end.

Definition select_precise (name : string) (d : Path * list (string * Node)) : list Path :=
  match entry name (snd d) with
  | Some _ => [joinpath (fst d) name]
  | None => []
  end.

Definition rglob (w : World) (base : Path) (name : string) : list Path :=
  match lookup_path (fs w) base with
  | Some n =>
      if is_dir n
      then flat_map (select_precise name) (iterate_directories base n)
      else []
  | None => []
  end.

(** ** class GitProject *)

(** The values stored in [self.status]. *)
Inductive pyval : Type :=
| PyNone
| PyBool (b : bool)
| PyInt (z : Z)
| PyStr (s : string)
| PyDatetime (d : datetime).

(** [progress] starts as the integer 0 and is a float afterwards.  The
    floats that occur are halves of integers far below 2^53, on which
    binary floating point is exact, so they are kept as rationals. *)
Record GitProject : Type := mkGitProject {
  path : Path;
  name : string;
  repo : option Repo;
  status : gmap string pyval;
  progress : Q;
  readme_score : Z
}.

Definition set_repo (r : option Repo) (self : GitProject) : GitProject :=
  mkGitProject (path self) (name self) r (status self) (progress self) (readme_score self).

(** [self.status[key] = v] *)
Definition set_status (key : string) (v : pyval) (self : GitProject) : GitProject :=
  mkGitProject (path self) (name self) (repo self) (<[key := v]> (status self))
               (progress self) (readme_score self).

Definition set_progress (q : Q) (self : GitProject) : GitProject :=
  mkGitProject (path self) (name self) (repo self) (status self) q (readme_score self).

Definition set_readme_score (z : Z) (self : GitProject) : GitProject :=
  mkGitProject (path self) (name self) (repo self) (status self) (progress self) z.

(** [self.repo.<attribute>]: on [None] the attribute access raises. *)
Definition self_repo : M GitProject Repo :=
  self ← get;
  match repo self with
  | Some r => mret r
  | None => raise AttributeError
  end.

(** Lines 58-62: the comparison with [origin/<branch>], as the pair
    [(commits_behind, commits_ahead)]. *)
Definition ahead_behind : M GitProject (Z * Z) :=
  try_except
    (repo ← self_repo;
     r ← self_repo; b1 ← call EvActiveBranch (active_branch r);
     r ← self_repo; b2 ← call EvActiveBranch (active_branch r);
     let rev := (b1 +:+ "..origin/" +:+ b2)%string in
     behind ← call (EvIterCommits (Some rev)) (iter_commits repo (Some rev));
     let commits_behind := Z.of_nat (length behind) in
     repo ← self_repo;
     r ← self_repo; b1 ← call EvActiveBranch (active_branch r);
     r ← self_repo; b2 ← call EvActiveBranch (active_branch r);
     let rev := ("origin/" +:+ b1 +:+ ".." +:+ b2)%string in
     ahead ← call (EvIterCommits (Some rev)) (iter_commits repo (Some rev));
     let commits_ahead := Z.of_nat (length ahead) in
     mret (commits_behind, commits_ahead))
    any_exception
    (mret (0, 0)).

(** Line 79: [min(100, length // 10)]. *)
Definition score_of_length (length : Z) : Z := Z.min 100 (length / 10).

(** Lines 70-79. *)
Definition analyze_readme (w : World) : M GitProject Z :=
  self ← get;
  let readme_path := joinpath (path self) "README.md" in
  found ← call (EvExists readme_path) (Ok (exists_ w readme_path));
  if negb found then mret 0
  else
    content ← call (EvOpen readme_path) (read_text w readme_path);
    let length := Z.of_nat (length (split content)) in
    mret (score_of_length length).

(** Lines 82-94: the two local variables and the block that assigns them. *)
Record ages : Type := mkAges {
  days_since_first_commit : Z;
  days_since_last_commit : Z
}.

Definition list_commits (w : World) (self : GitProject) : M ages unit :=
  r ← match repo self with Some r => mret r | None => raise AttributeError end;
  commits ← call (EvIterCommits None) (iter_commits r None);
  match commits with
  | [] => mret tt
  | last_commit :: _ =>
      let first_commit := List.last commits last_commit in
      d ← lift (datetime_fromtimestamp w (committed_date first_commit));
      modify (fun l => mkAges (Z.max (timedelta_days (datetime_now w) d) 1)
                              (days_since_last_commit l));;
      d ← lift (datetime_fromtimestamp w (committed_date last_commit));
      modify (fun l => mkAges (days_since_first_commit l)
                              (timedelta_days (datetime_now w) d))
  end.

Definition commit_ages (w : World) : M GitProject ages :=
  self ← get;
  with_locals (mkAges 1 1) (try_except (list_commits w self) any_exception (mret tt)).

(** Line 96. *)
Definition age_factor (days_since_last_commit : Z) : Z :=
  Z.min 100 (days_since_last_commit * 2).

(** Lines 81-97. *)
Definition calculate_progress (w : World) : M GitProject Q :=
  l ← commit_ages w;
  self ← get;
  mret (inject_Z (readme_score self) * 0.5
        + inject_Z (age_factor (days_since_last_commit l)) * 0.5)%Q.

(** Lines 45-68. *)
Definition gather_info (w : World) : M GitProject unit :=
  r ← self_repo;
  valid ← call EvHeadIsValid (head_is_valid r);
  if negb valid then
    modify (set_status "active_branch" (PyStr "-"));;
    modify (set_status "is_dirty" (PyBool false));;
    modify (set_status "last_commit" PyNone);;
    modify (set_status "commits_behind" (PyInt 0));;
    modify (set_status "commits_ahead" (PyInt 0))
  else
    r ← self_repo;
    b ← call EvActiveBranch (active_branch r);
    modify (set_status "active_branch" (PyStr b));;
    r ← self_repo;
    d ← call EvIsDirty (is_dirty r);
    modify (set_status "is_dirty" (PyBool d));;
    r ← self_repo;
    t ← call EvHeadCommit (head_commit_committed_date r);
    dt ← lift (datetime_fromtimestamp w t);
    modify (set_status "last_commit" (PyDatetime dt));;
    '(commits_behind, commits_ahead) ← ahead_behind;
    modify (set_status "commits_behind" (PyInt commits_behind));;
    modify (set_status "commits_ahead" (PyInt commits_ahead));;
    score ← analyze_readme w;
    modify (set_readme_score score);;
    p ← calculate_progress w;
    modify (set_progress p).

Definition is_InvalidGitRepositoryError (e : exn) : bool :=
  bool_decide (e = InvalidGitRepositoryError).

(** Lines 38-41, the body of the [try]. *)
Definition open_and_gather (w : World) : M GitProject unit :=
  self ← get;
  r ← call (EvRepo (path self)) (git_Repo w (path self));
  modify (set_repo (Some r));;
  r ← self_repo;
  if bare r then raise InvalidGitRepositoryError
  else gather_info w.

(** Lines 30-35. *)
Definition init_attributes (p : Path) : GitProject :=
  mkGitProject p (name_of p) None ∅ 0 0.

(** Lines 29-43: the attributes are initialised, then the [try] runs. *)
Definition GitProject__init__ (w : World) (p : Path) : Outcome GitProject unit :=
  try_except (open_and_gather w) is_InvalidGitRepositoryError (mret tt)
             (init_attributes p).

(** The expression [GitProject(p)]: the object, unless [__init__] raises. *)
Definition new_GitProject {O} (w : World) (p : Path) : M O GitProject :=
  fun o =>
    match GitProject__init__ w p with
    | mkOutcome (Ok _) project t => mkOutcome (Ok project) o t
    | mkOutcome (Raise e) _ t => mkOutcome (Raise e) o t
    end.

(** ** class GitScope *)
Record GitScope : Type := mkGitScope {
  base_dir : Path;
  projects : list GitProject
}.

Definition GitScope__init__ (base : Path) : GitScope := mkGitScope base [].

(** Truth value of [project.repo]: [None] is false, a [Repo] object is
    true (the class defines neither [__bool__] nor [__len__]). *)
Definition truthy (r : option Repo) : bool :=
  match r with Some _ => true | None => false end.

(** Lines 105-111. *)
Definition scan_projects (w : World) : M GitScope unit :=
  modify (fun self => mkGitScope (base_dir self) []);;
  self ← get;
  for_each (rglob w (base_dir self) ".git") (fun p =>
    let project_dir := parent p in
    project ← new_GitProject w project_dir;
    if truthy (repo project)
    then modify (fun self => mkGitScope (base_dir self) (projects self ++ [project]))
    else mret tt).

(** ** Markers, stated on paths

    [at_path n p m]: following the segments of [p] from node [n], through
    directories, leads to node [m]. *)
Inductive at_path : Node -> Path -> Node -> Prop :=
| at_here (n : Node) : at_path n [] n
| at_step (es : list (string * Node)) (k : string) (c : Node) (p : Path) (m : Node) :
    In (k, c) es -> at_path c p m -> at_path (Dir es) (k :: p) m.

(** The roots [scan_projects] hands to [GitProject], in order. *)
Definition candidates (w : World) (base : Path) : list Path :=
  map parent (rglob w base ".git").

(** The five entries written for a repository without commits (lines
    47-51). *)
Definition unborn_status : gmap string pyval :=
  <["commits_ahead" := PyInt 0]>
    (<["commits_behind" := PyInt 0]>
       (<["last_commit" := PyNone]>
          (<["is_dirty" := PyBool false]>
             (<["active_branch" := PyStr "-"]> ∅)))).

(** ** Sample repositories and worlds *)

(** A zone without offset. *)
Definition utc (t : Z) : result datetime := Ok (t * 1000000).

Definition commits_at (ts : list Z) : list Commit :=
  map (fun t => {| committed_date := t |}) ts.

(** One branch [main], commits at the given times (newest first), no
    remote. *)
Definition repo_local (ts : list Z) : Repo :=
  {| bare := false;
     head_is_valid := Ok true;
     active_branch := Ok "main"%string;
     is_dirty := Ok false;
     head_commit_committed_date := Ok (hd 0 ts);
     iter_commits := fun rev =>
       match rev with
       | None => Ok (commits_at ts)
       | Some _ => Raise GitCommandError
       end |}.

(** As [repo_local], with [main] two commits behind and three commits
    ahead of [origin/main]. *)
Definition repo_tracking (ts : list Z) : Repo :=
  {| bare := false;
     head_is_valid := Ok true;
     active_branch := Ok "main"%string;
     is_dirty := Ok true;
     head_commit_committed_date := Ok (hd 0 ts);
     iter_commits := fun rev =>
       match rev with
       | None => Ok (commits_at ts)
       | Some s =>
           if String.eqb s "main..origin/main" then Ok (commits_at [7; 6])
           else if String.eqb s "origin/main..main" then Ok (commits_at [5; 4; 3])
           else Raise GitCommandError
       end |}.

(** [git clone --bare]: the configuration says [core.bare = true]. *)
Definition repo_bare : Repo :=
  {| bare := true;
     head_is_valid := Ok true;
     active_branch := Ok "main"%string;
     is_dirty := Ok false;
     head_commit_committed_date := Ok 0;
     iter_commits := fun _ => Ok (commits_at [0]) |}.

(** [git init], nothing committed. *)
Definition repo_unborn : Repo :=
  {| bare := false;
     head_is_valid := Ok false;
     active_branch := Ok "main"%string;
     is_dirty := Raise ValueError;
     head_commit_committed_date := Raise ValueError;
     iter_commits := fun _ => Raise ValueError |}.

(** A commit checked out by hash: [active_branch] raises [TypeError]. *)
Definition repo_detached : Repo :=
  {| bare := false;
     head_is_valid := Ok true;
     active_branch := Raise TypeError;
     is_dirty := Ok false;
     head_commit_committed_date := Ok 0;
     iter_commits := fun _ => Ok (commits_at [0]) |}.

Fixpoint find_repo (p : Path) (l : list (Path * Repo)) : result Repo :=
  match l with
  | [] => Raise InvalidGitRepositoryError
  | (q, r) :: l' => if decide (q = p) then Ok r else find_repo p l'
  end.

(** [Repo(p)] in a sample world: [NoSuchPathError] when nothing stands at
    [p] in the tree, the repository listed for [p] when there is one, and
    [InvalidGitRepositoryError] for any other entry. *)
Definition open_repo (tree : Node) (repos : list (Path * Repo)) (p : Path) : result Repo :=
  match lookup_path tree p with
  | Some _ => find_repo p repos
  | None => Raise NoSuchPathError
  end.

Definition sample_world (tree : Node) (repos : list (Path * Repo)) (now : Z) : World :=
  {| fs := tree;
     git_Repo := open_repo tree repos;
     datetime_now := now * 1000000;
     datetime_fromtimestamp := utc |}.

Definition git_dir : string * Node := (".git"%string, Dir [("HEAD"%string, File (Ok []))]).

(** A README of [n] words. *)
Definition readme_words (n : nat) : str :=
  concat (repeat (str_of_string "word ") n).

(** [proj] is an ordinary checkout, [mirror] holds a bare repository. *)
Definition world_bare_and_normal : World :=
  sample_world
    (Dir [("proj"%string, Dir [git_dir; ("README.md"%string, File (Ok (readme_words 30)))]);
          ("mirror"%string, Dir [git_dir])])
    [(["proj"%string], repo_local [1000]); (["mirror"%string], repo_bare)]
    (1000 + 3 * 86400).

(** [pinned] has a detached HEAD, [proj] is an ordinary checkout. *)
Definition world_detached : World :=
  sample_world
    (Dir [("pinned"%string, Dir [git_dir]);
          ("proj"%string, Dir [git_dir])])
    [(["pinned"%string], repo_detached); (["proj"%string], repo_local [1000])]
    (1000 + 3 * 86400).

(** The only commit of [proj] is dated one second after the clock
    reading; there is no README. *)
Definition world_future : World :=
  sample_world
    (Dir [("proj"%string, Dir [git_dir])])
    [(["proj"%string], repo_local [1001])]
    1000.

(** A README of 2000 words and a commit made an hour ago. *)
Definition world_today : World :=
  sample_world
    (Dir [("proj"%string, Dir [git_dir; ("README.md"%string, File (Ok (readme_words 2000)))])])
    [(["proj"%string], repo_tracking [5000; 10])]
    (5000 + 3600).

Definition world_unborn : World :=
  sample_world
    (Dir [("fresh"%string, Dir [git_dir; ("README.md"%string, File (Raise UnicodeDecodeError))])])
    [(["fresh"%string], repo_unborn)]
    1000.

(** No entry is called [.git]. *)
Definition world_plain : World :=
  sample_world
    (Dir [("docs"%string, Dir [("README.md"%string, File (Ok (readme_words 5)))]);
          ("notes.txt"%string, File (Ok []))])
    []
    1000.

(** [bin] has a [README.md] that is not valid UTF-8, [docs] a directory
    of that name; both are ordinary checkouts with one commit. *)
Definition world_readmes : World :=
  sample_world
    (Dir [("bin"%string, Dir [git_dir; ("README.md"%string, File (Raise UnicodeDecodeError))]);
          ("docs"%string, Dir [git_dir; ("README.md"%string, Dir [])])])
    [(["bin"%string], repo_local [1000]); (["docs"%string], repo_local [1000])]
    (1000 + 3 * 86400).

(** [wt] is a linked work tree: its [.git] is a plain file. *)
Definition world_worktree : World :=
  sample_world
    (Dir [("src"%string, Dir [("wt"%string, Dir [(".git"%string, File (Ok (str_of_string "gitdir: ../../main/.git/worktrees/wt")))]);
                               ("main"%string, Dir [git_dir])])])
    [(["src"%string; "wt"%string], repo_local [1000]);
     (["src"%string; "main"%string], repo_local [1000])]
    2000.

(** ** The loop of [scan_projects], candidate by candidate *)

(** Lines 109-111 for one candidate root. *)
Definition submit (w : World) (project_dir : Path) : M GitScope unit :=
  project ← new_GitProject w project_dir;
  if truthy (repo project)
  then modify (fun self => mkGitScope (base_dir self) (projects self ++ [project]))
  else mret tt.

(** The object [GitProject(c)] evaluates to when it does not raise. *)
Definition record_of (w : World) (c : Path) : GitProject :=
  obj (GitProject__init__ w c).

(** The records kept: those whose [repo] attribute is true. *)
Definition kept (w : World) (cs : list Path) : list GitProject :=
  List.filter (fun g => truthy (repo g)) (map (record_of w) cs).

Definition traces (w : World) (cs : list Path) : list event :=
  concat (map (fun c => trace (GitProject__init__ w c)) cs).

(** [GitProject(c)] returns an object. *)
Definition completes (w : World) (c : Path) : Prop :=
  res (GitProject__init__ w c) = Ok tt.


(** ** Extraction, as a decision

    What decides whether the body of the [try] of [__init__] completes, and
    which exception leaves it otherwise, written as one case analysis on
    the answers of the world, for comparison with the code. *)

(** The README score, or the exception raised while reading the file. *)
Definition readme_answer (w : World) (p : Path) : result Z :=
  match lookup_path (fs w) (joinpath p "README.md") with
  | None => Ok 0
  | Some _ =>
      match read_text w (joinpath p "README.md") with
      | Ok content => Ok (score_of_length (Z.of_nat (length (split content))))
      | Raise e => Raise e
      end
  end.

Definition extraction (w : World) (p : Path) : result unit :=
  match git_Repo w p with
  | Raise e => Raise e
  | Ok r =>
      if bare r then Raise InvalidGitRepositoryError
      else
        match head_is_valid r with
        | Raise e => Raise e
        | Ok false => Ok tt
        | Ok true =>
            match active_branch r with
            | Raise e => Raise e
            | Ok _ =>
                match is_dirty r with
                | Raise e => Raise e
                | Ok _ =>
                    match head_commit_committed_date r with
                    | Raise e => Raise e
                    | Ok t =>
                        match datetime_fromtimestamp w t with
                        | Raise e => Raise e
                        | Ok _ =>
                            match readme_answer w p with
                            | Raise e => Raise e
                            | Ok _ => Ok tt
                            end
                        end
                    end
                end
            end
        end
  end.

(** The type of value each key of [self.status] holds. *)
Definition entry_ok (key : string) (v : pyval) : bool :=
  if String.eqb key "active_branch" then
    match v with PyStr _ => true | _ => false end
  else if String.eqb key "is_dirty" then
    match v with PyBool _ => true | _ => false end
  else if String.eqb key "last_commit" then
    match v with PyNone | PyDatetime _ => true | _ => false end
  else if String.eqb key "commits_behind" || String.eqb key "commits_ahead" then
    match v with PyInt z => 0 <=? z | _ => false end
  else false.

Definition status_ok (m : gmap string pyval) : Prop :=
  map_Forall (fun key v => entry_ok key v = true) m.

(** The paths [Repo] was called on, in order. *)
Definition opens (t : list event) : list Path :=
  flat_map (fun ev => match ev with EvRepo p => [p] | _ => [] end) t.

Definition is_ok {A} (r : result A) : bool :=
  match r with Ok _ => true | Raise _ => false end.

(** ** Texts laid out as words and gaps *)

(** A word: not empty, without white space.  A gap: white space only. *)
Definition is_word (s : str) : bool :=
  match s with [] => false | _ => forallb (fun c => negb (isspace c)) s end.

Definition is_blank (s : str) : bool := forallb isspace s.

(** [layout [(w1, g1); ...; (wn, gn)]] is the text [w1 g1 ... wn gn]. *)
Fixpoint layout (l : list (str * str)) : str :=
  match l with
  | [] => []
  | (word, gap) :: l' => word ++ gap ++ layout l'
  end.

(** Every gap but the last separates two words, so it is not empty. *)
Fixpoint spaced (l : list (str * str)) : bool :=
  match l with
  | [] => true
  | (word, gap) :: l' =>
      is_word word && is_blank gap
      && match l', gap with _ :: _, [] => false | _, _ => true end
      && spaced l'
  end.

(** A README of three words with a leading blank line, double spaces, a
    no-break space and a final CR LF. *)
Definition world_spaced : World :=
  sample_world
    (Dir [("README.md"%string,
           File (Ok ([10; 9]%N ++ str_of_string "GitScope" ++ [32; 32]%N
                     ++ str_of_string "scans" ++ [160; 10]%N
                     ++ str_of_string "repositories." ++ [13; 10]%N)))])
    []
    1000.

(** A conversion that refuses the time stamps before year 1 and after
    year 9999. *)
Definition strict_utc (t : Z) : result datetime :=
  if (t <? -62135596800) || (253402300799 <? t) then Raise OverflowError
  else Ok (t * 1000000).

(** The oldest commit of [proj] carries an absurd date. *)
Definition world_ancient : World :=
  {| fs := Dir [("proj"%string, Dir [git_dir])];
     git_Repo :=
       open_repo (Dir [("proj"%string, Dir [git_dir])])
                 [(["proj"%string], repo_local [1000; -99999999999999])];
     datetime_now := (1000 + 70 * 86400) * 1000000;
     datetime_fromtimestamp := strict_utc |}.

(** ** Well-formed trees

    On a file system the entries of a directory have distinct names. *)
Fixpoint distinct_names (n : Node) : bool :=
  match n with
  | File _ => true
  | Dir es =>
      bool_decide (NoDup (map fst es))
      && (fix all (l : list (string * Node)) : bool :=
            match l with
            | [] => true
            | (_, c) :: l' => distinct_names c && all l'
            end) es
  end.

(** The candidate roots found under a node standing at path [p]. *)
Definition roots_under (p : Path) (n : Node) : list Path :=
  map parent (flat_map (select_precise ".git") (iterate_directories p n)).

(** [vendor/lib] is a checkout inside the checkout [outer]; the [.git] of
    [outer] is enumerated after [vendor]. *)
Definition world_nested : World :=
  sample_world
    (Dir [("outer"%string,
           Dir [("vendor"%string, Dir [("lib"%string, Dir [git_dir])]);
                git_dir])])
    [(["outer"%string], repo_local [1000]);
     (["outer"%string; "vendor"%string; "lib"%string], repo_local [900])]
    2000.

(** ** The console

    The presentation methods of [GitScope] print through [rich] and read
    the choices of the user.  What they pass to [console.print] and
    [console.input] is recorded, in order, once the call has returned.
    Besides the exceptions raised below them, they can raise [KeyError] (a
    missing key of [status]), [EOFError] (no line left to read),
    [NotRenderableError] (a cell that is no text) and [MarkupError] (a
    text cell that [rich] cannot parse as console markup, such as a name
    with a closing tag that matches no opening one).  The faults of the
    terminal itself (its encoding, a closed stream) are outside the
    model. *)

Inductive ui_exn : Type :=
| Propagated (e : exn)
| KeyError (key : string)
| EOFError
| NotRenderableError
| MarkupError.

Inductive ui_result (A : Type) : Type :=
| Done (a : A)
| Failed (e : ui_exn).
Global Arguments Done {A} a.
Global Arguments Failed {A} e.

Global Instance ui_result_ret : MRet ui_result := fun A a => Done a.
Global Instance ui_result_bind : MBind ui_result := fun A B k m =>
  match m with
  | Done a => k a
  | Failed e => Failed e
  end.

Record Table : Type := mkTable {
  title : string;
  columns : list string;
  rows : list (list string)
}.

Inductive output : Type :=
| Print (markup : string)                 (* console.print(markup) *)
| PrintTable (t : Table)                  (* console.print(table) *)
| PrintPanel (body panel_title : string)  (* console.print(Panel(body, title=...)) *)
| Prompt (markup : string).               (* the prompt of console.input *)

(** The state of a session: the [GitScope] object, what has been printed
    and the calls made by the scans. *)
Record Session : Type := mkSession {
  scope : GitScope;
  screen : list output;
  calls : list event
}.

Definition UI (A : Type) : Type := Session -> ui_result A * Session.

Global Instance UI_ret : MRet UI := fun A a ss => (Done a, ss).
Global Instance UI_bind : MBind UI := fun A B k m ss =>
  match m ss with
  | (Done a, ss1) => k a ss1
  | (Failed e, ss1) => (Failed e, ss1)
  end.

(** [console.print(x)] for the texts and the panel written in the
    source, whose markup is well formed. *)
Definition console_print (x : output) : UI unit :=
  fun ss => (Done tt, mkSession (scope ss) (screen ss ++ [x]) (calls ss)).

(** An expression that may raise, evaluated without effect. *)
Definition eval {A} (r : ui_result A) : UI A := fun ss => (r, ss).

(** ** Values at run time *)

(** Truth value of a value of [status]. *)
Definition py_truthy (v : pyval) : bool :=
  match v with
  | PyNone => false
  | PyBool b => b
  | PyInt z => negb (z =? 0)
  | PyStr s => negb (String.eqb s "")
  | PyDatetime _ => true
  end.

(** [int(x)] on a float: truncation towards zero. *)
Definition int_of_float (q : Q) : Z := Z.quot (Qnum q) (Z.pos (Qden q)).

(** [status[key]] *)
Definition getitem (status : gmap string pyval) (key : string) : ui_result pyval :=
  match status !! key with
  | Some v => Done v
  | None => Failed (KeyError key)
  end.

(** What [Table.add_row] makes of a cell: text is kept, [None] is an
    empty cell, any other value is refused. *)
Definition renderable (v : pyval) : ui_result string :=
  match v with
  | PyStr s => Done s
  | PyNone => Done ""%string
  | _ => Failed NotRenderableError
  end.

(** ** [GitScope.display_dashboard]

    The texts handed to the console are kept as written in the source,
    in UTF-8.  The two conversions of a date to text are those of the
    [datetime] class and are parameters, and so is the parser of [rich]:
    [markup_ok text] tells whether [text] parses as console markup. *)
Section Dashboard.

Variable strftime : datetime -> string -> string.   (* d.strftime(format) *)
Variable datetime_str : datetime -> string.         (* str(d) *)
Variable markup_ok : string -> bool.                (* rich.markup.render(text) returns *)

(** [console.print(table)]: the cells are text taken from the
    repositories; each one is parsed as markup when the table is rendered,
    before anything is written.  If a cell is refused the call raises
    [MarkupError] and nothing is printed. *)
Definition console_print_table (table : Table) : UI unit :=
  if forallb (forallb markup_ok) (rows table)
  then console_print (PrintTable table)
  else eval (Failed MarkupError).

(** [v.strftime(format)]: only a date has the method. *)
Definition strftime_method (v : pyval) (format : string) : ui_result string :=
  match v with
  | PyDatetime d => Done (strftime d format)
  | _ => Failed (Propagated AttributeError)
  end.

(** A value inside an f-string. *)
Definition format_value (v : pyval) : string :=
  match v with
  | PyNone => "None"
  | PyBool true => "True"
  | PyBool false => "False"
  | PyInt z => pretty z
  | PyStr s => s
  | PyDatetime d => datetime_str d
  end.

Fixpoint render_cells (cells : list pyval) : ui_result (list string) :=
  match cells with
  | [] => mret []
  | v :: cells' =>
      cell ← renderable v;
      rest ← render_cells cells';
      mret (cell :: rest)
  end.

(** Lines 127-135: the row of one project.  The conditional expression
    reads [status['last_commit']] once for its test and once more for
    [strftime]; the arguments of [add_row] are evaluated from left to
    right, then the cells are checked. *)
Definition dashboard_row (project : GitProject) : ui_result (list string) :=
  test ← getitem (status project) "last_commit";
  last_commit ← (if py_truthy test
                 then d ← getitem (status project) "last_commit";
                      strftime_method d "%Y-%m-%d"
                 else mret "—"%string);
  branch ← getitem (status project) "active_branch";
  ahead ← getitem (status project) "commits_ahead";
  behind ← getitem (status project) "commits_behind";
  dirty ← getitem (status project) "is_dirty";
  render_cells
    [PyStr (name project);
     branch;
     PyStr last_commit;
     PyStr ("+" +:+ format_value ahead +:+ " / -" +:+ format_value behind);
     PyStr (if negb (py_truthy dirty) then "✅" else "⚠️");
     PyStr (pretty (int_of_float (progress project)) +:+ "%")].

(** Lines 126-135: the loop, on the table built so far. *)
Fixpoint add_rows (table : Table) (ps : list GitProject) : ui_result Table :=
  match ps with
  | [] => mret table
  | project :: ps' =>
      row ← dashboard_row project;
      add_rows (mkTable (title table) (columns table) (rows table ++ [row])) ps'
  end.

Definition dashboard_columns : list string :=
  ["Project"; "Branch"; "Last Commit"; "Ahead/Behind"; "Dirty"; "Progress"]%string.

(** Lines 113-137. *)
Definition display_dashboard : UI unit :=
  fun ss =>
    match projects (scope ss) with
    | [] =>
        console_print
          (Print "[bold red]No Git projects found in the specified directory.[/bold red]")
          ss
    | _ =>
        (table ← eval (add_rows (mkTable "[bold cyan]GitScope Dashboard · by H0lwin"
                                         dashboard_columns [])
                                (projects (scope ss)));
         console_print_table table) ss
    end.

(** ** [GitScope.display_help] and [GitScope.interactive_menu] *)

Definition help_text : string :=
"GitScope - A Terminal Dashboard for Monitoring Git Projects

Usage:
  python gitscope_dashboard.py [--path <directory>] [--menu]

Options:
  -p, --path        Specify the base directory to scan (default: current directory)
  -m, --menu        Launch the interactive menu
  --helpme          Show this help message

Features:
  - Automatically detects all Git repositories under a directory
  - Shows current branch, last commit date, commit differences
  - Detects working directory cleanliness (dirty/clean)
  - Estimates project progress based on README and commit age
  - Rich terminal UI — works great on Arch, Debian, or any Unix-based OS
  - Self-installs dependencies (no need to manually install pip packages)

Made with ❤ by H0lwin".

(** Lines 139-161; [help_text] is the text after [strip()]. *)
Definition display_help : UI unit :=
  console_print (PrintPanel help_text "[bold green]Help[/bold green]").

(** [self.scan_projects()] from the menu: the scan works on the
    [GitScope] of the session; what it raises goes on. *)
Definition run_scan (w : World) : UI unit :=
  fun ss =>
    match scan_projects w (scope ss) with
    | mkOutcome r self t =>
        (match r with Ok _ => Done tt | Raise e => Failed (Propagated e) end,
         mkSession self (screen ss) (calls ss ++ t))
    end.

(** [s.strip()] *)
Fixpoint lstrip (s : str) : str :=
  match s with
  | [] => []
  | c :: s' => if isspace c then lstrip s' else s
  end.

Definition strip (s : str) : str := rev (lstrip (rev (lstrip s))).

Definition newline : string := String (Ascii.ascii_of_nat 10) "".

(** Lines 165-169: the menu and the prompt. *)
Definition menu_prompt : UI unit :=
  console_print (Print (newline +:+ "[bold magenta]GitScope Interactive Menu[/bold magenta]"));;
  console_print (Print "[1] Scan and Display Dashboard");;
  console_print (Print "[2] Help");;
  console_print (Print "[3] Exit");;
  console_print (Prompt (newline +:+ "Choose an option [1-3]: ")).

(** Lines 169-182: what one turn of the loop does with the line read;
    [false] is the [break]. *)
Definition menu_choice (w : World) (line : str) : UI bool :=
  let choice := strip line in
  if bool_decide (choice = str_of_string "1") then
    console_print (Print "[yellow]Scanning for Git repositories...[/yellow]");;
    run_scan w;;
    console_print (Print ("[green]Done. Displaying dashboard.[/green]" +:+ newline));;
    display_dashboard;;
    mret true
  else if bool_decide (choice = str_of_string "2") then
    display_help;;
    mret true
  else if bool_decide (choice = str_of_string "3") then
    console_print (Print "[bold red]Exiting GitScope. See you![/bold red]");;
    mret false
  else
    console_print (Print "[red]Invalid option. Please enter 1, 2, or 3.[/red]");;
    mret true.

(** Lines 163-182.  [stdin] holds the lines the user will type, the end
    of the list being the end of the input; every turn of the loop reads
    one.  The method returns [None]; the model returns the lines left
    unread. *)
Fixpoint interactive_menu (w : World) (stdin : list str) : UI (list str) :=
  fun ss =>
    match stdin with
    | [] => (menu_prompt;; eval (Failed EOFError)) ss
    | line :: stdin' =>
        match (menu_prompt;; menu_choice w line) ss with
        | (Done true, ss1) => interactive_menu w stdin' ss1
        | (Done false, ss1) => (Done stdin', ss1)
        | (Failed e, ss1) => (Failed e, ss1)
        end
    end.

(** The row the dashboard is meant to show for a record whose status is
    complete, cell by cell, for comparison with [dashboard_row]. *)
Definition expected_row (g : GitProject) : list string :=
  [name g;
   match status g !! "active_branch"%string with Some (PyStr b) => b | _ => "" end;
   match status g !! "last_commit"%string with
   | Some (PyDatetime d) => strftime d "%Y-%m-%d"
   | _ => "—"
   end;
   "+" +:+ match status g !! "commits_ahead"%string with
           | Some (PyInt a) => pretty a
           | _ => ""
           end
   +:+ " / -" +:+ match status g !! "commits_behind"%string with
                  | Some (PyInt b) => pretty b
                  | _ => ""
                  end;
   match status g !! "is_dirty"%string with
   | Some (PyBool true) => "⚠️"
   | _ => "✅"
   end;
   pretty (int_of_float (progress g)) +:+ "%"]%string.

End Dashboard.

(** The keys the dashboard reads. *)
Definition five_keys : list string :=
  ["active_branch"; "is_dirty"; "last_commit"; "commits_behind"; "commits_ahead"]%string.

(** A status with the five keys, each of its type. *)
Definition complete_status (m : gmap string pyval) : Prop :=
  status_ok m /\ Forall (fun key => is_Some (m !! key)) five_keys.

(** Sample conversions: the zone without offset is not needed to print,
    so the date is shown as its number of days since 1970. *)
Definition sample_strftime (d : datetime) (format : string) : string :=
  ("day " +:+ pretty (d / 86400000000))%string.
Definition sample_datetime_str (d : datetime) : string :=
  ("datetime " +:+ pretty d)%string.

(** A sample parser: it refuses the texts that hold a closing tag, as
    [rich] does with a closing tag in a text that opens none. *)
Fixpoint sample_markup_ok (text : string) : bool :=
  match text with
  | EmptyString => true
  | String _ rest => negb (String.prefix "[/" text) && sample_markup_ok rest
  end.

(** An ordinary checkout in a directory whose name reads as a closing
    tag. *)
Definition world_markup : World :=
  sample_world
    (Dir [("a[/b]"%string, Dir [git_dir])])
    [(["a[/b]"%string], repo_local [1000])]
    2000.

(** What a turn of the menu prints before it reads. *)
Definition prompt_outputs : list output :=
  [Print (newline +:+ "[bold magenta]GitScope Interactive Menu[/bold magenta]");
   Print "[1] Scan and Display Dashboard";
   Print "[2] Help";
   Print "[3] Exit";
   Prompt (newline +:+ "Choose an option [1-3]: ")].

(** The lines that ask for a scan. *)
Definition scans_requested (lines : list str) : nat :=
  length (List.filter (fun line => bool_decide (strip line = str_of_string "1")) lines).
(** * Properties *)

(** ** Running a method *)

Ltac run :=
  unfold mbind, mret, M_bind, M_ret;
  cbv beta iota zeta delta
      [bind ret get modify call lift raise try_except with_locals
       any_exception negb];
  cbn [app res obj trace].

(** Case analysis on the innermost answer the run is waiting for. *)
Ltac split_answer :=
  match goal with
  | |- context [match ?x with _ => _ end] =>
      lazymatch x with
      | context [match _ with _ => _ end] => fail
      | _ => destruct x eqn:?
      end
  end.

Ltac run_cases := repeat (split_answer; run).

(** Reading the attributes of an object that has just been assigned to. *)
Ltac run_self :=
  run;
  cbn [path name repo status progress readme_score
       set_repo set_status set_progress set_readme_score init_attributes].

Lemma bind_ok {O A B} (m : M O A) (k : A -> M O B) (o o1 : O) (a : A) (t1 : list event) :
  m o = mkOutcome (Ok a) o1 t1 ->
  (m ≫= k) o = mkOutcome (res (k a o1)) (obj (k a o1)) (t1 ++ trace (k a o1)).
Proof.
  intros H. unfold mbind, M_bind, bind. rewrite H.
  destruct (k a o1); reflexivity.
Qed.

Lemma bind_raise {O A B} (m : M O A) (k : A -> M O B) (o o1 : O) (e : exn) (t1 : list event) :
  m o = mkOutcome (Raise e) o1 t1 ->
  (m ≫= k) o = mkOutcome (Raise e) o1 t1.
Proof. intros H. unfold mbind, M_bind, bind. rewrite H. reflexivity. Qed.

Lemma bind_modify {O B} (f : O -> O) (k : unit -> M O B) (o : O) :
  (modify f ≫= k) o = k tt (f o).
Proof.
  unfold mbind, M_bind, bind, modify. destruct (k tt (f o)); reflexivity.
Qed.

Lemma bind_get {O B} (k : O -> M O B) (o : O) :
  (get ≫= k) o = k o o.
Proof.
  unfold mbind, M_bind, bind, get. destruct (k o o); reflexivity.
Qed.

(** A bare [except: pass] ends normally, whatever the body does. *)
Lemma try_except_pass {O} (body : M O unit) (o : O) :
  res (try_except body any_exception (ret tt) o) = Ok tt.
Proof.
  unfold try_except.
  destruct (body o) as [[[]|e] o1 t1]; reflexivity.
Qed.

(** ** Words *)

Lemma split_from_words (s : str) (word : list N) :
  Forall (fun c => isspace c = false) word ->
  Forall (fun w => w <> [] /\ Forall (fun c => isspace c = false) w)
         (split_from word s).
Proof.
  revert word. induction s as [|c s IH]; intros word Hw; simpl.
  - destruct word as [|c' word']; constructor; [|constructor].
    split.
    + intros Hnil. apply (f_equal (@length N)) in Hnil.
      rewrite length_rev in Hnil. discriminate.
    + apply Forall_rev. exact Hw.
  - destruct (isspace c) eqn:Hc.
    + destruct word as [|c' word'].
      * apply IH. constructor.
      * constructor; [|apply IH; constructor].
        split.
        -- intros Hnil. apply (f_equal (@length N)) in Hnil.
           rewrite length_rev in Hnil. discriminate.
        -- apply Forall_rev. exact Hw.
    + apply IH. constructor; assumption.
Qed.

(** The words [split] returns are not empty and hold no white space. *)
Lemma split_words (s : str) :
  Forall (fun w => w <> [] /\ Forall (fun c => isspace c = false) w) (split s).
Proof. apply split_from_words. constructor. Qed.

(** A text without white space is one word, or none when it is empty. *)
Lemma split_from_no_space (s : str) (word : list N) :
  Forall (fun c => isspace c = false) s ->
  split_from word s = match rev word ++ s with [] => [] | w => [w] end.
Proof.
  revert word. induction s as [|c s IH]; intros word Hs; simpl.
  - rewrite app_nil_r. destruct word as [|c' word']; [reflexivity|].
    destruct (rev (c' :: word')) eqn:E; [|reflexivity].
    apply (f_equal (@length N)) in E. rewrite length_rev in E. discriminate.
  - inversion Hs as [|? ? Hc Hs']; subst. rewrite Hc.
    rewrite IH by assumption. simpl. rewrite <- app_assoc. reflexivity.
Qed.

(** Words are cut exactly at white space: a word, one separator and the
    rest. *)
Lemma split_from_sep (w : list N) (c : N) (s : str) (word : list N) :
  Forall (fun c => isspace c = false) w ->
  isspace c = true ->
  split_from word (w ++ c :: s) =
  match rev word ++ w with [] => split s | w' => w' :: split s end.
Proof.
  revert word. induction w as [|a w IH]; intros word Hw Hc; simpl.
  - rewrite Hc, app_nil_r. destruct word as [|c' word']; [reflexivity|].
    destruct (rev (c' :: word')) eqn:E; [|reflexivity].
    apply (f_equal (@length N)) in E. rewrite length_rev in E. discriminate.
  - inversion Hw as [|? ? Ha Hw']; subst. rewrite Ha.
    rewrite IH by assumption. simpl. rewrite <- app_assoc. reflexivity.
Qed.

Lemma split_cons_word (w : list N) (c : N) (s : str) :
  w <> [] -> Forall (fun c => isspace c = false) w -> isspace c = true ->
  split (w ++ c :: s) = w :: split s.
Proof.
  intros Hne Hw Hc. unfold split at 1. rewrite split_from_sep by assumption.
  simpl. destruct w; [contradiction | reflexivity].
Qed.

(** ** The README score *)

Lemma score_of_length_mono (m n : Z) :
  m <= n -> score_of_length m <= score_of_length n.
Proof.
  intros Hmn. unfold score_of_length.
  apply Z.min_le_compat_l. apply Z.div_le_mono; lia.
Qed.

Lemma score_of_length_saturates (n : Z) :
  1000 <= n -> score_of_length n = 100.
Proof.
  intros Hn. unfold score_of_length. apply Z.min_l.
  change 100 with (1000 / 10). apply Z.div_le_mono; lia.
Qed.

Lemma score_of_length_range (n : Z) :
  0 <= n -> 0 <= score_of_length n <= 100.
Proof.
  intros Hn. unfold score_of_length. split.
  - apply Z.min_glb; [lia | apply Z.div_pos; lia].
  - apply Z.le_min_l.
Qed.

Lemma analyze_readme_absent (w : World) (self : GitProject) :
  lookup_path (fs w) (joinpath (path self) "README.md") = None ->
  analyze_readme w self =
  mkOutcome (Ok 0) self [EvExists (joinpath (path self) "README.md")].
Proof.
  intros H. unfold analyze_readme, exists_. run. rewrite H. reflexivity.
Qed.

Lemma analyze_readme_present (w : World) (self : GitProject) (n : Node) :
  lookup_path (fs w) (joinpath (path self) "README.md") = Some n ->
  analyze_readme w self =
  mkOutcome
    (match read_text w (joinpath (path self) "README.md") with
     | Ok content => Ok (score_of_length (Z.of_nat (length (split content))))
     | Raise e => Raise e
     end)
    self
    [EvExists (joinpath (path self) "README.md");
     EvOpen (joinpath (path self) "README.md")].
Proof.
  intros H. unfold analyze_readme, exists_. run. rewrite H. run.
  destruct (read_text w (joinpath (path self) "README.md")); reflexivity.
Qed.

Lemma analyze_readme_obj (w : World) (self : GitProject) :
  obj (analyze_readme w self) = self.
Proof.
  destruct (lookup_path (fs w) (joinpath (path self) "README.md")) as [n|] eqn:E.
  - rewrite (analyze_readme_present _ _ _ E). reflexivity.
  - rewrite (analyze_readme_absent _ _ E). reflexivity.
Qed.

(** [len(content.split())] is the number of white-space delimited
    words. *)
Lemma length_split_from (s : str) (word : list N) :
  length (split_from word s)
  = match word with
    | [] => word_starts true s
    | _ :: _ => S (word_starts false s)
    end.
Proof.
  revert word. induction s as [|c s IH]; intros word; cbn [split_from word_starts].
  - destruct word; reflexivity.
  - destruct (isspace c); cbn [andb negb Nat.add].
    + destruct word; cbn [length]; rewrite (IH []); reflexivity.
    + rewrite (IH (c :: word)). destruct word; reflexivity.
Qed.

Lemma split_word_count (s : str) : length (split s) = word_count s.
Proof. apply (length_split_from s []). Qed.

Lemma analyze_readme_words (w : World) (self : GitProject) (content : str) :
  lookup_path (fs w) (joinpath (path self) "README.md") = Some (File (Ok content)) ->
  res (analyze_readme w self) = Ok (score_of_length (Z.of_nat (word_count content))).
Proof.
  intros H. rewrite (analyze_readme_present _ _ _ H). unfold read_text.
  rewrite H, split_word_count. reflexivity.
Qed.

(** C6, as the code has it: the README score is 0 when the root has no
    entry [README.md]; when the entry is a file that decodes as UTF-8
    text, the score is [min(100, words // 10)], [words] being the number of
    white-space delimited words of the text, which is what
    [len(content.split())] counts; the score does not decrease as the
    number of words grows, lies in 0..100 and is 100 from 1000 words on.
    When the entry is a file that cannot be decoded, or a directory,
    [analyze_readme] raises and gives no score. *)
Theorem analyze_readme_score (w : World) (self : GitProject) :
  (lookup_path (fs w) (joinpath (path self) "README.md") = None ->
   res (analyze_readme w self) = Ok 0)
  /\ (forall content : str,
        lookup_path (fs w) (joinpath (path self) "README.md") = Some (File (Ok content)) ->
        length (split content) = word_count content
        /\ res (analyze_readme w self)
           = Ok (Z.min 100 (Z.of_nat (word_count content) / 10))
        /\ ((1000 <= word_count content)%nat -> res (analyze_readme w self) = Ok 100)
        /\ (forall (w' : World) (self' : GitProject) (content' : str),
              lookup_path (fs w') (joinpath (path self') "README.md")
              = Some (File (Ok content')) ->
              (word_count content <= word_count content')%nat ->
              exists z z' : Z,
                res (analyze_readme w self) = Ok z
                /\ res (analyze_readme w' self') = Ok z'
                /\ 0 <= z /\ z <= z' /\ z' <= 100))
  /\ (forall e : exn,
        lookup_path (fs w) (joinpath (path self) "README.md") = Some (File (Raise e)) ->
        res (analyze_readme w self) = Raise e)
  /\ (forall entries : list (string * Node),
        lookup_path (fs w) (joinpath (path self) "README.md") = Some (Dir entries) ->
        res (analyze_readme w self) = Raise IsADirectoryError)
  /\ (forall m n : nat, (m <= n)%nat ->
        score_of_length (Z.of_nat m) <= score_of_length (Z.of_nat n))
  /\ (forall n : nat, (1000 <= n)%nat -> score_of_length (Z.of_nat n) = 100)
  /\ (forall n : nat, 0 <= score_of_length (Z.of_nat n) <= 100).
Proof.
  split; [|split; [|split; [|split; [|split; [|split]]]]].
  - intros H. rewrite (analyze_readme_absent _ _ H). reflexivity.
  - intros content H.
    split; [apply split_word_count|].
    split; [apply (analyze_readme_words _ _ _ H)|].
    split.
    + intros Hn. rewrite (analyze_readme_words _ _ _ H).
      f_equal. apply score_of_length_saturates. lia.
    + intros w' self' content' H' Hle.
      exists (score_of_length (Z.of_nat (word_count content))),
             (score_of_length (Z.of_nat (word_count content'))).
      split; [apply (analyze_readme_words _ _ _ H)|].
      split; [apply (analyze_readme_words _ _ _ H')|].
      split; [apply score_of_length_range; lia|].
      split; [apply score_of_length_mono; lia|].
      apply score_of_length_range; lia.
  - intros e H. rewrite (analyze_readme_present _ _ _ H). unfold read_text.
    rewrite H. reflexivity.
  - intros entries H. rewrite (analyze_readme_present _ _ _ H). unfold read_text.
    rewrite H. reflexivity.
  - intros m n Hmn. apply score_of_length_mono. lia.
  - intros n Hn. apply score_of_length_saturates. lia.
  - intros n. apply score_of_length_range. lia.
Qed.

(** ** The age of the last commit *)

Lemma age_factor_saturates (days : Z) : 50 <= days -> age_factor days = 100.
Proof. intros H. unfold age_factor. lia. Qed.

Lemma age_factor_below (days : Z) : days < 50 -> age_factor days = 2 * days.
Proof. intros H. unfold age_factor. lia. Qed.

Lemma age_factor_range (days : Z) : 0 <= days -> 0 <= age_factor days <= 100.
Proof. intros H. unfold age_factor. lia. Qed.

Lemma timedelta_days_today (now d : datetime) :
  0 <= now - d < 86400000000 -> timedelta_days now d = 0.
Proof. intros H. unfold timedelta_days. apply Z.div_small. exact H. Qed.

Lemma timedelta_days_future (now d : datetime) :
  now < d -> timedelta_days now d < 0.
Proof.
  intros H. unfold timedelta_days.
  apply Z.div_lt_upper_bound; lia.
Qed.

Lemma timedelta_days_past (now d : datetime) :
  d <= now -> 0 <= timedelta_days now d.
Proof. intros H. unfold timedelta_days. apply Z.div_pos; lia. Qed.

(** The block of lines 85-94 never raises and leaves [self] alone. *)
Lemma commit_ages_total (w : World) (self : GitProject) :
  exists l t, commit_ages w self = mkOutcome (Ok l) self t.
Proof.
  unfold commit_ages. run.
  destruct (list_commits w self (mkAges 1 1)) as [[[]|e] l t];
    run; eauto.
Qed.

Lemma commit_ages_same_repo (w : World) (s1 s2 : GitProject) :
  repo s1 = repo s2 ->
  exists l t, commit_ages w s1 = mkOutcome (Ok l) s1 t
              /\ commit_ages w s2 = mkOutcome (Ok l) s2 t.
Proof.
  intros H. unfold commit_ages, list_commits. run. rewrite H.
  run_cases; eauto.
Qed.

Lemma commit_ages_listed (w : World) (self : GitProject) (r : Repo)
      (tip : Commit) (rest : list Commit) (d0 d : datetime) :
  repo self = Some r ->
  iter_commits r None = Ok (tip :: rest) ->
  datetime_fromtimestamp w (committed_date (List.last rest tip)) = Ok d0 ->
  datetime_fromtimestamp w (committed_date tip) = Ok d ->
  res (commit_ages w self)
  = Ok (mkAges (Z.max (timedelta_days (datetime_now w) d0) 1)
               (timedelta_days (datetime_now w) d)).
Proof.
  intros Hr Hl H0 Hd. unfold commit_ages, list_commits. run.
  rewrite Hr. run. rewrite Hl. run.
  replace (List.last (tip :: rest) tip) with (List.last rest tip)
    by (destruct rest; reflexivity).
  rewrite H0. run. rewrite Hd. run. reflexivity.
Qed.

Lemma commit_ages_failed (w : World) (self : GitProject) (r : Repo) (e : exn) :
  repo self = Some r ->
  iter_commits r None = Raise e ->
  res (commit_ages w self) = Ok (mkAges 1 1).
Proof.
  intros Hr Hl. unfold commit_ages, list_commits. run.
  rewrite Hr. run. rewrite Hl. run. reflexivity.
Qed.

Lemma calculate_progress_run (w : World) (self : GitProject) :
  exists l t,
    commit_ages w self = mkOutcome (Ok l) self t
    /\ calculate_progress w self
       = mkOutcome (Ok (inject_Z (readme_score self) * 0.5
                        + inject_Z (age_factor (days_since_last_commit l)) * 0.5)%Q)
                   self t.
Proof.
  destruct (commit_ages_total w self) as (l & t & E).
  exists l, t. split; [exact E|].
  unfold calculate_progress. run. rewrite E. run. rewrite app_nil_r. reflexivity.
Qed.

Lemma commit_ages_last (w : World) (self : GitProject) (r : Repo) (l : ages) :
  repo self = Some r ->
  res (commit_ages w self) = Ok l ->
  days_since_last_commit l = 1
  \/ exists (tip : Commit) (rest : list Commit) (d : datetime),
       iter_commits r None = Ok (tip :: rest)
       /\ datetime_fromtimestamp w (committed_date tip) = Ok d
       /\ days_since_last_commit l = timedelta_days (datetime_now w) d.
Proof.
  intros Hr. unfold commit_ages, list_commits. run. rewrite Hr. run.
  destruct (iter_commits r None) as [[|tip rest]|e]; run;
    try (intros [= <-]; left; reflexivity).
  destruct (datetime_fromtimestamp w (committed_date (List.last (tip :: rest) tip)));
    run; try (intros [= <-]; left; reflexivity).
  destruct (datetime_fromtimestamp w (committed_date tip)) as [d|e] eqn:Hd;
    run; intros [= <-]; [right | left; reflexivity].
  exists tip, rest, d. auto.
Qed.

Lemma calculate_progress_of_ages (w : World) (self : GitProject) (l : ages) :
  res (commit_ages w self) = Ok l ->
  res (calculate_progress w self)
  = Ok (inject_Z (readme_score self) * 0.5
        + inject_Z (age_factor (days_since_last_commit l)) * 0.5)%Q.
Proof.
  intros Hl. destruct (calculate_progress_run w self) as (l' & t & El & Ep).
  rewrite El in Hl. injection Hl as ->. rewrite Ep. reflexivity.
Qed.

(** C7, as the code has it.  [calculate_progress] never raises: it
    returns [readme_score * 0.5 + min(100, 2 * days) * 0.5], [days] being
    the age of the last commit its block of lines 85-94 ends with.  When
    the listing of the commits succeeds with at least one commit and the
    dates of the oldest and of the tip commit convert, the age of the last
    commit is the number of whole days between the clock reading and the
    date of the tip (the floor of the difference): the age factor is 0
    for a tip less than a day old and 100 from 50 days on.  When the
    listing raises, or when the date of the oldest commit does not
    convert (the tip is then not looked at), both ages keep their initial
    value 1 and the age factor is 2. *)
Theorem age_factor_of_last_commit (w : World) (self : GitProject) (r : Repo) :
  repo self = Some r ->
  (exists l : ages,
      res (commit_ages w self) = Ok l
      /\ res (calculate_progress w self)
         = Ok (inject_Z (readme_score self) * 0.5
               + inject_Z (Z.min 100 (days_since_last_commit l * 2)) * 0.5)%Q)
  /\ (forall (tip : Commit) (rest : list Commit) (d0 d : datetime),
        iter_commits r None = Ok (tip :: rest) ->
        datetime_fromtimestamp w (committed_date (List.last rest tip)) = Ok d0 ->
        datetime_fromtimestamp w (committed_date tip) = Ok d ->
        res (commit_ages w self)
        = Ok (mkAges (Z.max ((datetime_now w - d0) / 86400000000) 1)
                     ((datetime_now w - d) / 86400000000))
        /\ res (calculate_progress w self)
           = Ok (inject_Z (readme_score self) * 0.5
                 + inject_Z (Z.min 100 ((datetime_now w - d) / 86400000000 * 2)) * 0.5)%Q
        /\ (0 <= datetime_now w - d < 86400000000 ->
            res (calculate_progress w self)
            = Ok (inject_Z (readme_score self) * 0.5 + inject_Z 0 * 0.5)%Q)
        /\ (50 <= (datetime_now w - d) / 86400000000 ->
            res (calculate_progress w self)
            = Ok (inject_Z (readme_score self) * 0.5 + inject_Z 100 * 0.5)%Q))
  /\ (forall e : exn,
        iter_commits r None = Raise e ->
        res (commit_ages w self) = Ok (mkAges 1 1)
        /\ res (calculate_progress w self)
           = Ok (inject_Z (readme_score self) * 0.5 + inject_Z 2 * 0.5)%Q)
  /\ (forall (tip : Commit) (rest : list Commit) (e : exn),
        iter_commits r None = Ok (tip :: rest) ->
        datetime_fromtimestamp w (committed_date (List.last rest tip)) = Raise e ->
        res (commit_ages w self) = Ok (mkAges 1 1)
        /\ res (calculate_progress w self)
           = Ok (inject_Z (readme_score self) * 0.5 + inject_Z 2 * 0.5)%Q).
Proof.
  intros Hr. split; [|split; [|split]]; cycle 3.
  { intros tip rest e Hlist He.
    assert (E : res (commit_ages w self) = Ok (mkAges 1 1)).
    { unfold commit_ages, list_commits. run. rewrite Hr. run. rewrite Hlist.
      replace (List.last (tip :: rest) tip) with (List.last rest tip)
        by (destruct rest; reflexivity).
      run. rewrite He. run. reflexivity. }
    split; [exact E|].
    apply (calculate_progress_of_ages w self _ E). }
  - destruct (calculate_progress_run w self) as (l & t & El & Ep).
    exists l. rewrite El, Ep. split; reflexivity.
  - intros tip rest d0 d Hlist H0 Hd.
    pose proof (commit_ages_listed w self r tip rest d0 d Hr Hlist H0 Hd) as E.
    pose proof (calculate_progress_of_ages w self _ E) as Ep.
    cbn [days_since_last_commit] in Ep. unfold age_factor, timedelta_days in Ep.
    unfold timedelta_days in E.
    split; [exact E|]. split; [exact Ep|]. split.
    + intros Htoday. rewrite Ep. rewrite (Z.div_small _ _ Htoday). reflexivity.
    + intros Hold. rewrite Ep.
      replace (Z.min 100 ((datetime_now w - d) / 86400000000 * 2)) with 100 by lia.
      reflexivity.
  - intros e Hlist.
    pose proof (commit_ages_failed w self r e Hr Hlist) as E.
    split; [exact E|].
    apply (calculate_progress_of_ages w self _ E).
Qed.

(** ** Ahead and behind *)

(** The comparison never raises and leaves [self] alone. *)
Lemma ahead_behind_total (self : GitProject) :
  exists ba t, ahead_behind self = mkOutcome (Ok ba) self t
               /\ 0 <= fst ba /\ 0 <= snd ba.
Proof.
  unfold ahead_behind, self_repo. run.
  run_cases; eexists _, _; (split; [reflexivity|]); cbn [fst snd]; lia.
Qed.

Lemma ahead_behind_value (self : GitProject) (r : Repo) (b : string) :
  repo self = Some r ->
  active_branch r = Ok b ->
  res (ahead_behind self)
  = Ok match iter_commits r (Some (b +:+ "..origin/" +:+ b)%string),
             iter_commits r (Some ("origin/" +:+ b +:+ ".." +:+ b)%string) with
       | Ok behind, Ok ahead => (Z.of_nat (length behind), Z.of_nat (length ahead))
       | _, _ => (0, 0)
       end.
Proof.
  intros Hr Hb. unfold ahead_behind, self_repo. run.
  repeat (first [rewrite Hr | rewrite Hb]; run).
  destruct (iter_commits r (Some (b +:+ "..origin/" +:+ b)%string)); run;
    [|reflexivity].
  repeat (first [rewrite Hr | rewrite Hb]; run).
  destruct (iter_commits r (Some ("origin/" +:+ b +:+ ".." +:+ b)%string)); run;
    reflexivity.
Qed.

Lemma ahead_behind_no_branch (self : GitProject) (r : Repo) (e : exn) :
  repo self = Some r ->
  active_branch r = Raise e ->
  res (ahead_behind self) = Ok (0, 0).
Proof.
  intros Hr Hb. unfold ahead_behind, self_repo. run.
  repeat (first [rewrite Hr | rewrite Hb]; run). reflexivity.
Qed.

(** ** The progress estimate *)

Lemma midpoint_range (a b : Z) :
  0 <= a <= 100 -> 0 <= b <= 100 ->
  (0 <= inject_Z a * 0.5 + inject_Z b * 0.5 <= 100)%Q.
Proof.
  intros Ha Hb.
  assert (E : (inject_Z a * 0.5 + inject_Z b * 0.5 == inject_Z (a + b) * (1 # 2))%Q).
  { rewrite inject_Z_plus. unfold Qeq. cbn. lia. }
  rewrite E. unfold Qle. cbn. lia.
Qed.

(** ** Construction of a [GitProject] *)

Lemma path_init_attributes (p : Path) : path (init_attributes p) = p.
Proof. reflexivity. Qed.

(** [Repo(p)] raises: [self.repo] stays [None]. *)
Lemma body_not_opened (w : World) (p : Path) (e : exn) :
  git_Repo w p = Raise e ->
  open_and_gather w (init_attributes p)
  = mkOutcome (Raise e) (init_attributes p) [EvRepo p].
Proof.
  intros H. unfold open_and_gather. run.
  rewrite path_init_attributes, H. run. reflexivity.
Qed.

(** A bare repository: the exception is raised after [self.repo] has been
    assigned. *)
Lemma body_bare (w : World) (p : Path) (r : Repo) :
  git_Repo w p = Ok r ->
  bare r = true ->
  open_and_gather w (init_attributes p)
  = mkOutcome (Raise InvalidGitRepositoryError)
              (set_repo (Some r) (init_attributes p)) [EvRepo p].
Proof.
  intros H Hb. unfold open_and_gather, self_repo. run.
  rewrite path_init_attributes, H. run_self. rewrite Hb. run. reflexivity.
Qed.

Lemma body_unborn (w : World) (p : Path) (r : Repo) :
  git_Repo w p = Ok r ->
  bare r = false ->
  head_is_valid r = Ok false ->
  open_and_gather w (init_attributes p)
  = mkOutcome (Ok tt)
              (mkGitProject p (name_of p) (Some r) unborn_status 0 0)
              [EvRepo p; EvHeadIsValid].
Proof.
  intros H Hb Hv.
  unfold open_and_gather, gather_info, self_repo. run.
  rewrite path_init_attributes, H. run_self. rewrite Hb. run_self.
  rewrite Hv. run_self. reflexivity.
Qed.

Lemma body_head_unknown (w : World) (p : Path) (r : Repo) (e : exn) :
  git_Repo w p = Ok r ->
  bare r = false ->
  head_is_valid r = Raise e ->
  res (open_and_gather w (init_attributes p)) = Raise e.
Proof.
  intros H Hb Hv.
  unfold open_and_gather, gather_info, self_repo. run.
  rewrite path_init_attributes, H. run_self. rewrite Hb. run_self.
  rewrite Hv. run_self. reflexivity.
Qed.

(** The first call of the body is [Repo(p)]. *)
Lemma body_trace_head (w : World) (p : Path) :
  exists t, trace (open_and_gather w (init_attributes p)) = EvRepo p :: t.
Proof.
  unfold open_and_gather. run. rewrite path_init_attributes.
  destruct (git_Repo w p) as [r|e]; run; [|eauto].
  repeat (split_answer; run); eauto.
Qed.

(** What escapes [__init__] is never the class its handler names. *)
Lemma init_never_raises_invalid (w : World) (p : Path) :
  res (GitProject__init__ w p) <> Raise InvalidGitRepositoryError.
Proof.
  unfold GitProject__init__, try_except.
  destruct (open_and_gather w (init_attributes p)) as [[[]|e] o t]; cbn [res].
  - discriminate.
  - destruct (is_InvalidGitRepositoryError e) eqn:E; cbn [mret M_ret ret res].
    + discriminate.
    + intros [= ->]. discriminate E.
Qed.

(** [__init__] raises exactly when the body of its [try] raises another
    class than [InvalidGitRepositoryError]. *)
Lemma init_raises_iff (w : World) (p : Path) (e : exn) :
  res (GitProject__init__ w p) = Raise e
  <-> res (open_and_gather w (init_attributes p)) = Raise e
      /\ e <> InvalidGitRepositoryError.
Proof.
  unfold GitProject__init__, try_except.
  destruct (open_and_gather w (init_attributes p)) as [[[]|e'] o t]; cbn [res].
  - split; [discriminate | intros [? _]; discriminate].
  - unfold is_InvalidGitRepositoryError. case_bool_decide as E; cbn [mret M_ret ret res].
    + subst e'. split; [discriminate | intros [[= <-] Hne]; contradiction].
    + split.
      * intros [= <-]. split; [reflexivity | exact E].
      * intros [[= <-] _]. reflexivity.
Qed.

(** When the body completes, the object is the one the body has left. *)
Lemma init_body_ok (w : World) (p : Path) :
  res (open_and_gather w (init_attributes p)) = Ok tt ->
  GitProject__init__ w p = open_and_gather w (init_attributes p).
Proof.
  unfold GitProject__init__, try_except.
  destruct (open_and_gather w (init_attributes p)) as [[[]|e'] o t]; cbn [res].
  - reflexivity.
  - discriminate.
Qed.

Lemma analyze_readme_same_path (w : World) (s1 s2 : GitProject) :
  path s1 = path s2 ->
  res (analyze_readme w s1) = res (analyze_readme w s2)
  /\ trace (analyze_readme w s1) = trace (analyze_readme w s2).
Proof.
  intros H. unfold analyze_readme. run. rewrite H.
  run_cases; split; reflexivity.
Qed.

Lemma ahead_behind_same_repo (s1 s2 : GitProject) :
  repo s1 = repo s2 ->
  exists ba t, ahead_behind s1 = mkOutcome (Ok ba) s1 t
               /\ ahead_behind s2 = mkOutcome (Ok ba) s2 t.
Proof.
  intros H. destruct (repo s2) as [r|] eqn:H2;
    unfold ahead_behind, self_repo; run;
    repeat (first [rewrite H | rewrite H2 | split_answer]; run); eauto.
Qed.

Lemma commit_ages_res_same_repo (w : World) (s1 s2 : GitProject) :
  repo s1 = repo s2 -> res (commit_ages w s1) = res (commit_ages w s2).
Proof.
  intros H. destruct (commit_ages_same_repo w s1 s2 H) as (l & t & E1 & E2).
  rewrite E1, E2. reflexivity.
Qed.

(** The record built for a repository whose HEAD is valid, when the body
    of the [try] completes. *)
Lemma gather_valid_head (w : World) (p : Path) (r : Repo) :
  git_Repo w p = Ok r ->
  bare r = false ->
  head_is_valid r = Ok true ->
  res (open_and_gather w (init_attributes p)) = Ok tt ->
  exists (b : string) (d : bool) (t : Z) (dt : datetime) (ba : Z * Z)
         (score : Z) (l : ages),
    active_branch r = Ok b
    /\ is_dirty r = Ok d
    /\ head_commit_committed_date r = Ok t
    /\ datetime_fromtimestamp w t = Ok dt
    /\ res (ahead_behind (set_repo (Some r) (init_attributes p))) = Ok ba
    /\ res (analyze_readme w (init_attributes p)) = Ok score
    /\ res (commit_ages w (set_repo (Some r) (init_attributes p))) = Ok l
    /\ obj (open_and_gather w (init_attributes p))
       = mkGitProject p (name_of p) (Some r)
           (<["commits_ahead" := PyInt (snd ba)]>
              (<["commits_behind" := PyInt (fst ba)]>
                 (<["last_commit" := PyDatetime dt]>
                    (<["is_dirty" := PyBool d]>
                       (<["active_branch" := PyStr b]> ∅)))))
           (inject_Z score * 0.5
            + inject_Z (age_factor (days_since_last_commit l)) * 0.5)%Q
           score.
Proof.
  intros H Hb Hv.
  unfold open_and_gather, gather_info, self_repo. run.
  rewrite path_init_attributes, H. run_self. rewrite Hb. run_self.
  rewrite Hv. run_self.
  destruct (active_branch r) as [b|e] eqn:Hbranch; run_self; [|discriminate].
  destruct (is_dirty r) as [d|e] eqn:Hdirty; run_self; [|discriminate].
  destruct (head_commit_committed_date r) as [t|e] eqn:Hdate; run_self;
    [|discriminate].
  destruct (datetime_fromtimestamp w t) as [dt|e] eqn:Hdt; run_self;
    [|discriminate].
  match goal with
  | |- context [ahead_behind ?s] =>
      destruct (ahead_behind_same_repo s (set_repo (Some r) (init_attributes p))
                                       eq_refl) as (ba & tab & Eab & Eab');
      rewrite Eab, Eab'
  end.
  destruct ba as [behind ahead]. run_self.
  match goal with
  | |- context [analyze_readme w ?s] =>
      pose proof (analyze_readme_obj w s) as Ho;
      pose proof (proj1 (analyze_readme_same_path w s (init_attributes p) eq_refl))
        as Hscore;
      destruct (analyze_readme w s) as [[score|e] o tr]; cbn [obj res] in Ho, Hscore;
      subst o
  end; run_self; [|discriminate].
  match goal with
  | |- context [calculate_progress w ?s] =>
      destruct (calculate_progress_run w s) as (l & tp & El & Ep);
      pose proof (commit_ages_res_same_repo w s (set_repo (Some r) (init_attributes p))
                                            eq_refl) as Hl;
      rewrite El in Hl; cbn [res] in Hl;
      rewrite Ep
  end.
  run_self. intros _.
  exists b, d, t, dt, (behind, ahead), score, l.
  repeat (split; [first [reflexivity | assumption | symmetry; assumption]|]).
  reflexivity.
Qed.

(** ** The loop of [scan_projects] *)

Lemma for_each_map {O A B} (f : A -> B) (body : B -> M O unit) (l : list A) (o : O) :
  for_each l (fun x => body (f x)) o = for_each (map f l) body o.
Proof.
  revert o. induction l as [|x l IH]; intros o; [reflexivity|].
  cbn [for_each map]. unfold mbind, M_bind, bind.
  destruct (body (f x) o) as [[[]|e] o1 t1]; [|reflexivity].
  rewrite IH. reflexivity.
Qed.

Lemma scan_projects_unfold (w : World) (s : GitScope) :
  scan_projects w s
  = for_each (candidates w (base_dir s)) (submit w) (mkGitScope (base_dir s) []).
Proof.
  unfold scan_projects, candidates.
  rewrite bind_modify, bind_get. cbn [base_dir].
  rewrite <- (for_each_map parent (submit w)). reflexivity.
Qed.

Section Loop.

Variable w : World.

Lemma submit_ok (c : Path) (s : GitScope) :
  res (GitProject__init__ w c) = Ok tt ->
  submit w c s
  = mkOutcome (Ok tt)
              (mkGitScope (base_dir s) (projects s ++ kept w [c]))
              (trace (GitProject__init__ w c)).
Proof.
  intros H. unfold submit, new_GitProject, kept, record_of. run.
  cbn [map List.filter].
  destruct (GitProject__init__ w c) as [r g t]. cbn [res obj trace] in *.
  subst r. destruct (truthy (repo g)); cbn [app]; rewrite ?app_nil_r.
  - reflexivity.
  - destruct s; reflexivity.
Qed.

Lemma submit_raise (c : Path) (s : GitScope) (e : exn) :
  res (GitProject__init__ w c) = Raise e ->
  submit w c s = mkOutcome (Raise e) s (trace (GitProject__init__ w c)).
Proof.
  intros H. unfold submit, new_GitProject. run.
  destruct (GitProject__init__ w c) as [r g t]. cbn [res obj trace] in *.
  subst r. reflexivity.
Qed.

Lemma kept_app (l1 l2 : list Path) :
  kept w (l1 ++ l2) = kept w l1 ++ kept w l2.
Proof. unfold kept. rewrite map_app, List.filter_app. reflexivity. Qed.

Lemma traces_app (l1 l2 : list Path) :
  traces w (l1 ++ l2) = traces w l1 ++ traces w l2.
Proof. unfold traces. rewrite map_app, concat_app. reflexivity. Qed.

(** Every construction completes: every candidate is handled, in order. *)
Lemma loop_all_ok (cs : list Path) (s : GitScope) :
  Forall (fun c => res (GitProject__init__ w c) = Ok tt) cs ->
  for_each cs (submit w) s
  = mkOutcome (Ok tt) (mkGitScope (base_dir s) (projects s ++ kept w cs))
              (traces w cs).
Proof.
  intros Hall. revert s. induction Hall as [|c cs Hc _ IH]; intros s.
  - cbn. unfold kept. cbn. rewrite app_nil_r. destruct s; reflexivity.
  - cbn [for_each].
    rewrite (bind_ok _ _ _ _ _ _ (submit_ok c s Hc)).
    rewrite IH. cbn [res obj trace base_dir projects].
    change (c :: cs) with ([c] ++ cs).
    rewrite kept_app, traces_app, app_assoc.
    unfold traces at 2. cbn [map concat]. rewrite app_nil_r. reflexivity.
Qed.

(** A construction raises: the loop stops there, with the records kept so
    far. *)
Lemma loop_raise (pre post : list Path) (c : Path) (e : exn) (s : GitScope) :
  Forall (fun c => res (GitProject__init__ w c) = Ok tt) pre ->
  res (GitProject__init__ w c) = Raise e ->
  for_each (pre ++ c :: post) (submit w) s
  = mkOutcome (Raise e) (mkGitScope (base_dir s) (projects s ++ kept w pre))
              (traces w pre ++ trace (GitProject__init__ w c)).
Proof.
  intros Hall Hc. revert s. induction Hall as [|c' pre Hc' _ IH]; intros s.
  - cbn [app for_each].
    rewrite (bind_raise _ _ _ _ _ _ (submit_raise c s e Hc)).
    unfold kept, traces. cbn. rewrite app_nil_r. destruct s; reflexivity.
  - cbn [app for_each].
    rewrite (bind_ok _ _ _ _ _ _ (submit_ok c' s Hc')).
    rewrite IH. cbn [res obj trace base_dir projects].
    change (c' :: pre) with ([c'] ++ pre).
    rewrite kept_app, traces_app, !app_assoc.
    unfold traces at 2. cbn [map concat]. rewrite app_nil_r. reflexivity.
Qed.

(** Either every construction completes, or there is a first one that
    raises. *)
Lemma first_raise (cs : list Path) :
  Forall (fun c => res (GitProject__init__ w c) = Ok tt) cs
  \/ exists pre c post e,
       cs = pre ++ c :: post
       /\ Forall (fun c => res (GitProject__init__ w c) = Ok tt) pre
       /\ res (GitProject__init__ w c) = Raise e.
Proof.
  induction cs as [|c cs IH]; [left; constructor|].
  destruct (res (GitProject__init__ w c)) as [[]|e] eqn:Hc.
  - destruct IH as [Hall | (pre & c' & post & e & -> & Hpre & He)].
    + left. constructor; assumption.
    + right. exists (c :: pre), c', post, e.
      split; [reflexivity|]. split; [constructor; assumption | exact He].
  - right. exists [], c, cs, e. split; [reflexivity|]. split; [constructor | exact Hc].
Qed.

End Loop.

(** ** Walking the tree *)

(** Induction on a tree, with the hypothesis for every entry of a
    directory. *)
Lemma Node_ind (P : Node -> Prop) :
  (forall content, P (File content)) ->
  (forall es, Forall (fun kc => P (snd kc)) es -> P (Dir es)) ->
  forall n, P n.
Proof.
  intros HF HD. fix IH 1. intros [content|es]; [apply HF|].
  apply HD. revert es. fix IHes 1. intros [|[k c] es].
  - constructor.
  - constructor; [apply IH | apply IHes].
Qed.

Lemma iterate_directories_dir (p : Path) (es : list (string * Node)) :
  iterate_directories p (Dir es)
  = (p, es) :: flat_map (fun kc => iterate_directories (joinpath p (fst kc)) (snd kc)) es.
Proof.
  cbn [iterate_directories]. f_equal.
  induction es as [|[k c] es IH]; [reflexivity|].
  cbn [flat_map fst snd]. rewrite <- IH.
  destruct c; reflexivity.
Qed.

Lemma entry_in (name : string) (es : list (string * Node)) (c : Node) :
  In (name, c) es -> exists c', entry name es = Some c'.
Proof.
  induction es as [|[k c'] es IH]; intros Hin; [destruct Hin|].
  cbn [entry]. destruct (String.eqb k name) eqn:E; [eauto|].
  destruct Hin as [[= -> ->] | Hin]; [|auto].
  rewrite String.eqb_refl in E. discriminate.
Qed.

Lemma entry_some (name : string) (es : list (string * Node)) (c : Node) :
  entry name es = Some c -> In (name, c) es.
Proof.
  induction es as [|[k c'] es IH]; intros H; [discriminate|].
  cbn [entry] in H. destruct (String.eqb k name) eqn:E.
  - apply String.eqb_eq in E. injection H as ->. subst k. left. reflexivity.
  - right. auto.
Qed.

(** The directories visited are the directories reached by a path. *)
Lemma iterate_directories_spec (n : Node) (p d : Path) (es : list (string * Node)) :
  In (d, es) (iterate_directories p n)
  <-> exists rel, d = p ++ rel /\ at_path n rel (Dir es).
Proof.
  revert p. induction n as [content|es0 IH] using Node_ind; intros p.
  - cbn. split; [intros []|].
    intros (rel & _ & H). inversion H.
  - rewrite iterate_directories_dir. cbn [In]. rewrite in_flat_map. split.
    + intros [[= <- <-] | ([k c] & Hin & Hd)].
      * exists []. rewrite app_nil_r. split; [reflexivity | constructor].
      * rewrite List.Forall_forall in IH. cbn [fst snd] in Hd.
        apply (IH _ Hin) in Hd. destruct Hd as (rel & -> & Hrel).
        exists (k :: rel). unfold joinpath. rewrite <- app_assoc.
        split; [reflexivity|]. econstructor; eassumption.
    + intros (rel & -> & Hrel). inversion Hrel as [|? k c rel' ? Hin Hrel']; subst.
      * left. rewrite app_nil_r. reflexivity.
      * right. exists (k, c). split; [exact Hin|]. cbn [fst snd].
        rewrite List.Forall_forall in IH. apply (IH _ Hin).
        exists rel'. unfold joinpath. rewrite <- app_assoc.
        split; [reflexivity | exact Hrel'].
Qed.

Lemma at_path_snoc (n : Node) (rel : Path) (name : string) (m : Node) :
  at_path n (rel ++ [name]) m
  <-> exists es, at_path n rel (Dir es) /\ In (name, m) es.
Proof.
  revert n. induction rel as [|k rel IH]; intros n; cbn [app]; split.
  - intros H. inversion H as [|es ? c ? ? Hin Hc]; subst. inversion Hc; subst.
    exists es. split; [constructor | exact Hin].
  - intros (es & H & Hin). inversion H; subst.
    econstructor; [exact Hin | constructor].
  - intros H. inversion H as [|es ? c ? ? Hin Hc]; subst.
    apply IH in Hc. destruct Hc as (es' & Hc & Hin').
    exists es'. split; [econstructor; eassumption | exact Hin'].
  - intros (es & H & Hin). inversion H as [|es0 ? c ? ? Hin0 Hc]; subst.
    econstructor; [exact Hin0|]. apply IH. eauto.
Qed.

(** [rglob] yields exactly the paths of the entries with the given name,
    whatever their kind. *)
Lemma rglob_spec (w : World) (base : Path) (name : string) (x : Path) :
  In x (rglob w base name)
  <-> exists root rel m,
        lookup_path (fs w) base = Some root
        /\ at_path root (rel ++ [name]) m
        /\ x = base ++ rel ++ [name].
Proof.
  unfold rglob. destruct (lookup_path (fs w) base) as [root|].
  - destruct root as [content|es0]; cbn [is_dir].
    { split; [intros []|].
      intros (root' & rel & m & [= <-] & Hm & _).
      destruct rel; inversion Hm. }
    set (root := Dir es0). rewrite in_flat_map. split.
    + intros ([d es] & Hd & Hx). unfold select_precise in Hx. cbn [fst snd] in Hx.
      destruct (entry name es) as [c|] eqn:E; [|destruct Hx].
      destruct Hx as [<- | []].
      apply iterate_directories_spec in Hd. destruct Hd as (rel & -> & Hrel).
      exists root, rel, c. split; [reflexivity|]. split.
      * apply at_path_snoc. exists es. split; [exact Hrel|].
        apply entry_some. exact E.
      * unfold joinpath. rewrite app_assoc. reflexivity.
    + intros (root' & rel & m & [= <-] & Hm & ->).
      apply at_path_snoc in Hm. destruct Hm as (es & Hrel & Hin).
      exists (base ++ rel, es). split.
      * apply iterate_directories_spec. exists rel. split; [reflexivity | exact Hrel].
      * unfold select_precise. cbn [fst snd].
        destruct (entry_in _ _ _ Hin) as [c' ->].
        left. unfold joinpath. rewrite app_assoc. reflexivity.
  - split; [intros [] | intros (? & ? & ? & [=] & _)].
Qed.

Lemma parent_joinpath (d : Path) (name : string) : parent (d ++ [name]) = d.
Proof. unfold parent. apply removelast_last. Qed.

Lemma candidates_spec (w : World) (base : Path) (c : Path) :
  In c (candidates w base)
  <-> exists root rel m,
        lookup_path (fs w) base = Some root
        /\ at_path root (rel ++ [".git"%string]) m
        /\ c = base ++ rel.
Proof.
  unfold candidates. rewrite in_map_iff. split.
  - intros (x & <- & Hx). apply rglob_spec in Hx.
    destruct Hx as (root & rel & m & Hroot & Hm & ->).
    exists root, rel, m. rewrite app_assoc, parent_joinpath. auto.
  - intros (root & rel & m & Hroot & Hm & ->).
    exists (base ++ rel ++ [".git"%string]). split.
    + rewrite app_assoc. apply parent_joinpath.
    + apply rglob_spec. exists root, rel, m. auto.
Qed.

(** [Repo(p)] raises: the class named in the [except] clause is absorbed
    and [self.repo] stays [None]; any other class leaves [__init__]. *)
Lemma init_not_opened (w : World) (p : Path) (e : exn) :
  git_Repo w p = Raise e ->
  GitProject__init__ w p
  = mkOutcome (if is_InvalidGitRepositoryError e then Ok tt else Raise e)
              (init_attributes p) [EvRepo p].
Proof.
  intros H. unfold GitProject__init__, try_except.
  rewrite (body_not_opened _ _ _ H).
  destruct (is_InvalidGitRepositoryError e); reflexivity.
Qed.

(** A bare repository: the handler does not reset [self.repo]. *)
Lemma init_bare (w : World) (p : Path) (r : Repo) :
  git_Repo w p = Ok r ->
  bare r = true ->
  GitProject__init__ w p
  = mkOutcome (Ok tt) (set_repo (Some r) (init_attributes p)) [EvRepo p].
Proof.
  intros H Hb. unfold GitProject__init__, try_except.
  rewrite (body_bare _ _ _ H Hb). reflexivity.
Qed.

Lemma init_unborn (w : World) (p : Path) (r : Repo) :
  git_Repo w p = Ok r ->
  bare r = false ->
  head_is_valid r = Ok false ->
  GitProject__init__ w p
  = mkOutcome (Ok tt)
              (mkGitProject p (name_of p) (Some r) unborn_status 0 0)
              [EvRepo p; EvHeadIsValid].
Proof.
  intros H Hb Hv. rewrite init_body_ok; rewrite (body_unborn _ _ _ H Hb Hv);
    reflexivity.
Qed.

(** When the body completes, the repository was opened, is not bare, and
    is still referenced by the record. *)
Lemma body_ok_repo (w : World) (p : Path) :
  res (open_and_gather w (init_attributes p)) = Ok tt ->
  exists r, git_Repo w p = Ok r /\ bare r = false
            /\ repo (obj (open_and_gather w (init_attributes p))) = Some r.
Proof.
  intros Hok.
  destruct (git_Repo w p) as [r|e] eqn:Hr.
  2: { rewrite (body_not_opened _ _ _ Hr) in Hok. discriminate. }
  destruct (bare r) eqn:Hb.
  { rewrite (body_bare _ _ _ Hr Hb) in Hok. discriminate. }
  exists r. split; [reflexivity|]. split; [exact Hb|].
  destruct (head_is_valid r) as [[]|e] eqn:Hv.
  - destruct (gather_valid_head w p r Hr Hb Hv Hok)
      as (b & d & t & dt & ba & score & l & _ & _ & _ & _ & _ & _ & _ & ->).
    reflexivity.
  - rewrite (body_unborn _ _ _ Hr Hb Hv). reflexivity.
  - rewrite (body_head_unknown _ _ _ _ Hr Hb Hv) in Hok. discriminate.
Qed.

Lemma init_trace_head (w : World) (p : Path) :
  exists t, trace (GitProject__init__ w p) = EvRepo p :: t.
Proof.
  destruct (body_trace_head w p) as [t Ht].
  unfold GitProject__init__, try_except.
  destruct (open_and_gather w (init_attributes p)) as [[[]|e] o t'];
    cbn [trace] in Ht; subst t'.
  - eauto.
  - destruct (is_InvalidGitRepositoryError e); cbn; eauto.
Qed.

(** ** How a scan ends *)

(** Either every candidate is handled, or the scan stops at the first
    candidate whose construction raises. *)
Lemma scan_projects_outcome (w : World) (s : GitScope) :
  let cs := candidates w (base_dir s) in
  (Forall (completes w) cs
   /\ scan_projects w s
      = mkOutcome (Ok tt) (mkGitScope (base_dir s) (kept w cs)) (traces w cs))
  \/ (exists pre c post e,
        cs = pre ++ c :: post
        /\ Forall (completes w) pre
        /\ res (GitProject__init__ w c) = Raise e
        /\ scan_projects w s
           = mkOutcome (Raise e) (mkGitScope (base_dir s) (kept w pre))
                       (traces w pre ++ trace (GitProject__init__ w c))).
Proof.
  intros cs. rewrite scan_projects_unfold. fold cs.
  destruct (first_raise w cs) as [Hall | (pre & c & post & e & E & Hpre & He)].
  - left. split; [exact Hall|]. rewrite (loop_all_ok _ _ _ Hall). reflexivity.
  - right. exists pre, c, post, e. repeat (split; [assumption|]).
    rewrite E, (loop_raise _ _ _ _ _ _ Hpre He). reflexivity.
Qed.

Lemma scan_projects_base_dir (w : World) (s : GitScope) :
  base_dir (obj (scan_projects w s)) = base_dir s.
Proof.
  destruct (scan_projects_outcome w s)
    as [[_ ->] | (pre & c & post & e & _ & _ & _ & ->)]; reflexivity.
Qed.

Lemma scan_projects_same_base (w : World) (s s' : GitScope) :
  base_dir s' = base_dir s -> scan_projects w s' = scan_projects w s.
Proof. intros H. rewrite !scan_projects_unfold, H. reflexivity. Qed.

Lemma in_kept (w : World) (cs : list Path) (c : Path) :
  In c cs -> truthy (repo (record_of w c)) = true -> In (record_of w c) (kept w cs).
Proof.
  intros Hin Ht. unfold kept. apply List.filter_In. split; [|exact Ht].
  apply in_map. exact Hin.
Qed.

Lemma in_traces (w : World) (cs : list Path) (c : Path) :
  In c cs -> In (EvRepo c) (traces w cs).
Proof.
  intros Hin. unfold traces. apply in_concat.
  exists (trace (GitProject__init__ w c)). split.
  - apply (in_map (fun c => trace (GitProject__init__ w c))). exact Hin.
  - destruct (init_trace_head w c) as [t ->]. left. reflexivity.
Qed.

(** ** Every outcome of the body of the constructor *)

Lemma opens_app (t1 t2 : list event) : opens (t1 ++ t2) = opens t1 ++ opens t2.
Proof. unfold opens. apply flat_map_app. Qed.

Lemma opens_cons (ev : event) (t : list event) :
  opens (ev :: t) = match ev with EvRepo p => [p] | _ => [] end ++ opens t.
Proof. reflexivity. Qed.

Lemma ahead_behind_spec (self : GitProject) :
  exists ba t, ahead_behind self = mkOutcome (Ok ba) self t
               /\ 0 <= fst ba /\ 0 <= snd ba /\ opens t = [].
Proof.
  destruct (repo self) as [r|] eqn:Hr; unfold ahead_behind, self_repo; run;
    repeat (first [rewrite Hr | split_answer]; run);
    eexists _, _; (split; [reflexivity|]); cbn [fst snd];
    (split; [lia|]); (split; [lia|]); reflexivity.
Qed.

Lemma analyze_readme_spec (w : World) (self : GitProject) :
  exists t, analyze_readme w self = mkOutcome (readme_answer w (path self)) self t
            /\ opens t = [].
Proof.
  unfold readme_answer.
  destruct (lookup_path (fs w) (joinpath (path self) "README.md")) as [n|] eqn:E.
  - rewrite (analyze_readme_present _ _ _ E). eexists. split; reflexivity.
  - rewrite (analyze_readme_absent _ _ E). eexists. split; reflexivity.
Qed.

Lemma readme_answer_range (w : World) (p : Path) (z : Z) :
  readme_answer w p = Ok z -> 0 <= z <= 100.
Proof.
  unfold readme_answer.
  destruct (lookup_path (fs w) (joinpath p "README.md")).
  - destruct (read_text w (joinpath p "README.md")); [|discriminate].
    intros [= <-]. apply score_of_length_range. lia.
  - intros [= <-]. lia.
Qed.

Lemma calculate_progress_spec (w : World) (self : GitProject) :
  exists l t,
    calculate_progress w self
    = mkOutcome (Ok (inject_Z (readme_score self) * 0.5
                     + inject_Z (age_factor (days_since_last_commit l)) * 0.5)%Q)
                self t
    /\ opens t = [].
Proof.
  destruct (calculate_progress_run w self) as (l & t & El & Ep).
  exists l, t. split; [exact Ep|].
  revert El. unfold commit_ages, list_commits. run.
  destruct (repo self); run; run_cases; intros [= <- <-]; reflexivity.
Qed.

Lemma midpoint_le (a b : Z) :
  a <= 100 -> b <= 100 -> (inject_Z a * 0.5 + inject_Z b * 0.5 <= 100)%Q.
Proof. intros Ha Hb. unfold Qle. cbn. lia. Qed.

Lemma age_factor_le (days : Z) : age_factor days <= 100.
Proof. unfold age_factor. lia. Qed.

Lemma status_ok_insert (key : string) (v : pyval) (m : gmap string pyval) :
  entry_ok key v = true -> status_ok m -> status_ok (<[key := v]> m).
Proof. intros Hv Hm. apply map_Forall_insert_2; assumption. Qed.

Lemma status_ok_empty : status_ok ∅.
Proof. apply map_Forall_empty. Qed.

Ltac close_outcome :=
  repeat match goal with
         | |- _ /\ _ => split
         | |- status_ok (<[_ := _]> _) => apply status_ok_insert
         | |- status_ok ∅ => apply status_ok_empty
         end;
  first [ reflexivity
        | lia
        | assumption
        | apply midpoint_le; [lia | apply age_factor_le]
        | (unfold Qle; cbn; lia)
        | (cbn; apply Z.leb_le; assumption)
        | (repeat first [rewrite opens_cons | rewrite opens_app];
           repeat match goal with H : opens _ = [] |- _ => rewrite H end;
           reflexivity) ].

(** Whatever happens in the body of the [try], the object it leaves has
    the path and name it was given, references the repository as soon as
    [Repo] has returned, holds typed entries and bounded scores; [Repo] is
    called once; and the body ends as [extraction] says. *)
Lemma body_outcome (w : World) (p : Path) :
  let o := open_and_gather w (init_attributes p) in
  path (obj o) = p
  /\ name (obj o) = name_of p
  /\ repo (obj o) = match git_Repo w p with Ok r => Some r | Raise _ => None end
  /\ 0 <= readme_score (obj o) <= 100
  /\ (progress (obj o) <= 100)%Q
  /\ status_ok (status (obj o))
  /\ opens (trace o) = [p]
  /\ res o = extraction w p.
Proof.
  cbv zeta. unfold open_and_gather, gather_info, self_repo, extraction. run.
  rewrite path_init_attributes.
  destruct (git_Repo w p) as [r|e]; run_self; [|close_outcome].
  destruct (bare r); run_self; [close_outcome|].
  destruct (head_is_valid r) as [[]|e]; run_self; [|close_outcome..].
  destruct (active_branch r) as [b|e]; run_self; [|close_outcome].
  destruct (is_dirty r) as [d|e]; run_self; [|close_outcome].
  destruct (head_commit_committed_date r) as [t|e]; run_self; [|close_outcome].
  destruct (datetime_fromtimestamp w t) as [dt|e]; run_self; [|close_outcome].
  match goal with
  | |- context [ahead_behind ?s] =>
      destruct (ahead_behind_spec s) as ([behind ahead] & tab & Eab & Hbehind & Hahead & Htab);
      rewrite Eab
  end.
  cbn [fst snd] in Hbehind, Hahead. run_self.
  match goal with
  | |- context [analyze_readme w ?s] =>
      destruct (analyze_readme_spec w s) as (tr & Er & Htr); rewrite Er
  end.
  cbn [path set_status set_repo init_attributes].
  destruct (readme_answer w p) as [score|e] eqn:Hscore; run_self;
    [|close_outcome].
  pose proof (readme_answer_range _ _ _ Hscore) as Hrange.
  match goal with
  | |- context [calculate_progress w ?s] =>
      destruct (calculate_progress_spec w s) as (l & tp & Ep & Htp); rewrite Ep
  end.
  run_self. close_outcome.
Qed.

Lemma init_outcome (w : World) (p : Path) :
  obj (GitProject__init__ w p) = obj (open_and_gather w (init_attributes p))
  /\ opens (trace (GitProject__init__ w p)) = [p]
  /\ res (GitProject__init__ w p)
     = match extraction w p with
       | Ok _ => Ok tt
       | Raise e => if is_InvalidGitRepositoryError e then Ok tt else Raise e
       end.
Proof.
  destruct (body_outcome w p) as (_ & _ & _ & _ & _ & _ & Hopens & Hres).
  rewrite <- Hres. unfold GitProject__init__, try_except.
  destruct (open_and_gather w (init_attributes p)) as [[[]|e] o t];
    cbn [res obj trace] in *.
  - auto.
  - destruct (is_InvalidGitRepositoryError e); cbn [mret M_ret ret res obj trace];
      rewrite ?app_nil_r; auto.
Qed.

Lemma opens_traces (w : World) (cs : list Path) : opens (traces w cs) = cs.
Proof.
  induction cs as [|c cs IH]; [reflexivity|].
  change (c :: cs) with ([c] ++ cs). rewrite traces_app, opens_app, IH.
  unfold traces. cbn [map concat]. rewrite app_nil_r.
  destruct (init_outcome w c) as (_ & -> & _). reflexivity.
Qed.

(** ** The claims *)

(** C1 (not met by the code): a candidate whose repository opens as a
    bare repository is to be left out of the result.  In the tree with the
    ordinary checkout [proj] and the bare repository [mirror], the scan
    ends normally with two records: [mirror] is kept, with a [repo]
    attribute and an empty [status]. *)
Theorem bare_repository_is_kept :
  let out := scan_projects world_bare_and_normal (GitScope__init__ []) in
  candidates world_bare_and_normal [] = [["proj"%string]; ["mirror"%string]]
  /\ (exists r, git_Repo world_bare_and_normal ["mirror"%string] = Ok r
                /\ bare r = true)
  /\ res out = Ok tt
  /\ map path (projects (obj out)) = [["proj"%string]; ["mirror"%string]]
  /\ length (projects (obj out)) = 2%nat
  /\ Exists (fun g => path g = ["mirror"%string]
                      /\ truthy (repo g) = true
                      /\ status g = ∅)
            (projects (obj out)).
Proof.
  cbv zeta. split; [reflexivity|].
  split; [exists repo_bare; split; reflexivity|].
  destruct (scan_projects_outcome world_bare_and_normal (GitScope__init__ []))
    as [[_ E] | (pre & c & post & e & _ & _ & _ & E)].
  - rewrite E. cbn [res obj projects].
    split; [reflexivity|]. split; [vm_compute; reflexivity|].
    split; [vm_compute; reflexivity|].
    change (candidates world_bare_and_normal (base_dir (GitScope__init__ [])))
      with [["proj"%string]; ["mirror"%string]].
    change [["proj"%string]; ["mirror"%string]]
      with ([["proj"%string]] ++ [["mirror"%string]]).
    rewrite kept_app. apply Exists_app. right.
    unfold kept, record_of. cbn [map].
    rewrite (init_bare world_bare_and_normal ["mirror"%string] repo_bare
                       eq_refl eq_refl).
    cbn. constructor. repeat split; reflexivity.
  - exfalso. apply (f_equal res) in E. vm_compute in E. discriminate E.
Qed.

(** C2, as the code has it: a candidate that fails with
    [InvalidGitRepositoryError] does not stop the scan.  When the body of
    the [try] raises no other class for any candidate, the scan ends
    normally and holds a record for every candidate whose body completed.
    An exception of any other class raised for a candidate leaves
    [scan_projects]. *)
Theorem scan_isolates_invalid_repository (w : World) (s : GitScope) :
  let cs := candidates w (base_dir s) in
  let out := scan_projects w s in
  ((forall c e, In c cs ->
      res (open_and_gather w (init_attributes c)) = Raise e ->
      e = InvalidGitRepositoryError) ->
   res out = Ok tt
   /\ forall c, In c cs ->
        res (open_and_gather w (init_attributes c)) = Ok tt ->
        In (record_of w c) (projects (obj out)))
  /\ (forall c e, In c cs ->
        res (open_and_gather w (init_attributes c)) = Raise e ->
        e <> InvalidGitRepositoryError ->
        exists e', res out = Raise e' /\ e' <> InvalidGitRepositoryError).
Proof.
  intros cs out. subst cs out.
  destruct (scan_projects_outcome w s)
    as [[Hall E] | (pre & c0 & post & e0 & Hcs & Hpre & He0 & E)].
  - split.
    + intros _. rewrite E. cbn [res obj projects]. split; [reflexivity|].
      intros c Hin Hok. apply in_kept; [exact Hin|].
      unfold record_of. rewrite (init_body_ok _ _ Hok).
      destruct (body_ok_repo w c Hok) as (r & _ & _ & ->). reflexivity.
    + intros c e Hin He Hne. exfalso.
      rewrite List.Forall_forall in Hall. specialize (Hall c Hin).
      unfold completes in Hall.
      assert (Hr : res (GitProject__init__ w c) = Raise e)
        by (apply init_raises_iff; split; assumption).
      rewrite Hr in Hall. discriminate Hall.
  - split.
    + intros Honly. exfalso.
      apply init_raises_iff in He0. destruct He0 as [Hbody Hne].
      apply Hne. apply (Honly c0); [|exact Hbody].
      rewrite Hcs. apply in_or_app. right. left. reflexivity.
    + intros c e _ _ _. exists e0. rewrite E. split; [reflexivity|].
      apply init_raises_iff in He0. apply He0.
Qed.

(** In the tree with [proj] and the bare [mirror] nothing but
    [InvalidGitRepositoryError] is raised; in the tree with [pinned] the
    [TypeError] leaves the scan. *)
Lemma scan_isolates_invalid_repository_witness :
  res (scan_projects world_bare_and_normal (GitScope__init__ [])) = Ok tt
  /\ In (record_of world_bare_and_normal ["proj"%string])
        (projects (obj (scan_projects world_bare_and_normal (GitScope__init__ []))))
  /\ exists e', res (scan_projects world_detached (GitScope__init__ [])) = Raise e'
                /\ e' <> InvalidGitRepositoryError.
Proof.
  destruct (scan_isolates_invalid_repository world_bare_and_normal
                                             (GitScope__init__ [])) as [H1 _].
  destruct (scan_isolates_invalid_repository world_detached
                                             (GitScope__init__ [])) as [_ H2].
  cbv zeta in H1, H2.
  assert (Honly : forall c e,
             In c (candidates world_bare_and_normal (base_dir (GitScope__init__ []))) ->
             res (open_and_gather world_bare_and_normal (init_attributes c)) = Raise e ->
             e = InvalidGitRepositoryError).
  { intros c e Hin. vm_compute in Hin.
    destruct Hin as [<- | [<- | []]]; vm_compute; intros [=]; congruence. }
  destruct (H1 Honly) as [Hok Hrec].
  split; [exact Hok|]. split.
  - apply Hrec; [vm_compute; left; reflexivity | vm_compute; reflexivity].
  - apply (H2 ["pinned"%string] TypeError).
    + vm_compute. left. reflexivity.
    + vm_compute. reflexivity.
    + discriminate.
Defined.

(** C2 as stated fails: [pinned] has a detached HEAD, reading its active
    branch raises [TypeError], which leaves [scan_projects]; the ordinary
    checkout [proj], next in line and valid, gets no record. *)
Lemma scan_aborted_by_detached_head :
  let out := scan_projects world_detached (GitScope__init__ []) in
  candidates world_detached [] = [["pinned"%string]; ["proj"%string]]
  /\ res (GitProject__init__ world_detached ["proj"%string]) = Ok tt
  /\ truthy (repo (record_of world_detached ["proj"%string])) = true
  /\ res out = Raise TypeError
  /\ projects (obj out) = []
  /\ ~ In (EvRepo ["proj"%string]) (trace out).
Proof.
  cbv zeta. split; [reflexivity|].
  split; [vm_compute; reflexivity|].
  split; [vm_compute; reflexivity|].
  destruct (scan_projects_outcome world_detached (GitScope__init__ []))
    as [[Hall _] | (pre & c & post & e & Hcs & Hpre & He & E)].
  - exfalso. inversion Hall as [|? ? Hc _]. vm_compute in Hc. discriminate Hc.
  - change (candidates world_detached (base_dir (GitScope__init__ [])))
      with [["pinned"%string]; ["proj"%string]] in Hcs.
    destruct pre as [|c' pre].
    + cbn [app] in Hcs. injection Hcs as <- <-.
      rewrite E. cbn [res obj projects trace].
      vm_compute in He. injection He as <-.
      split; [reflexivity|]. split; [reflexivity|].
      vm_compute. intros [H|[H|[H|[]]]]; discriminate H.
    + exfalso. injection Hcs as <- _.
      inversion Hpre as [|? ? Hc _]. vm_compute in Hc. discriminate Hc.
Qed.

Lemma analyze_readme_range (w : World) (self : GitProject) (z : Z) :
  res (analyze_readme w self) = Ok z -> 0 <= z <= 100.
Proof.
  destruct (lookup_path (fs w) (joinpath (path self) "README.md")) as [n|] eqn:E.
  - rewrite (analyze_readme_present _ _ _ E). cbn [res].
    destruct (read_text w (joinpath (path self) "README.md")); [|discriminate].
    intros [= <-]. apply score_of_length_range. lia.
  - rewrite (analyze_readme_absent _ _ E). cbn [res]. intros [= <-]. lia.
Qed.

(** C3, as the code has it: for a repository with at least one commit
    whose extraction completes, [progress] is
    [readme_score * 0.5 + age_factor * 0.5], the age factor being computed
    from the age of the last commit as the estimate has it (1 when the
    listing or a conversion failed); it lies in [0, 100] when that age is
    not negative, which is the case whenever the tip commit, if it is
    listed and dated, is not dated after the clock reading.  With a README
    of 2000 words, [readme_score] is 100; when moreover the listing and
    the two conversions succeed and the tip commit is less than a day old,
    the age factor is 0 and [progress] 50; when the listing raises, the
    age stays 1 and [progress] is 51. *)
Theorem progress_is_midpoint (w : World) (p : Path) (r : Repo) :
  git_Repo w p = Ok r ->
  bare r = false ->
  head_is_valid r = Ok true ->
  res (open_and_gather w (init_attributes p)) = Ok tt ->
  let g := record_of w p in
  exists l : ages,
    res (commit_ages w g) = Ok l
    /\ (progress g
        == inject_Z (readme_score g) * 0.5
           + inject_Z (age_factor (days_since_last_commit l)) * 0.5)%Q
    /\ (0 <= days_since_last_commit l -> (0 <= progress g <= 100)%Q)
    /\ ((forall (tip : Commit) (rest : list Commit) (d : datetime),
            iter_commits r None = Ok (tip :: rest) ->
            datetime_fromtimestamp w (committed_date tip) = Ok d ->
            d <= datetime_now w) ->
        (0 <= progress g <= 100)%Q)
    /\ (forall content : str,
          lookup_path (fs w) (joinpath p "README.md") = Some (File (Ok content)) ->
          word_count content = 2000%nat ->
          readme_score g = 100
          /\ (forall (tip : Commit) (rest : list Commit) (d0 d : datetime),
                iter_commits r None = Ok (tip :: rest) ->
                datetime_fromtimestamp w (committed_date (List.last rest tip)) = Ok d0 ->
                datetime_fromtimestamp w (committed_date tip) = Ok d ->
                0 <= datetime_now w - d < 86400000000 ->
                days_since_last_commit l = 0
                /\ age_factor (days_since_last_commit l) = 0
                /\ (progress g == 50)%Q)
          /\ (forall e : exn,
                iter_commits r None = Raise e ->
                days_since_last_commit l = 1
                /\ age_factor (days_since_last_commit l) = 2
                /\ (progress g == 51)%Q)).
Proof.
  intros Hr Hb Hv Hok g. subst g. unfold record_of.
  rewrite (init_body_ok _ _ Hok).
  destruct (gather_valid_head w p r Hr Hb Hv Hok)
    as (b & d & t & dt & ba & score & l & _ & _ & _ & _ & _ & Hscore & Hl & ->).
  exists l. cbn [progress readme_score].
  assert (Hrepo : repo (set_repo (Some r) (init_attributes p)) = Some r)
    by reflexivity.
  assert (Hrange : 0 <= days_since_last_commit l ->
                   (0 <= inject_Z score * 0.5
                         + inject_Z (age_factor (days_since_last_commit l)) * 0.5
                    <= 100)%Q).
  { intros Hdays. apply midpoint_range.
    - apply (analyze_readme_range _ _ _ Hscore).
    - apply age_factor_range. exact Hdays. }
  split.
  { rewrite <- Hl. apply commit_ages_res_same_repo. reflexivity. }
  split; [reflexivity|].
  split; [exact Hrange|].
  split.
  - intros Hpast. apply Hrange.
    destruct (commit_ages_last w _ _ _ Hrepo Hl)
      as [-> | (tip & rest & d' & Hlist & Hd & ->)]; [lia|].
    apply timedelta_days_past. apply (Hpast tip rest d' Hlist Hd).
  - intros content Hfile Hwords.
    pose proof (analyze_readme_words w (init_attributes p) content Hfile) as E.
    rewrite E in Hscore. cbn [res] in Hscore. injection Hscore as <-.
    rewrite Hwords.
    split; [reflexivity|]. split.
    + intros tip rest d0 d' Hlist H0 Hd Htoday.
      pose proof (commit_ages_listed w _ _ _ _ _ _ Hrepo Hlist H0 Hd) as E'.
      rewrite Hl in E'. injection E' as ->. cbn [days_since_last_commit].
      rewrite (timedelta_days_today _ _ Htoday).
      split; [reflexivity|]. split; reflexivity.
    + intros e Hlist.
      pose proof (commit_ages_failed w _ _ _ Hrepo Hlist) as E'.
      rewrite Hl in E'. injection E' as ->. cbn [days_since_last_commit].
      split; [reflexivity|]. split; reflexivity.
Qed.

(** A README of 2000 words and a commit made an hour ago. *)
Lemma progress_is_midpoint_witness :
  exists l : ages,
    res (commit_ages world_today (record_of world_today ["proj"%string])) = Ok l
    /\ (progress (record_of world_today ["proj"%string])
        == inject_Z (readme_score (record_of world_today ["proj"%string])) * 0.5
           + inject_Z (age_factor (days_since_last_commit l)) * 0.5)%Q
    /\ readme_score (record_of world_today ["proj"%string]) = 100
    /\ age_factor (days_since_last_commit l) = 0
    /\ (progress (record_of world_today ["proj"%string]) == 50)%Q
    /\ (0 <= progress (record_of world_today ["proj"%string]) <= 100)%Q.
Proof.
  destruct (progress_is_midpoint world_today ["proj"%string] (repo_tracking [5000; 10]))
    as (l & Hl & Hmid & _ & Hrange & Hscenario).
  - vm_compute. reflexivity.
  - reflexivity.
  - reflexivity.
  - vm_compute. reflexivity.
  - exists l.
    destruct (Hscenario (readme_words 2000)) as (H100 & Htoday & _).
    + vm_compute. reflexivity.
    + vm_compute. reflexivity.
    + destruct (Htoday {| committed_date := 5000 |} [{| committed_date := 10 |}]
                       10000000 5000000000)
        as (_ & H0 & H50); [reflexivity | reflexivity | reflexivity | cbn; lia |].
      repeat (split; [assumption|]). apply Hrange.
      intros tip rest d Hlist Hd. cbn in Hlist. injection Hlist as <- _.
      cbn in Hd. injection Hd as <-. cbn. lia.
Defined.

(** C3 as stated fails: the only commit of [proj] is dated one second
    after the clock reading, so its age is -1 day and the age factor -2;
    without README the progress is -1. *)
Lemma progress_below_zero :
  let out := scan_projects world_future (GitScope__init__ []) in
  res out = Ok tt
  /\ exists g, projects (obj out) = [g]
               /\ path g = ["proj"%string]
               /\ status g !! "last_commit"%string = Some (PyDatetime 1001000000)
               /\ readme_score g = 0
               /\ (progress g == -1)%Q
               /\ ~ (0 <= progress g <= 100)%Q.
Proof.
  cbv zeta.
  destruct (scan_projects_outcome world_future (GitScope__init__ []))
    as [[_ E] | (pre & c & post & e & _ & _ & _ & E)].
  - rewrite E. cbn [res obj projects]. split; [reflexivity|].
    eexists. split; [vm_compute; reflexivity|].
    cbn [path readme_score progress status].
    split; [reflexivity|]. split; [vm_compute; reflexivity|].
    split; [reflexivity|]. split; [reflexivity|].
    intros [H _]. vm_compute in H. apply H. reflexivity.
  - exfalso. apply (f_equal res) in E. vm_compute in E. discriminate E.
Qed.

(** C4: the comparison with [origin/<branch>] never raises, whatever the
    repository answers.  For a repository with at least one commit whose
    extraction completes, the record stores what the comparison returns:
    when both iterations succeed, [commits_behind] is the number of commits
    of the range [<branch>..origin/<branch>] (reachable from the remote
    branch, not from the local one) and [commits_ahead] that of
    [origin/<branch>..<branch>]; when either fails, both are 0. *)
Theorem ahead_behind_best_effort (w : World) (p : Path) (r : Repo) :
  git_Repo w p = Ok r ->
  bare r = false ->
  head_is_valid r = Ok true ->
  res (open_and_gather w (init_attributes p)) = Ok tt ->
  let g := record_of w p in
  (forall self : GitProject,
      exists ba, res (ahead_behind self) = Ok ba
                 /\ obj (ahead_behind self) = self
                 /\ 0 <= fst ba /\ 0 <= snd ba)
  /\ exists (b : string) (commits_behind commits_ahead : Z),
       active_branch r = Ok b
       /\ res (ahead_behind g) = Ok (commits_behind, commits_ahead)
       /\ status g !! "commits_behind"%string = Some (PyInt commits_behind)
       /\ status g !! "commits_ahead"%string = Some (PyInt commits_ahead)
       /\ (commits_behind, commits_ahead)
          = match iter_commits r (Some (b +:+ "..origin/" +:+ b)%string),
                  iter_commits r (Some ("origin/" +:+ b +:+ ".." +:+ b)%string) with
            | Ok behind, Ok ahead =>
                (Z.of_nat (length behind), Z.of_nat (length ahead))
            | _, _ => (0, 0)
            end.
Proof.
  intros Hr Hb Hv Hok g. split.
  { intros self. destruct (ahead_behind_total self) as (ba & t & E & H1 & H2).
    exists ba. rewrite E. auto. }
  subst g. unfold record_of. rewrite (init_body_ok _ _ Hok).
  destruct (gather_valid_head w p r Hr Hb Hv Hok)
    as (b & d & t & dt & [behind ahead] & score & l
        & Hbranch & _ & _ & _ & Hab & _ & _ & ->).
  exists b, behind, ahead. cbn [status fst snd].
  split; [exact Hbranch|]. split.
  { match goal with
    | |- res (ahead_behind ?s) = _ =>
        destruct (ahead_behind_same_repo s (set_repo (Some r) (init_attributes p))
                                         eq_refl) as (ba & tab & E1 & E2)
    end.
    rewrite E2 in Hab. rewrite E1. exact Hab. }
  split; [rewrite lookup_insert_ne by discriminate; apply lookup_insert_eq|].
  split; [apply lookup_insert_eq|].
  pose proof (ahead_behind_value (set_repo (Some r) (init_attributes p)) r b
                                 eq_refl Hbranch) as Hval.
  rewrite Hab in Hval. injection Hval as Hval. exact Hval.
Qed.

(** With [origin/main] known the counts are 2 behind and 3 ahead;
    without a remote both are 0. *)
Lemma ahead_behind_best_effort_witness :
  (status (record_of world_today ["proj"%string]) !! "commits_behind"%string
   = Some (PyInt 2)
   /\ status (record_of world_today ["proj"%string]) !! "commits_ahead"%string
      = Some (PyInt 3))
  /\ (status (record_of world_future ["proj"%string]) !! "commits_behind"%string
      = Some (PyInt 0)
      /\ status (record_of world_future ["proj"%string]) !! "commits_ahead"%string
         = Some (PyInt 0)).
Proof.
  split.
  - destruct (ahead_behind_best_effort world_today ["proj"%string]
                                       (repo_tracking [5000; 10]))
      as (_ & b & behind & ahead & Hb & _ & H1 & H2 & Hval).
    + vm_compute. reflexivity.
    + reflexivity.
    + reflexivity.
    + vm_compute. reflexivity.
    + injection Hb as <-. vm_compute in Hval. injection Hval as -> ->.
      split; assumption.
  - destruct (ahead_behind_best_effort world_future ["proj"%string]
                                       (repo_local [1001]))
      as (_ & b & behind & ahead & Hb & _ & H1 & H2 & Hval).
    + vm_compute. reflexivity.
    + reflexivity.
    + reflexivity.
    + vm_compute. reflexivity.
    + injection Hb as <-. vm_compute in Hval. injection Hval as -> ->.
      split; assumption.
Defined.

(** C5: for a repository that is not bare and has no commit,
    [__init__] completes with the branch "-", a clean tree, no last commit,
    0 commits ahead and behind, README score 0 and progress 0; the only
    calls made are [Repo(p)] and [head.is_valid()]: the README is not
    looked at and no commit range is listed. *)
Theorem unborn_head_record (w : World) (p : Path) (r : Repo) :
  git_Repo w p = Ok r ->
  bare r = false ->
  head_is_valid r = Ok false ->
  let out := GitProject__init__ w p in
  res out = Ok tt
  /\ repo (obj out) = Some r
  /\ status (obj out) !! "active_branch"%string = Some (PyStr "-")
  /\ status (obj out) !! "is_dirty"%string = Some (PyBool false)
  /\ status (obj out) !! "last_commit"%string = Some PyNone
  /\ status (obj out) !! "commits_ahead"%string = Some (PyInt 0)
  /\ status (obj out) !! "commits_behind"%string = Some (PyInt 0)
  /\ readme_score (obj out) = 0
  /\ progress (obj out) = 0%Q
  /\ trace out = [EvRepo p; EvHeadIsValid].
Proof.
  intros Hr Hb Hv out. subst out. rewrite (init_unborn _ _ _ Hr Hb Hv).
  cbn [res obj trace repo status readme_score progress]. unfold unborn_status.
  repeat (split; [first [reflexivity | by simplify_map_eq]|]).
  reflexivity.
Qed.

(** A repository just initialised, next to a README that cannot be
    decoded: the README is never opened. *)
Lemma unborn_head_record_witness :
  let out := GitProject__init__ world_unborn ["fresh"%string] in
  res out = Ok tt
  /\ repo (obj out) = Some repo_unborn
  /\ status (obj out) !! "active_branch"%string = Some (PyStr "-")
  /\ status (obj out) !! "is_dirty"%string = Some (PyBool false)
  /\ status (obj out) !! "last_commit"%string = Some PyNone
  /\ status (obj out) !! "commits_ahead"%string = Some (PyInt 0)
  /\ status (obj out) !! "commits_behind"%string = Some (PyInt 0)
  /\ readme_score (obj out) = 0
  /\ progress (obj out) = 0%Q
  /\ trace out = [EvRepo ["fresh"%string]; EvHeadIsValid].
Proof.
  apply (unborn_head_record world_unborn ["fresh"%string] repo_unborn);
    reflexivity.
Defined.

(** No README at the root of [world_plain]: 0; thirty words in [proj]
    of [world_bare_and_normal]: 3; two thousand words in [proj] of
    [world_today]: 100. *)
Lemma analyze_readme_score_witness :
  res (analyze_readme world_plain (init_attributes [])) = Ok 0
  /\ length (split (readme_words 30)) = 30%nat
  /\ res (analyze_readme world_bare_and_normal (init_attributes ["proj"%string])) = Ok 3
  /\ res (analyze_readme world_today (init_attributes ["proj"%string])) = Ok 100
  /\ res (analyze_readme world_readmes (init_attributes ["bin"%string]))
     = Raise UnicodeDecodeError
  /\ res (analyze_readme world_readmes (init_attributes ["docs"%string]))
     = Raise IsADirectoryError.
Proof.
  destruct (analyze_readme_score world_plain (init_attributes []))
    as (Habsent & _).
  destruct (analyze_readme_score world_bare_and_normal (init_attributes ["proj"%string]))
    as (_ & Hpresent & _).
  destruct (analyze_readme_score world_today (init_attributes ["proj"%string]))
    as (_ & Hlong & _).
  destruct (analyze_readme_score world_readmes (init_attributes ["bin"%string]))
    as (_ & _ & Hraise & _).
  destruct (analyze_readme_score world_readmes (init_attributes ["docs"%string]))
    as (_ & _ & _ & Hdir & _).
  split; [apply Habsent; reflexivity|].
  destruct (Hpresent (readme_words 30)) as (Hsplit & Hscore & _); [reflexivity|].
  split; [rewrite Hsplit; vm_compute; reflexivity|].
  split; [rewrite Hscore; vm_compute; reflexivity|].
  destruct (Hlong (readme_words 2000)) as (_ & _ & H100 & _); [reflexivity|].
  split; [apply H100; apply Nat.leb_le; vm_compute; reflexivity|].
  split; [apply Hraise; reflexivity | apply (Hdir []); reflexivity].
Defined.

(** C6 as stated fails: a [README.md] exists at the root of [bin], and
    the root of [docs] has no file of that name but a directory, yet
    [analyze_readme] returns no score in either case, neither
    [min(100, words // 10)] nor 0: it raises, and with it the constructor
    of the record and the scan. *)
Lemma readme_without_score :
  exists_ world_readmes (joinpath ["bin"%string] "README.md") = true
  /\ (forall z : Z,
        res (analyze_readme world_readmes (init_attributes ["bin"%string])) <> Ok z)
  /\ res (GitProject__init__ world_readmes ["bin"%string]) = Raise UnicodeDecodeError
  /\ lookup_path (fs world_readmes) (joinpath ["docs"%string] "README.md") = Some (Dir [])
  /\ (forall z : Z,
        res (analyze_readme world_readmes (init_attributes ["docs"%string])) <> Ok z)
  /\ res (GitProject__init__ world_readmes ["docs"%string]) = Raise IsADirectoryError
  /\ res (scan_projects world_readmes (GitScope__init__ [])) = Raise UnicodeDecodeError.
Proof.
  split; [reflexivity|].
  split; [intros z H; vm_compute in H; discriminate H|].
  split; [vm_compute; reflexivity|].
  split; [reflexivity|].
  split; [intros z H; vm_compute in H; discriminate H|].
  split; [vm_compute; reflexivity|].
  vm_compute. reflexivity.
Qed.

(** The only commit of [proj] is three days old and its README has
    thirty words: 3 * 0.5 + 6 * 0.5.  In [world_today] the tip is an hour
    old.  A repository whose listing raises gets the age factor 2. *)
Lemma age_factor_of_last_commit_witness :
  res (calculate_progress world_bare_and_normal
         (record_of world_bare_and_normal ["proj"%string]))
  = Ok (inject_Z 3 * 0.5 + inject_Z 6 * 0.5)%Q
  /\ res (calculate_progress world_today (record_of world_today ["proj"%string]))
     = Ok (inject_Z 100 * 0.5 + inject_Z 0 * 0.5)%Q
  /\ res (calculate_progress world_unborn
            (set_repo (Some repo_unborn) (init_attributes ["fresh"%string])))
     = Ok (inject_Z 0 * 0.5 + inject_Z 2 * 0.5)%Q.
Proof.
  split; [|split].
  - destruct (age_factor_of_last_commit world_bare_and_normal
                (record_of world_bare_and_normal ["proj"%string])
                (repo_local [1000]))
      as (_ & Hlisted & _); [vm_compute; reflexivity|].
    destruct (Hlisted {| committed_date := 1000 |} [] 1000000000 1000000000)
      as (_ & Hp & _); [reflexivity ..|].
    rewrite Hp. vm_compute. reflexivity.
  - destruct (age_factor_of_last_commit world_today
                (record_of world_today ["proj"%string])
                (repo_tracking [5000; 10]))
      as (_ & Hlisted & _); [vm_compute; reflexivity|].
    destruct (Hlisted {| committed_date := 5000 |} [{| committed_date := 10 |}]
                      10000000 5000000000)
      as (_ & _ & Htoday & _); [reflexivity ..|].
    rewrite Htoday; [vm_compute; reflexivity | cbn; lia].
  - destruct (age_factor_of_last_commit world_unborn
                (set_repo (Some repo_unborn) (init_attributes ["fresh"%string]))
                repo_unborn)
      as (_ & _ & Hfailed & _); [reflexivity|].
    destruct (Hfailed ValueError) as [_ Hp]; [reflexivity|].
    exact Hp.
Defined.

(** C7 as stated fails: [proj] of [world_ancient] has two commits, the
    listing succeeds and the tip commit is 70 days old, which would make
    the age factor 100; but the date of the oldest commit does not
    convert, the block is left before the tip is looked at, the age of the
    last commit stays 1 and the age factor is 2: with no README the
    progress is 1 and not 50. *)
Lemma age_factor_not_from_tip :
  let g := record_of world_ancient ["proj"%string] in
  res (GitProject__init__ world_ancient ["proj"%string]) = Ok tt
  /\ repo g = Some (repo_local [1000; -99999999999999])
  /\ iter_commits (repo_local [1000; -99999999999999]) None
     = Ok (commits_at [1000; -99999999999999])
  /\ datetime_fromtimestamp world_ancient 1000 = Ok 1000000000
  /\ (datetime_now world_ancient - 1000000000) / 86400000000 = 70
  /\ res (commit_ages world_ancient g) = Ok (mkAges 1 1)
  /\ res (calculate_progress world_ancient g)
     = Ok (inject_Z 0 * 0.5 + inject_Z 2 * 0.5)%Q
  /\ readme_score g = 0
  /\ (progress g == 1)%Q
  /\ ~ (progress g == inject_Z 0 * 0.5 + inject_Z (Z.min 100 (70 * 2)) * 0.5)%Q.
Proof.
  cbv zeta.
  repeat (split; [vm_compute; reflexivity|]).
  intros H. vm_compute in H. discriminate H.
Qed.

(** C8: a scan starts by emptying the collection, so its outcome depends
    on the earlier contents of [projects] in no way: scanning again after a
    scan, in the same world (file system, repositories, clock reading),
    gives the same outcome, collection included, and so does scanning from
    any other prior collection. *)
Theorem scan_projects_idempotent (w : World) (s : GitScope) :
  let once := scan_projects w s in
  let twice := scan_projects w (obj once) in
  projects (obj twice) = projects (obj once)
  /\ twice = once
  /\ forall prior : list GitProject,
       scan_projects w (mkGitScope (base_dir s) prior) = once.
Proof.
  intros once twice. subst once twice.
  assert (E : scan_projects w (obj (scan_projects w s)) = scan_projects w s)
    by (apply scan_projects_same_base, scan_projects_base_dir).
  split; [rewrite E; reflexivity|]. split; [exact E|].
  intros prior. apply scan_projects_same_base. reflexivity.
Qed.

Lemma candidates_nil (w : World) (base : Path) :
  (forall c, ~ In c (candidates w base)) -> candidates w base = [].
Proof.
  destruct (candidates w base) as [|c cs]; [reflexivity|].
  intros H. exfalso. apply (H c). left. reflexivity.
Qed.

(** C9: when the base path does not exist, or no path under it leads to
    an entry called [.git], the scan ends normally with an empty
    collection, and opens no repository. *)
Theorem scan_without_markers (w : World) (s : GitScope) :
  lookup_path (fs w) (base_dir s) = None
  \/ (exists root, lookup_path (fs w) (base_dir s) = Some root
                   /\ forall rel m, ~ at_path root (rel ++ [".git"%string]) m) ->
  scan_projects w s = mkOutcome (Ok tt) (mkGitScope (base_dir s) []) [].
Proof.
  intros H. rewrite scan_projects_unfold.
  rewrite candidates_nil; [reflexivity|].
  intros c Hin. apply candidates_spec in Hin.
  destruct Hin as (root & rel & m & Hroot & Hm & _).
  destruct H as [Hnone | (root' & Hroot' & Hno)].
  - rewrite Hnone in Hroot. discriminate.
  - rewrite Hroot' in Hroot. injection Hroot as ->. exact (Hno rel m Hm).
Qed.

Lemma no_marker_in_world_plain (rel : Path) (m : Node) :
  ~ at_path (fs world_plain) (rel ++ [".git"%string]) m.
Proof.
  intros H.
  assert (Hin : In ([] ++ rel ++ [".git"%string]) (rglob world_plain [] ".git")).
  { apply rglob_spec. exists (fs world_plain), rel, m. auto. }
  vm_compute in Hin. exact Hin.
Qed.

(** A base that does not exist, and a tree without any [.git]. *)
Lemma scan_without_markers_witness :
  scan_projects world_plain (GitScope__init__ ["nowhere"%string])
  = mkOutcome (Ok tt) (mkGitScope ["nowhere"%string] []) []
  /\ scan_projects world_plain (GitScope__init__ [])
     = mkOutcome (Ok tt) (mkGitScope [] []) [].
Proof.
  split.
  - apply (scan_without_markers world_plain (GitScope__init__ ["nowhere"%string])).
    left. reflexivity.
  - apply (scan_without_markers world_plain (GitScope__init__ [])).
    right. exists (fs world_plain). split; [reflexivity|].
    exact no_marker_in_world_plain.
Defined.

(** C10, as the code has it: the marker is matched by name alone.  The
    candidates are exactly the parents of the entries called [.git] under
    the base directory, whether the entry is a directory or a plain file.
    They are handed to [Repo] in the order of the enumeration, once each,
    until the constructor raises for one of them: when the scan returns
    normally [Repo] has been called on every candidate, and when it raises
    [Repo] has been called on the candidates up to the one whose
    constructor raised, and on none after it. *)
Theorem marker_is_matched_by_name (w : World) (s : GitScope) (root : Node) :
  lookup_path (fs w) (base_dir s) = Some root ->
  (forall c : Path,
      In c (candidates w (base_dir s))
      <-> exists rel m, at_path root (rel ++ [".git"%string]) m
                        /\ c = base_dir s ++ rel)
  /\ (forall (rel : Path) (content : result str),
        at_path root (rel ++ [".git"%string]) (File content) ->
        In (base_dir s ++ rel) (candidates w (base_dir s)))
  /\ (forall (rel : Path) (entries : list (string * Node)),
        at_path root (rel ++ [".git"%string]) (Dir entries) ->
        In (base_dir s ++ rel) (candidates w (base_dir s)))
  /\ (res (scan_projects w s) = Ok tt ->
      forall c, In c (candidates w (base_dir s)) ->
                In (EvRepo c) (trace (scan_projects w s)))
  /\ (res (scan_projects w s) = Ok tt ->
      opens (trace (scan_projects w s)) = candidates w (base_dir s))
  /\ (forall e : exn,
        res (scan_projects w s) = Raise e ->
        exists (pre : list Path) (c : Path) (post : list Path),
          candidates w (base_dir s) = pre ++ c :: post
          /\ Forall (completes w) pre
          /\ res (GitProject__init__ w c) = Raise e
          /\ e <> InvalidGitRepositoryError
          /\ opens (trace (scan_projects w s)) = pre ++ [c]).
Proof.
  intros Hroot.
  assert (Hspec : forall c : Path,
             In c (candidates w (base_dir s))
             <-> exists rel m, at_path root (rel ++ [".git"%string]) m
                               /\ c = base_dir s ++ rel).
  { intros c. rewrite candidates_spec. split.
    - intros (root' & rel & m & Hroot' & Hm & ->).
      rewrite Hroot in Hroot'. injection Hroot' as <-. eauto.
    - intros (rel & m & Hm & ->). exists root, rel, m. auto. }
  split; [exact Hspec|].
  split; [intros rel content Hm; apply Hspec; eauto|].
  split; [intros rel entries Hm; apply Hspec; eauto|].
  split; [|split].
  - intros Hok c Hin.
    destruct (scan_projects_outcome w s)
      as [[_ E] | (pre & c0 & post & e0 & _ & _ & _ & E)]; rewrite E in *.
    + cbn [trace]. apply in_traces. exact Hin.
    + discriminate Hok.
  - intros Hok.
    destruct (scan_projects_outcome w s)
      as [[_ E] | (pre & c0 & post & e0 & _ & _ & _ & E)]; rewrite E in *.
    + cbn [trace]. apply opens_traces.
    + discriminate Hok.
  - intros e He.
    destruct (scan_projects_outcome w s)
      as [[_ E] | (pre & c0 & post & e0 & Ecs & Hpre & He0 & E)]; rewrite E in *.
    + discriminate He.
    + cbn [res] in He. injection He as <-.
      exists pre, c0, post. split; [exact Ecs|]. split; [exact Hpre|].
      split; [exact He0|].
      split; [intros ->; exact (init_never_raises_invalid w c0 He0)|].
      cbn [trace]. rewrite opens_app, opens_traces.
      destruct (init_outcome w c0) as (_ & -> & _). reflexivity.
Qed.

(** [wt/.git] is a file, [main/.git] a directory: both parents are
    candidates, and [Repo] is called on both, in that order.  In
    [world_detached] the scan raises at [pinned], the first candidate. *)
Lemma marker_is_matched_by_name_witness :
  In ["src"%string; "wt"%string] (candidates world_worktree ["src"%string])
  /\ In ["src"%string; "main"%string] (candidates world_worktree ["src"%string])
  /\ In (EvRepo ["src"%string; "wt"%string])
        (trace (scan_projects world_worktree (GitScope__init__ ["src"%string])))
  /\ opens (trace (scan_projects world_worktree (GitScope__init__ ["src"%string])))
     = [["src"%string; "wt"%string]; ["src"%string; "main"%string]]
  /\ exists (pre : list Path) (c : Path) (post : list Path),
       candidates world_detached [] = pre ++ c :: post
       /\ opens (trace (scan_projects world_detached (GitScope__init__ [])))
          = pre ++ [c].
Proof.
  destruct (marker_is_matched_by_name world_worktree (GitScope__init__ ["src"%string])
              (Dir [("wt"%string,
                     Dir [(".git"%string,
                           File (Ok (str_of_string "gitdir: ../../main/.git/worktrees/wt")))]);
                    ("main"%string, Dir [git_dir])]))
    as (_ & Hfile & Hdir & Hcalled & Hopens & _).
  - reflexivity.
  - assert (Hwt : In ["src"%string; "wt"%string]
                     (candidates world_worktree ["src"%string])).
    { apply (Hfile ["wt"%string]
                   (Ok (str_of_string "gitdir: ../../main/.git/worktrees/wt"))).
      cbn [app]. econstructor; [left; reflexivity|].
      econstructor; [left; reflexivity|]. constructor. }
    split; [exact Hwt|]. split.
    + apply (Hdir ["main"%string] [("HEAD"%string, File (Ok []))]).
      cbn [app]. econstructor; [right; left; reflexivity|].
      econstructor; [left; reflexivity|]. constructor.
    + split; [apply Hcalled; [vm_compute; reflexivity | exact Hwt]|].
      split; [rewrite Hopens; vm_compute; reflexivity|].
      destruct (marker_is_matched_by_name world_detached (GitScope__init__ [])
                  (fs world_detached))
        as (_ & _ & _ & _ & _ & Hraised); [reflexivity|].
      destruct (Hraised TypeError) as (pre & c & post & Ecs & _ & _ & _ & Eopens);
        [vm_compute; reflexivity|].
      exists pre, c, post. split; assumption.
Defined.

(** C10 as stated fails: [proj/.git] is an entry named [.git] under the
    base directory of [world_detached], and [proj] is a candidate root, but
    it is never submitted: the scan raises at the candidate before it and
    [Repo] is not called on [proj]. *)
Lemma marker_never_submitted :
  at_path (fs world_detached) (["proj"%string] ++ [".git"%string]) (snd git_dir)
  /\ In ["proj"%string] (candidates world_detached [])
  /\ res (scan_projects world_detached (GitScope__init__ [])) = Raise TypeError
  /\ opens (trace (scan_projects world_detached (GitScope__init__ [])))
     = [["pinned"%string]]
  /\ ~ In (EvRepo ["proj"%string])
          (trace (scan_projects world_detached (GitScope__init__ []))).
Proof.
  split.
  { cbn [app]. econstructor; [right; left; reflexivity|].
    econstructor; [left; reflexivity|]. constructor. }
  split; [vm_compute; auto|].
  split; [vm_compute; reflexivity|].
  split; [vm_compute; reflexivity|].
  intros H. vm_compute in H.
  repeat (destruct H as [H | H]; [discriminate H|]). exact H.
Qed.

(** * Further properties of the code *)

(** ** Every outcome of the constructor *)

(** X1: whatever the repository answers and however the constructor
    ends, the object it leaves has the path it was given, the last segment
    of that path as its name, and a [repo] attribute that is set exactly
    when [Repo(path)] returned, to the very object returned: extraction
    never renames a record nor drops or swaps its repository. *)
Theorem record_identity (w : World) (p : Path) :
  path (record_of w p) = p
  /\ name (record_of w p) = name_of p
  /\ repo (record_of w p)
     = match git_Repo w p with Ok r => Some r | Raise _ => None end
  /\ truthy (repo (record_of w p)) = is_ok (git_Repo w p).
Proof.
  unfold record_of. destruct (init_outcome w p) as (-> & _ & _).
  destruct (body_outcome w p) as (Hpath & Hname & Hrepo & _).
  repeat (split; [assumption|]).
  rewrite Hrepo. destruct (git_Repo w p); reflexivity.
Qed.

(** X2: every object the constructor leaves, complete or not, has a
    README score within 0..100, a progress of at most 100, and in its
    status only the five known keys, each with a value of its type: a
    string for the branch, a boolean for the dirty flag, a date or [None]
    for the last commit, integers that are not negative for the two
    counts. *)
Theorem record_values_bounded (w : World) (p : Path) :
  0 <= readme_score (record_of w p) <= 100
  /\ (progress (record_of w p) <= 100)%Q
  /\ status_ok (status (record_of w p))
  /\ dom (status (record_of w p))
     ⊆ ({["active_branch"; "is_dirty"; "last_commit";
          "commits_behind"; "commits_ahead"]} : gset string)%string.
Proof.
  unfold record_of. destruct (init_outcome w p) as (-> & _ & _).
  destruct (body_outcome w p) as (_ & _ & _ & Hscore & Hprogress & Hstatus & _).
  repeat (split; [assumption|]).
  intros key Hkey. apply elem_of_dom in Hkey. destruct Hkey as [v Hv].
  specialize (Hstatus key v Hv). cbn beta in Hstatus. unfold entry_ok in Hstatus.
  repeat match type of Hstatus with
         | (if String.eqb ?a ?b then _ else _) = true =>
             destruct (String.eqb_spec a b) as [->|_]; [set_solver|]
         | (if String.eqb ?a ?b || String.eqb ?c ?d then _ else _) = true =>
             destruct (String.eqb_spec a b) as [->|_]; [set_solver|];
             destruct (String.eqb_spec c d) as [->|_]; [set_solver|]
         end.
  discriminate Hstatus.
Qed.

(** X3: how the constructor ends is decided by [Repo(path)], the bare
    flag, [head.is_valid()], the active branch, the dirty flag, the date of
    the HEAD commit, its conversion and the reading of README.md, in that
    order: the first of these that raises decides the exception, which
    leaves the constructor unless it is [InvalidGitRepositoryError].  What
    [iter_commits] answers never matters, and [Repo] is called exactly
    once, on the given path. *)
Theorem constructor_decided_by_extraction (w : World) (p : Path) :
  res (GitProject__init__ w p)
  = match extraction w p with
    | Ok _ => Ok tt
    | Raise e => if is_InvalidGitRepositoryError e then Ok tt else Raise e
    end
  /\ res (open_and_gather w (init_attributes p)) = extraction w p
  /\ opens (trace (GitProject__init__ w p)) = [p].
Proof.
  destruct (init_outcome w p) as (_ & Hopens & Hres).
  destruct (body_outcome w p) as (_ & _ & _ & _ & _ & _ & _ & Hbody).
  auto.
Qed.

Lemma body_ok_dom (w : World) (p : Path) :
  res (open_and_gather w (init_attributes p)) = Ok tt ->
  dom (status (record_of w p))
  = ({["active_branch"; "is_dirty"; "last_commit";
       "commits_behind"; "commits_ahead"]} : gset string)%string.
Proof.
  intros Hok. unfold record_of. rewrite (init_body_ok _ _ Hok).
  destruct (body_ok_repo w p Hok) as (r & Hr & Hb & _).
  destruct (head_is_valid r) as [[]|e] eqn:Hv.
  - destruct (gather_valid_head w p r Hr Hb Hv Hok)
      as (b & d & t & dt & ba & score & l & _ & _ & _ & _ & _ & _ & _ & ->).
    cbn [status]. rewrite !dom_insert_L, dom_empty_L. set_solver.
  - rewrite (body_unborn _ _ _ Hr Hb Hv). cbn [obj status].
    unfold unborn_status. rewrite !dom_insert_L, dom_empty_L. set_solver.
  - rewrite (body_head_unknown _ _ _ _ Hr Hb Hv) in Hok. discriminate.
Qed.

(** X4: when the body of the [try] completes, for a repository with or
    without commits, the status holds exactly the five keys the dashboard
    reads; a bare repository, whose record is kept as well, has none. *)
Theorem completed_record_has_five_keys (w : World) (p : Path) :
  (res (open_and_gather w (init_attributes p)) = Ok tt ->
   dom (status (record_of w p))
   = ({["active_branch"; "is_dirty"; "last_commit";
        "commits_behind"; "commits_ahead"]} : gset string)%string)
  /\ (forall r, git_Repo w p = Ok r -> bare r = true ->
        res (GitProject__init__ w p) = Ok tt
        /\ truthy (repo (record_of w p)) = true
        /\ status (record_of w p) = ∅).
Proof.
  split.
  - apply body_ok_dom.
  - intros r Hr Hb. unfold record_of. rewrite (init_bare _ _ _ Hr Hb).
    repeat split.
Qed.

Lemma completed_record_has_five_keys_witness :
  dom (status (record_of world_today ["proj"%string]))
  = ({["active_branch"; "is_dirty"; "last_commit";
       "commits_behind"; "commits_ahead"]} : gset string)%string
  /\ status (record_of world_bare_and_normal ["mirror"%string]) = ∅.
Proof.
  split.
  - apply (proj1 (completed_record_has_five_keys world_today ["proj"%string])).
    vm_compute. reflexivity.
  - apply (proj2 (completed_record_has_five_keys world_bare_and_normal
                                                 ["mirror"%string]) repo_bare);
      reflexivity.
Defined.

(** ** Every outcome of a scan *)

Lemma path_kept (w : World) (cs : list Path) :
  map path (kept w cs) = List.filter (fun c => is_ok (git_Repo w c)) cs.
Proof.
  unfold kept. induction cs as [|c cs IH]; [reflexivity|].
  assert (H : path (record_of w c) = c
              /\ truthy (repo (record_of w c)) = is_ok (git_Repo w c)).
  { unfold record_of. destruct (init_outcome w c) as (-> & _ & _).
    destruct (body_outcome w c) as (Hpath & _ & -> & _).
    split; [exact Hpath | destruct (git_Repo w c); reflexivity]. }
  destruct H as [Hpath Htruthy].
  cbn [map List.filter]. rewrite Htruthy.
  destruct (is_ok (git_Repo w c)); cbn [map]; rewrite IH; [rewrite Hpath|];
    reflexivity.
Qed.

(** X5: a scan returns normally exactly when the constructor returns for
    every candidate, that is when no candidate's extraction raises anything
    but [InvalidGitRepositoryError]. *)
Theorem scan_completes_iff (w : World) (s : GitScope) :
  res (scan_projects w s) = Ok tt
  <-> Forall (fun c => forall e, extraction w c = Raise e ->
                                 e = InvalidGitRepositoryError)
             (candidates w (base_dir s)).
Proof.
  assert (Hiff : forall c, completes w c
                           <-> forall e, extraction w c = Raise e ->
                                         e = InvalidGitRepositoryError).
  { intros c. unfold completes.
    destruct (init_outcome w c) as (_ & _ & ->).
    destruct (extraction w c) as [[]|e0].
    - split; [discriminate | reflexivity].
    - unfold is_InvalidGitRepositoryError. case_bool_decide as E.
      + split; [intros _ e [= <-]; exact E | reflexivity].
      + split; [discriminate|]. intros H. exfalso. apply E, H. reflexivity. }
  destruct (scan_projects_outcome w s)
    as [[Hall E] | (pre & c0 & post & e0 & Hcs & _ & He0 & E)]; rewrite E;
    cbn [res].
  - split; [intros _ | reflexivity].
    eapply Forall_impl; [exact Hall|]. intros c Hc. apply Hiff. exact Hc.
  - split; [discriminate|]. intros Hall. exfalso.
    rewrite List.Forall_forall in Hall.
    assert (Hc0 : completes w c0).
    { apply Hiff, Hall. rewrite Hcs. apply in_or_app. right. left. reflexivity. }
    unfold completes in Hc0. rewrite He0 in Hc0. discriminate Hc0.
Qed.

(** X6: after a scan that returned normally, the records are, in the
    order of the traversal, those of the candidates on which [Repo]
    returned a repository, bare or not, with or without commits; and [Repo]
    has been called once on every candidate, in that order. *)
Theorem completed_scan_keeps_opened (w : World) (s : GitScope) :
  res (scan_projects w s) = Ok tt ->
  map path (projects (obj (scan_projects w s)))
  = List.filter (fun c => is_ok (git_Repo w c)) (candidates w (base_dir s))
  /\ projects (obj (scan_projects w s)) = kept w (candidates w (base_dir s))
  /\ opens (trace (scan_projects w s)) = candidates w (base_dir s).
Proof.
  intros Hok.
  destruct (scan_projects_outcome w s)
    as [[_ E] | (pre & c0 & post & e0 & _ & _ & _ & E)]; rewrite E in *;
    [|discriminate Hok].
  cbn [obj projects trace]. rewrite path_kept, opens_traces. auto.
Qed.

Lemma completed_scan_keeps_opened_witness :
  map path (projects (obj (scan_projects world_bare_and_normal (GitScope__init__ []))))
  = [["proj"%string]; ["mirror"%string]]
  /\ opens (trace (scan_projects world_bare_and_normal (GitScope__init__ [])))
     = [["proj"%string]; ["mirror"%string]].
Proof.
  destruct (completed_scan_keeps_opened world_bare_and_normal (GitScope__init__ []))
    as (Hpaths & _ & Hopens).
  - vm_compute. reflexivity.
  - split; [rewrite Hpaths | rewrite Hopens]; vm_compute; reflexivity.
Defined.

(** X7: when a scan raises, the exception is the one the constructor
    raised for the first candidate it could not build, and never
    [InvalidGitRepositoryError]; [projects] then holds the records kept
    from the candidates before that one (not the earlier results, which
    were cleared), and [Repo] has been called on those candidates and on
    the failing one, and on no candidate after it. *)
Theorem aborted_scan_state (w : World) (s : GitScope) (e : exn) :
  res (scan_projects w s) = Raise e ->
  exists pre c post,
    candidates w (base_dir s) = pre ++ c :: post
    /\ Forall (completes w) pre
    /\ res (GitProject__init__ w c) = Raise e
    /\ e <> InvalidGitRepositoryError
    /\ projects (obj (scan_projects w s)) = kept w pre
    /\ map path (projects (obj (scan_projects w s)))
       = List.filter (fun c => is_ok (git_Repo w c)) pre
    /\ opens (trace (scan_projects w s)) = pre ++ [c].
Proof.
  intros Hraise.
  destruct (scan_projects_outcome w s)
    as [[_ E] | (pre & c0 & post & e0 & Hcs & Hpre & He0 & E)]; rewrite E in *;
    cbn [res obj projects trace] in *; [discriminate Hraise|].
  injection Hraise as ->.
  exists pre, c0, post. repeat (split; [assumption|]).
  split; [apply init_raises_iff in He0; apply He0|].
  split; [reflexivity|]. split; [apply path_kept|].
  rewrite opens_app, opens_traces.
  destruct (init_outcome w c0) as (_ & -> & _). reflexivity.
Qed.

Lemma aborted_scan_state_witness :
  exists pre c post,
    candidates world_detached [] = pre ++ c :: post
    /\ res (GitProject__init__ world_detached c) = Raise TypeError
    /\ projects (obj (scan_projects world_detached (GitScope__init__ []))) = kept world_detached pre
    /\ opens (trace (scan_projects world_detached (GitScope__init__ []))) = pre ++ [c].
Proof.
  destruct (aborted_scan_state world_detached (GitScope__init__ []) TypeError)
    as (pre & c & post & Hcs & _ & Hc & _ & Hkept & _ & Hopens).
  - vm_compute. reflexivity.
  - exists pre, c, post. auto.
Defined.

(** ** Words and spacing *)

Lemma is_word_spec (s : str) :
  is_word s = true -> s <> [] /\ Forall (fun c => isspace c = false) s.
Proof.
  destruct s as [|c s]; [discriminate|]. intros H. split; [discriminate|].
  unfold is_word in H.
  pose proof (proj1 (List.forallb_forall _ _) H) as Hall.
  apply List.Forall_forall. intros x Hx. specialize (Hall x Hx).
  cbn beta in Hall.
  destruct (isspace x); [discriminate Hall | reflexivity].
Qed.

Lemma split_blank (g s : str) : is_blank g = true -> split (g ++ s) = split s.
Proof.
  induction g as [|c g IH]; [reflexivity|].
  cbn [is_blank forallb]. intros H. apply andb_prop in H. destruct H as [Hc Hg].
  unfold split. cbn [app split_from]. rewrite Hc. apply IH. exact Hg.
Qed.

Lemma split_word_gap (word gap s : str) :
  is_word word = true -> is_blank gap = true -> gap <> [] ->
  split (word ++ gap ++ s) = word :: split s.
Proof.
  intros Hw Hg Hne. destruct gap as [|c gap]; [contradiction|].
  cbn [is_blank forallb] in Hg. apply andb_prop in Hg. destruct Hg as [Hc Hg].
  destruct (is_word_spec _ Hw) as [Hnil Hall].
  cbn [app]. rewrite split_cons_word by assumption.
  rewrite split_blank by exact Hg. reflexivity.
Qed.

Lemma split_last_word (word gap : str) :
  is_word word = true -> is_blank gap = true -> split (word ++ gap) = [word].
Proof.
  intros Hw Hg. destruct gap as [|c gap].
  - destruct (is_word_spec _ Hw) as [Hnil Hall]. rewrite app_nil_r.
    unfold split. rewrite split_from_no_space by exact Hall. cbn [rev app].
    destruct word; [contradiction | reflexivity].
  - rewrite <- (app_nil_r (c :: gap)).
    rewrite split_word_gap by (assumption || discriminate). reflexivity.
Qed.

Lemma split_layout (l : list (str * str)) :
  spaced l = true -> split (layout l) = map fst l.
Proof.
  induction l as [|[word gap] l IH]; [reflexivity|].
  cbn [spaced layout map fst]. intros H.
  apply andb_prop in H. destruct H as [H Hl].
  apply andb_prop in H. destruct H as [H Hsep].
  apply andb_prop in H. destruct H as [Hw Hg].
  destruct l as [|next l].
  - cbn [layout]. rewrite app_nil_r. apply split_last_word; assumption.
  - destruct gap as [|c gap]; [discriminate Hsep|].
    rewrite split_word_gap by (assumption || discriminate).
    rewrite IH by exact Hl. reflexivity.
Qed.

(** X8: the README score counts words and nothing else: for a text made
    of any leading white space and then words, each followed by a gap of
    white space (spaces, tabs, line ends, no-break spaces ...; the last gap
    may be empty), [split] gives back exactly the words, and the score is
    [min(100, n // 10)] for [n] words, however the words are spaced. *)
Theorem readme_score_ignores_spacing (w : World) (self : GitProject)
        (lead : str) (l : list (str * str)) :
  is_blank lead = true ->
  spaced l = true ->
  lookup_path (fs w) (joinpath (path self) "README.md")
  = Some (File (Ok (lead ++ layout l))) ->
  split (lead ++ layout l) = map fst l
  /\ res (analyze_readme w self)
     = Ok (Z.min 100 (Z.of_nat (length l) / 10)).
Proof.
  intros Hlead Hl Hfile.
  assert (Hsplit : split (lead ++ layout l) = map fst l)
    by (rewrite split_blank by exact Hlead; apply split_layout; exact Hl).
  split; [exact Hsplit|].
  rewrite (analyze_readme_present _ _ _ Hfile). unfold read_text.
  rewrite Hfile. cbn [res]. rewrite Hsplit, length_map. reflexivity.
Qed.

Lemma readme_score_ignores_spacing_witness :
  res (analyze_readme world_spaced (init_attributes []))
  = Ok (Z.min 100 (Z.of_nat 3 / 10)).
Proof.
  apply (readme_score_ignores_spacing world_spaced (init_attributes [])
           [10; 9]%N
           [(str_of_string "GitScope", [32; 32]%N);
            (str_of_string "scans", [160; 10]%N);
            (str_of_string "repositories.", [13; 10]%N)]).
  - reflexivity.
  - reflexivity.
  - reflexivity.
Defined.

(** ** When the age of the tip is not computed *)

(** X9: the estimate falls back to an age of one day, hence to
    [readme_score * 0.5 + 1], whenever the age of the tip cannot be
    computed: when the listing is empty, when the date of the oldest commit
    cannot be converted (the tip is then never looked at, whatever its
    date), and when the date of the tip itself cannot be converted. *)
Theorem tip_age_falls_back (w : World) (self : GitProject) (r : Repo) :
  repo self = Some r ->
  let fallback :=
    Ok (inject_Z (readme_score self) * 0.5 + inject_Z 2 * 0.5)%Q in
  (iter_commits r None = Ok [] -> res (calculate_progress w self) = fallback)
  /\ (forall tip rest e,
        iter_commits r None = Ok (tip :: rest) ->
        datetime_fromtimestamp w (committed_date (List.last rest tip)) = Raise e ->
        res (calculate_progress w self) = fallback)
  /\ (forall tip rest d0 e,
        iter_commits r None = Ok (tip :: rest) ->
        datetime_fromtimestamp w (committed_date (List.last rest tip)) = Ok d0 ->
        datetime_fromtimestamp w (committed_date tip) = Raise e ->
        res (calculate_progress w self) = fallback).
Proof.
  intros Hr fallback. subst fallback.
  split; [|split].
  - intros Hlist. apply (calculate_progress_of_ages w self (mkAges 1 1)).
    unfold commit_ages, list_commits. run. rewrite Hr. run. rewrite Hlist. run.
    reflexivity.
  - intros tip rest e Hlist He.
    apply (calculate_progress_of_ages w self (mkAges 1 1)).
    unfold commit_ages, list_commits. run. rewrite Hr. run. rewrite Hlist.
    replace (List.last (tip :: rest) tip) with (List.last rest tip)
      by (destruct rest; reflexivity).
    run. rewrite He. run. reflexivity.
  - intros tip rest d0 e Hlist H0 He.
    apply (calculate_progress_of_ages w self
             (mkAges (Z.max (timedelta_days (datetime_now w) d0) 1) 1)).
    unfold commit_ages, list_commits. run. rewrite Hr. run. rewrite Hlist.
    replace (List.last (tip :: rest) tip) with (List.last rest tip)
      by (destruct rest; reflexivity).
    run. rewrite H0. run. rewrite He. run. reflexivity.
Qed.

Lemma tip_age_falls_back_witness :
  res (calculate_progress world_ancient
         (set_repo (Some (repo_local [1000; -99999999999999]))
                   (init_attributes ["proj"%string])))
  = Ok (inject_Z 0 * 0.5 + inject_Z 2 * 0.5)%Q.
Proof.
  destruct (tip_age_falls_back world_ancient
              (set_repo (Some (repo_local [1000; -99999999999999]))
                        (init_attributes ["proj"%string]))
              (repo_local [1000; -99999999999999]))
    as (_ & Holdest & _).
  - reflexivity.
  - apply (Holdest {| committed_date := 1000 |}
                   [{| committed_date := -99999999999999 |}] OverflowError);
      reflexivity.
Defined.

(** ** No directory is visited twice *)

Lemma distinct_names_dir (es : list (string * Node)) :
  distinct_names (Dir es) = true ->
  List.NoDup (map fst es) /\ Forall (fun kc => distinct_names (snd kc) = true) es.
Proof.
  cbn [distinct_names]. intros H. apply andb_prop in H. destruct H as [Hnd Hall].
  split; [apply bool_decide_eq_true, NoDup_ListNoDup in Hnd; exact Hnd|].
  clear Hnd.
  induction es as [|[k c] es IH]; [constructor|].
  apply andb_prop in Hall. destruct Hall as [Hc Hes].
  constructor; [exact Hc | apply IH; exact Hes].
Qed.

Lemma distinct_names_lookup (n m : Node) (p : Path) :
  distinct_names n = true -> lookup_path n p = Some m -> distinct_names m = true.
Proof.
  revert n. induction p as [|k p IH]; intros n Hn Hm.
  - injection Hm as <-. exact Hn.
  - destruct n as [content|es]; [discriminate Hm|].
    cbn [lookup_path] in Hm.
    destruct (entry k es) as [c|] eqn:E; [|discriminate Hm].
    apply (IH c); [|exact Hm].
    destruct (distinct_names_dir es Hn) as [_ Hall].
    rewrite List.Forall_forall in Hall.
    apply (Hall (k, c)). apply entry_some. exact E.
Qed.

Lemma dirs_prefix (n : Node) (p d : Path) :
  In d (map fst (iterate_directories p n)) -> exists rel, d = p ++ rel.
Proof.
  intros H. apply in_map_iff in H. destruct H as ([d' es] & <- & Hin).
  apply iterate_directories_spec in Hin. destruct Hin as (rel & -> & _).
  exists rel. reflexivity.
Qed.

Lemma dirs_distinct (n : Node) (p : Path) :
  distinct_names n = true -> List.NoDup (map fst (iterate_directories p n)).
Proof.
  revert p. induction n as [content|es IH] using Node_ind; intros p Hwf.
  - constructor.
  - rewrite iterate_directories_dir. cbn [map fst].
    destruct (distinct_names_dir es Hwf) as [Hnames Hall]. clear Hwf.
    constructor.
    + intros Hin. apply in_map_iff in Hin. destruct Hin as ([d es'] & Hd & Hin).
      cbn [fst] in Hd. subst d. apply in_flat_map in Hin.
      destruct Hin as ([k c] & _ & Hin). cbn [fst snd] in Hin.
      apply (in_map fst) in Hin. apply dirs_prefix in Hin.
      destruct Hin as (rel & Hrel). cbn [fst] in Hrel. unfold joinpath in Hrel.
      apply (f_equal (@length string)) in Hrel.
      rewrite !length_app in Hrel. cbn [length] in Hrel. lia.
    + induction es as [|[k c] es IHes]; [constructor|].
      cbn [flat_map fst snd]. rewrite map_app.
      inversion IH as [|? ? IHc IHrest]; subst.
      inversion Hall as [|? ? Hc Hrest]; subst.
      cbn [map fst] in Hnames. apply List.NoDup_cons_iff in Hnames.
      destruct Hnames as [Hk Hnames].
      apply List.NoDup_app.
      * apply IHc. exact Hc.
      * apply IHes; assumption.
      * intros d Hd1 Hd2. apply dirs_prefix in Hd1. destruct Hd1 as (rel1 & ->).
        apply in_map_iff in Hd2. destruct Hd2 as ([d es'] & Hd & Hin).
        cbn [fst] in Hd. subst d. apply in_flat_map in Hin.
        destruct Hin as ([k' c'] & Hin' & Hin). cbn [fst snd] in Hin.
        apply (in_map fst) in Hin. apply dirs_prefix in Hin.
        destruct Hin as (rel2 & Hrel). cbn [fst] in Hrel.
        unfold joinpath in Hrel. rewrite <- !app_assoc in Hrel.
        apply app_inv_head in Hrel. cbn [app] in Hrel. injection Hrel as <- _.
        apply Hk. apply (in_map fst) in Hin'. exact Hin'.
Qed.

Lemma candidates_of_dirs (name : string) (l : list (Path * list (string * Node))) :
  List.NoDup (map fst l) ->
  List.NoDup (map parent (flat_map (select_precise name) l))
  /\ forall c, In c (map parent (flat_map (select_precise name) l)) ->
               In c (map fst l).
Proof.
  induction l as [|[d es] l IH]; intros Hnd.
  - split; [constructor | intros c []].
  - cbn [map fst] in Hnd. apply List.NoDup_cons_iff in Hnd.
    destruct Hnd as [Hd Hnd]. destruct (IH Hnd) as [IH1 IH2].
    cbn [flat_map]. unfold select_precise at 1 3. cbn [fst snd].
    destruct (entry name es); cbn [app map]; unfold joinpath;
      rewrite ?parent_joinpath.
    + split.
      * constructor; [|exact IH1]. intros Hin. apply Hd, IH2, Hin.
      * intros c [<- | Hin]; [left; reflexivity | right; apply IH2, Hin].
    + split; [exact IH1|]. intros c Hin. right. apply IH2, Hin.
Qed.

Lemma candidates_NoDup (w : World) (base : Path) :
  distinct_names (fs w) = true -> List.NoDup (candidates w base).
Proof.
  intros Hwf. unfold candidates, rglob.
  destruct (lookup_path (fs w) base) as [root|] eqn:E; [|constructor].
  destruct (is_dir root); [|constructor].
  apply candidates_of_dirs, dirs_distinct.
  exact (distinct_names_lookup _ _ _ Hwf E).
Qed.

(** X10: on a tree whose directories have entries of distinct names, no
    root is a candidate twice, and, however the scan ends, no two records
    of the collection have the same path: a repository appears at most once
    in the dashboard. *)
Theorem no_repository_twice (w : World) (s : GitScope) :
  distinct_names (fs w) = true ->
  List.NoDup (candidates w (base_dir s))
  /\ List.NoDup (map path (projects (obj (scan_projects w s)))).
Proof.
  intros Hwf. pose proof (candidates_NoDup w (base_dir s) Hwf) as Hnd.
  split; [exact Hnd|].
  destruct (scan_projects_outcome w s)
    as [[_ E] | (pre & c0 & post & e0 & Hcs & _ & _ & E)]; rewrite E;
    cbn [obj projects]; rewrite path_kept; apply List.NoDup_filter.
  - exact Hnd.
  - rewrite Hcs in Hnd. apply List.NoDup_app_remove_r in Hnd. exact Hnd.
Qed.

Lemma no_repository_twice_witness :
  List.NoDup (candidates world_worktree ["src"%string])
  /\ List.NoDup (map path (projects (obj (scan_projects world_worktree
                                                   (GitScope__init__ ["src"%string]))))).
Proof.
  apply (no_repository_twice world_worktree (GitScope__init__ ["src"%string])).
  vm_compute. reflexivity.
Defined.

(** ** Parents first *)

Lemma roots_under_dir (p : Path) (es : list (string * Node)) :
  roots_under p (Dir es)
  = match entry ".git" es with Some _ => [p] | None => [] end
    ++ flat_map (fun kc => roots_under (joinpath p (fst kc)) (snd kc)) es.
Proof.
  unfold roots_under. rewrite iterate_directories_dir.
  cbn [flat_map]. rewrite map_app. f_equal.
  - unfold select_precise. cbn [fst snd].
    destruct (entry ".git" es); [|reflexivity].
    cbn [map]. unfold joinpath. rewrite parent_joinpath. reflexivity.
  - induction es as [|kc es IH]; [reflexivity|].
    cbn [flat_map]. rewrite flat_map_app, map_app, IH. reflexivity.
Qed.

Lemma roots_under_in (n : Node) (p : Path) (rel : Path) (m : Node) :
  at_path n (rel ++ [".git"%string]) m -> In (p ++ rel) (roots_under p n).
Proof.
  intros Hm. apply at_path_snoc in Hm. destruct Hm as (es & Hrel & Hin).
  unfold roots_under. apply in_map_iff.
  exists (joinpath (p ++ rel) ".git"). split.
  - unfold joinpath. apply parent_joinpath.
  - apply in_flat_map. exists (p ++ rel, es). split.
    + apply iterate_directories_spec. exists rel. auto.
    + unfold select_precise. cbn [fst snd].
      destruct (entry_in _ _ _ Hin) as [c' ->]. left. reflexivity.
Qed.

Lemma roots_under_child (p : Path) (es : list (string * Node)) (k : string) (c : Node) :
  In (k, c) es ->
  exists before after,
    roots_under p (Dir es) = before ++ roots_under (joinpath p k) c ++ after.
Proof.
  intros Hin. rewrite roots_under_dir.
  apply in_split in Hin. destruct Hin as (es1 & es2 & ->).
  rewrite flat_map_app. cbn [flat_map fst snd].
  exists (match entry ".git" (es1 ++ (k, c) :: es2) with
          | Some _ => [p]
          | None => []
          end
          ++ flat_map (fun kc => roots_under (joinpath p (fst kc)) (snd kc)) es1),
         (flat_map (fun kc => roots_under (joinpath p (fst kc)) (snd kc)) es2).
  rewrite <- app_assoc. reflexivity.
Qed.

Lemma roots_parent_first (n : Node) (rel : Path) (es : list (string * Node)) :
  at_path n rel (Dir es) ->
  forall (p rel' : Path) (m1 m2 : Node),
    In (".git"%string, m1) es ->
    at_path (Dir es) (rel' ++ [".git"%string]) m2 ->
    rel' <> [] ->
    exists l1 l2 l3,
      roots_under p n = l1 ++ (p ++ rel) :: l2 ++ (p ++ rel ++ rel') :: l3.
Proof.
  intros Hrel. remember (Dir es) as dir eqn:Edir.
  induction Hrel as [n | es0 k c rel1 m Hin Hrel IH];
    intros p rel' m1 m2 Hgit Hnested Hne; subst.
  - destruct rel' as [|k rel'']; [contradiction|].
    cbn [app] in Hnested.
    inversion Hnested as [|? ? c ? ? Hin Hc]; subst.
    rewrite roots_under_dir. destruct (entry_in _ _ _ Hgit) as [c' ->].
    assert (Hlater : In (p ++ k :: rel'')
                        (flat_map (fun kc => roots_under (joinpath p (fst kc)) (snd kc)) es)).
    { apply in_flat_map. exists (k, c). split; [exact Hin|]. cbn [fst snd].
      pose proof (roots_under_in c (joinpath p k) rel'' m2 Hc) as H.
      unfold joinpath in H. rewrite <- app_assoc in H. exact H. }
    apply in_split in Hlater. destruct Hlater as (l2 & l3 & ->).
    exists [], l2, l3. rewrite !app_nil_r. reflexivity.
  - destruct (IH eq_refl (joinpath p k) rel' m1 m2 Hgit Hnested Hne)
      as (l1 & l2 & l3 & E).
    destruct (roots_under_child p es0 k c Hin) as (before & after & ->).
    rewrite E. exists (before ++ l1), l2, (l3 ++ after).
    unfold joinpath. repeat (rewrite <- app_assoc; cbn [app]). reflexivity.
Qed.

(** X11: parents come first.  When a directory under the base has a
    [.git] entry and a directory below it has one too (a submodule, a
    vendored checkout), the outer root is a candidate before the inner
    one. *)
Theorem outer_repository_first (w : World) (base : Path) (root : Node)
        (rel rel' : Path) (es : list (string * Node)) (m1 m2 : Node) :
  lookup_path (fs w) base = Some root ->
  at_path root rel (Dir es) ->
  In (".git"%string, m1) es ->
  at_path (Dir es) (rel' ++ [".git"%string]) m2 ->
  rel' <> [] ->
  exists l1 l2 l3,
    candidates w base = l1 ++ (base ++ rel) :: l2 ++ (base ++ rel ++ rel') :: l3.
Proof.
  intros Hroot Hrel Hgit Hnested Hne.
  assert (E : candidates w base = roots_under base root).
  { unfold candidates, rglob, roots_under. rewrite Hroot.
    inversion Hrel; subst; reflexivity. }
  rewrite E. exact (roots_parent_first root rel es Hrel base rel' m1 m2 Hgit Hnested Hne).
Qed.

Lemma outer_repository_first_witness :
  exists l1 l2 l3,
    candidates world_nested []
    = l1 ++ ["outer"%string] :: l2
         ++ ["outer"%string; "vendor"%string; "lib"%string] :: l3.
Proof.
  apply (outer_repository_first world_nested [] (fs world_nested)
           ["outer"%string] ["vendor"%string; "lib"%string]
           [("vendor"%string, Dir [("lib"%string, Dir [git_dir])]); git_dir]
           (Dir [("HEAD"%string, File (Ok []))])
           (Dir [("HEAD"%string, File (Ok []))])).
  - reflexivity.
  - econstructor; [left; reflexivity | constructor].
  - right. left. reflexivity.
  - cbn [app]. econstructor; [left; reflexivity|].
    econstructor; [left; reflexivity|].
    econstructor; [left; reflexivity|]. constructor.
  - discriminate.
Defined.

(** ** The dashboard *)

Section DashboardProperties.

Variable strftime : datetime -> string -> string.
Variable datetime_str : datetime -> string.
Variable markup_ok : string -> bool.

Lemma complete_status_lookup (m : gmap string pyval) :
  complete_status m ->
  exists (b : string) (d : bool) (lc : pyval) (behind ahead : Z),
    m !! "active_branch"%string = Some (PyStr b)
    /\ m !! "is_dirty"%string = Some (PyBool d)
    /\ m !! "last_commit"%string = Some lc
    /\ (lc = PyNone \/ exists dt, lc = PyDatetime dt)
    /\ m !! "commits_behind"%string = Some (PyInt behind)
    /\ m !! "commits_ahead"%string = Some (PyInt ahead).
Proof.
  intros [Hok Hkeys]. unfold five_keys in Hkeys.
  repeat match goal with
         | H : Forall _ (_ :: _) |- _ =>
             let Hk := fresh "Hk" in
             apply Forall_cons_1 in H; destruct H as [Hk H]
         end.
  destruct Hk as [v1 H1], Hk0 as [v2 H2], Hk1 as [v3 H3], Hk2 as [v4 H4],
           Hk3 as [v5 H5].
  pose proof (Hok _ _ H1) as T1. pose proof (Hok _ _ H2) as T2.
  pose proof (Hok _ _ H3) as T3. pose proof (Hok _ _ H4) as T4.
  pose proof (Hok _ _ H5) as T5.
  cbn in T1, T2, T3, T4, T5.
  destruct v1; try discriminate T1. destruct v2; try discriminate T2.
  destruct v4; try discriminate T4. destruct v5; try discriminate T5.
  eexists _, _, v3, _, _. repeat (split; [eassumption|]).
  split; [|split; eassumption].
  destruct v3; try discriminate T3; eauto.
Qed.

Lemma dashboard_row_complete (g : GitProject) :
  complete_status (status g) ->
  dashboard_row strftime datetime_str g = Done (expected_row strftime g).
Proof.
  intros Hc.
  destruct (complete_status_lookup _ Hc)
    as (b & d & lc & behind & ahead & Hb & Hd & Hlc & Hkind & Hbehind & Hahead).
  unfold dashboard_row, expected_row, getitem.
  rewrite Hb, Hd, Hlc, Hbehind, Hahead.
  destruct Hkind as [-> | [dt ->]]; destruct d; reflexivity.
Qed.

Lemma dashboard_row_no_last_commit (g : GitProject) :
  status g !! "last_commit"%string = None ->
  dashboard_row strftime datetime_str g = Failed (KeyError "last_commit").
Proof. intros H. unfold dashboard_row, getitem. rewrite H. reflexivity. Qed.

Lemma add_rows_complete (ps : list GitProject) (table : Table) :
  Forall (fun g => complete_status (status g)) ps ->
  add_rows strftime datetime_str table ps
  = Done (mkTable (title table) (columns table)
                  (rows table ++ map (expected_row strftime) ps)).
Proof.
  intros Hall. revert table. induction Hall as [|g ps Hg _ IH]; intros table.
  - cbn. rewrite app_nil_r. destruct table; reflexivity.
  - cbn [add_rows map]. rewrite (dashboard_row_complete g Hg).
    cbn [mbind ui_result_bind]. rewrite IH. cbn [title columns rows].
    rewrite <- app_assoc. reflexivity.
Qed.

Lemma add_rows_missing (pre post : list GitProject) (g : GitProject) (table : Table) :
  Forall (fun g => complete_status (status g)) pre ->
  status g !! "last_commit"%string = None ->
  add_rows strftime datetime_str table (pre ++ g :: post)
  = Failed (KeyError "last_commit").
Proof.
  intros Hall Hg. revert table. induction Hall as [|g' pre Hg' _ IH]; intros table.
  - cbn [app add_rows]. rewrite (dashboard_row_no_last_commit g Hg). reflexivity.
  - cbn [app add_rows]. rewrite (dashboard_row_complete g' Hg').
    cbn [mbind ui_result_bind]. apply IH.
Qed.

(** X12: on records whose status is complete, the loop of
    [display_dashboard] raises nothing, neither [KeyError] nor
    [NotRenderableError], and the method calls [console.print] once: with
    the "No Git projects found" message when there is no record, and
    otherwise with one table of six columns and one row per record, in the
    order of the collection, each row showing the name, the branch, the
    date of the last commit or a dash, "+ahead / -behind", the mark of the
    dirty flag and the progress truncated to an integer.  The table is
    printed when every cell parses as console markup; when one does not
    (the name of a directory can be any text), the call raises
    [MarkupError] and nothing is printed.  The [GitScope] is left as it
    was. *)
Theorem display_dashboard_complete (ss : Session) :
  Forall (fun g => complete_status (status g)) (projects (scope ss)) ->
  display_dashboard strftime datetime_str markup_ok ss
  = match projects (scope ss) with
    | [] =>
        (Done tt,
         mkSession (scope ss)
           (screen ss
            ++ [Print "[bold red]No Git projects found in the specified directory.[/bold red]"])
           (calls ss))
    | ps =>
        if forallb (forallb markup_ok) (map (expected_row strftime) ps)
        then (Done tt,
              mkSession (scope ss)
                (screen ss
                 ++ [PrintTable
                       (mkTable "[bold cyan]GitScope Dashboard · by H0lwin"
                                dashboard_columns
                                (map (expected_row strftime) ps))])
                (calls ss))
        else (Failed MarkupError, ss)
    end.
Proof.
  intros Hall. unfold display_dashboard.
  destruct (projects (scope ss)) as [|g ps] eqn:E; [reflexivity|].
  unfold mbind, UI_bind, eval. rewrite (add_rows_complete _ _ Hall).
  unfold console_print_table. cbn [rows app].
  destruct (forallb (forallb markup_ok) (map (expected_row strftime) (g :: ps)));
    reflexivity.
Qed.

Lemma display_dashboard_missing_key_aux (ss : Session)
      (pre post : list GitProject) (g : GitProject) :
  projects (scope ss) = pre ++ g :: post ->
  Forall (fun g => complete_status (status g)) pre ->
  status g !! "last_commit"%string = None ->
  display_dashboard strftime datetime_str markup_ok ss
  = (Failed (KeyError "last_commit"), ss).
Proof.
  intros E Hpre Hg. unfold display_dashboard. rewrite E.
  destruct (pre ++ g :: post) as [|g0 ps] eqn:E'.
  - destruct pre; discriminate E'.
  - rewrite <- E'. unfold mbind, UI_bind, eval.
    rewrite (add_rows_missing _ _ _ _ Hpre Hg). reflexivity.
Qed.

Lemma display_dashboard_complete_aux (ss : Session) :
  Forall (fun g => complete_status (status g)) (projects (scope ss)) ->
  display_dashboard strftime datetime_str markup_ok ss
  = match projects (scope ss) with
    | [] =>
        (Done tt,
         mkSession (scope ss)
           (screen ss
            ++ [Print "[bold red]No Git projects found in the specified directory.[/bold red]"])
           (calls ss))
    | ps =>
        if forallb (forallb markup_ok) (map (expected_row strftime) ps)
        then (Done tt,
              mkSession (scope ss)
                (screen ss
                 ++ [PrintTable
                       (mkTable "[bold cyan]GitScope Dashboard · by H0lwin"
                                dashboard_columns
                                (map (expected_row strftime) ps))])
                (calls ss))
        else (Failed MarkupError, ss)
    end.
Proof.
  intros Hall. unfold display_dashboard.
  destruct (projects (scope ss)) as [|g ps] eqn:E; [reflexivity|].
  unfold mbind, UI_bind, eval. rewrite (add_rows_complete _ _ Hall).
  unfold console_print_table. cbn [rows app].
  destruct (forallb (forallb markup_ok) (map (expected_row strftime) (g :: ps)));
    reflexivity.
Qed.

(** X13: a record without [last_commit] in its status, as the record
    kept for a bare repository, makes [display_dashboard] raise
    [KeyError('last_commit')] when its turn comes; the table is printed
    after the loop only, so nothing at all is printed, not even the rows of
    the records before. *)
Theorem display_dashboard_missing_key (ss : Session)
        (pre post : list GitProject) (g : GitProject) :
  projects (scope ss) = pre ++ g :: post ->
  Forall (fun g => complete_status (status g)) pre ->
  status g !! "last_commit"%string = None ->
  display_dashboard strftime datetime_str markup_ok ss
  = (Failed (KeyError "last_commit"), ss).
Proof.
  intros E Hpre Hg. unfold display_dashboard. rewrite E.
  destruct (pre ++ g :: post) as [|g0 ps] eqn:E'.
  - destruct pre; discriminate E'.
  - rewrite <- E'. unfold mbind, UI_bind, eval.
    rewrite (add_rows_missing _ _ _ _ Hpre Hg). reflexivity.
Qed.

End DashboardProperties.

(** ** A scan, then the dashboard *)

Lemma record_complete (w : World) (p : Path) :
  res (open_and_gather w (init_attributes p)) = Ok tt ->
  complete_status (status (record_of w p)).
Proof.
  intros Hok. split.
  - unfold record_of. destruct (init_outcome w p) as (-> & _ & _).
    apply (body_outcome w p).
  - pose proof (body_ok_dom w p Hok) as Hdom. unfold five_keys.
    repeat constructor; apply elem_of_dom; rewrite Hdom; set_solver.
Qed.

Ltac close_shape :=
  first [ left; reflexivity
        | left; apply lookup_empty
        | left; rewrite !lookup_insert_ne by discriminate; apply lookup_empty
        | right; unfold five_keys; repeat constructor;
          rewrite ?lookup_insert_eq, ?lookup_insert_ne by discriminate;
          repeat first [ rewrite lookup_insert_eq
                       | rewrite lookup_insert_ne by discriminate ];
          eexists; reflexivity ].

(** A status either lacks [last_commit] or has the five keys: the keys
    are written in one order and nothing can raise between the assignment
    of [last_commit] and that of the two counts. *)
Lemma body_status_shape (w : World) (p : Path) :
  let m := status (obj (open_and_gather w (init_attributes p))) in
  m !! "last_commit"%string = None
  \/ Forall (fun key => is_Some (m !! key)) five_keys.
Proof.
  cbv zeta. unfold open_and_gather, gather_info, self_repo. run.
  rewrite path_init_attributes.
  destruct (git_Repo w p) as [r|e]; run_self; [|close_shape].
  destruct (bare r); run_self; [close_shape|].
  destruct (head_is_valid r) as [[]|e]; run_self; [|close_shape..].
  destruct (active_branch r) as [b|e]; run_self; [|close_shape].
  destruct (is_dirty r) as [d|e]; run_self; [|close_shape].
  destruct (head_commit_committed_date r) as [t|e]; run_self; [|close_shape].
  destruct (datetime_fromtimestamp w t) as [dt|e]; run_self; [|close_shape].
  match goal with
  | |- context [ahead_behind ?s] =>
      destruct (ahead_behind_spec s) as ([behind ahead] & tab & Eab & _);
      rewrite Eab
  end.
  run_self.
  match goal with
  | |- context [analyze_readme w ?s] =>
      destruct (analyze_readme_spec w s) as (tr & Er & _); rewrite Er
  end.
  cbn [path set_status set_repo init_attributes].
  destruct (readme_answer w p) as [score|e]; run_self; [|close_shape].
  match goal with
  | |- context [calculate_progress w ?s] =>
      destruct (calculate_progress_spec w s) as (l & tp & Ep & _); rewrite Ep
  end.
  run_self. close_shape.
Qed.

Lemma record_shape (w : World) (p : Path) :
  status (record_of w p) !! "last_commit"%string = None
  \/ complete_status (status (record_of w p)).
Proof.
  unfold record_of. destruct (init_outcome w p) as (-> & _ & _).
  destruct (body_status_shape w p) as [H | H]; [left; exact H|].
  right. split; [apply (body_outcome w p) | exact H].
Qed.

Lemma first_incomplete (l : list GitProject) :
  Forall (fun g => status g !! "last_commit"%string = None
                   \/ complete_status (status g)) l ->
  Exists (fun g => status g !! "last_commit"%string = None) l ->
  exists pre g post,
    l = pre ++ g :: post
    /\ Forall (fun g => complete_status (status g)) pre
    /\ status g !! "last_commit"%string = None.
Proof.
  induction l as [|g l IH]; intros Hall Hex; [inversion Hex|].
  inversion Hall as [|? ? Hg Hl]; subst.
  destruct Hg as [Hnone | Hcomplete].
  - exists [], g, l. split; [reflexivity|]. split; [constructor | exact Hnone].
  - inversion Hex as [? ? Hnone | ? ? Hex']; subst.
    + destruct Hcomplete as [_ Hkeys]. unfold five_keys in Hkeys.
      apply Forall_cons_1 in Hkeys. destruct Hkeys as [_ Hkeys].
      apply Forall_cons_1 in Hkeys. destruct Hkeys as [_ Hkeys].
      apply Forall_cons_1 in Hkeys. destruct Hkeys as [[v Hv] _].
      rewrite Hnone in Hv. discriminate Hv.
    + destruct (IH Hl Hex') as (pre & g' & post & -> & Hpre & Hg').
      exists (g :: pre), g', post. split; [reflexivity|].
      split; [constructor; assumption | exact Hg'].
Qed.

Lemma kept_shape (w : World) (cs : list Path) :
  Forall (fun g => status g !! "last_commit"%string = None
                   \/ complete_status (status g)) (kept w cs).
Proof.
  unfold kept. apply List.Forall_forall. intros g Hg.
  apply List.filter_In in Hg. destruct Hg as [Hg _].
  apply in_map_iff in Hg. destruct Hg as (c & <- & _). apply record_shape.
Qed.

Section ScanThenDisplay.

Variable strftime : datetime -> string -> string.
Variable datetime_str : datetime -> string.
Variable markup_ok : string -> bool.

(** X14: a scan that returned normally, followed by the dashboard.  When
    the extraction completed for every candidate that [Repo] opened, the
    dashboard raises neither [KeyError] nor [NotRenderableError]: it hands
    to [console.print] the "No Git projects found" message when no
    candidate was opened, and otherwise a table with one row per opened
    candidate, in the order of the traversal, the first cell of a row being
    the name of the candidate's directory.  The table is printed when
    every cell parses as console markup; otherwise the call raises
    [MarkupError] and nothing is printed. *)
Theorem scan_then_dashboard (w : World) (s : GitScope)
        (printed : list output) (made : list event) :
  res (scan_projects w s) = Ok tt ->
  (forall c, In c (candidates w (base_dir s)) ->
             is_ok (git_Repo w c) = true -> extraction w c = Ok tt) ->
  let after := mkSession (obj (scan_projects w s)) printed made in
  let opened := List.filter (fun c => is_ok (git_Repo w c)) (candidates w (base_dir s)) in
  let table := mkTable "[bold cyan]GitScope Dashboard · by H0lwin" dashboard_columns
                       (map (expected_row strftime) (kept w (candidates w (base_dir s)))) in
  length (rows table) = length opened
  /\ map (fun row => hd ""%string row) (rows table) = map name_of opened
  /\ display_dashboard strftime datetime_str markup_ok after
     = match opened with
       | [] =>
           (Done tt,
            mkSession (obj (scan_projects w s))
              (printed
               ++ [Print "[bold red]No Git projects found in the specified directory.[/bold red]"])
              made)
       | _ =>
           if forallb (forallb markup_ok) (rows table)
           then (Done tt,
                 mkSession (obj (scan_projects w s)) (printed ++ [PrintTable table]) made)
           else (Failed MarkupError, after)
       end.
Proof.
  intros Hok Hall after opened table. subst after opened table.
  assert (Hprojects : projects (obj (scan_projects w s))
                      = kept w (candidates w (base_dir s))).
  { destruct (scan_projects_outcome w s)
      as [[_ E] | (pre & c0 & post & e0 & _ & _ & _ & E)]; rewrite E in *;
      [reflexivity | discriminate Hok]. }
  assert (Hcomplete : Forall (fun g => complete_status (status g))
                             (kept w (candidates w (base_dir s)))).
  { unfold kept. apply List.Forall_forall. intros g Hg.
    apply List.filter_In in Hg. destruct Hg as [Hg Htruthy].
    apply in_map_iff in Hg. destruct Hg as (c & <- & Hc).
    apply record_complete.
    destruct (body_outcome w c) as (_ & _ & _ & _ & _ & _ & _ & ->).
    apply Hall; [exact Hc|].
    unfold record_of in Htruthy. destruct (init_outcome w c) as (Eobj & _ & _).
    rewrite Eobj in Htruthy.
    destruct (body_outcome w c) as (_ & _ & Hrepo & _).
    rewrite Hrepo in Htruthy. destruct (git_Repo w c); [reflexivity | discriminate]. }
  pose proof (path_kept w (candidates w (base_dir s))) as Hpaths.
  assert (Hnames : map (fun row => hd ""%string row)
                       (map (expected_row strftime) (kept w (candidates w (base_dir s))))
                   = map name_of
                         (List.filter (fun c => is_ok (git_Repo w c))
                                      (candidates w (base_dir s)))).
  { rewrite <- Hpaths, !map_map.
    apply map_ext_in. intros g' Hg'. cbn [expected_row hd].
    unfold kept in Hg'. apply List.filter_In in Hg'. destruct Hg' as [Hg' _].
    apply in_map_iff in Hg'. destruct Hg' as (c & <- & _).
    unfold record_of. destruct (init_outcome w c) as (-> & _ & _).
    destruct (body_outcome w c) as (-> & -> & _). reflexivity. }
  cbn [rows].
  split.
  { rewrite <- (length_map (fun row => hd ""%string row)), Hnames, length_map.
    reflexivity. }
  split; [exact Hnames|].
  rewrite display_dashboard_complete_aux
    by (cbn [scope]; rewrite Hprojects; exact Hcomplete).
  cbn [scope screen calls]. rewrite Hprojects, <- Hpaths.
  destruct (kept w (candidates w (base_dir s))) as [|g ps]; reflexivity.
Qed.

(** X15: a scan that returned normally on a tree where some candidate
    opens as a bare repository leaves a collection on which the dashboard
    raises [KeyError('last_commit')] and prints nothing. *)
Theorem bare_repository_breaks_dashboard (w : World) (s : GitScope)
        (printed : list output) (made : list event) (c : Path) (r : Repo) :
  res (scan_projects w s) = Ok tt ->
  In c (candidates w (base_dir s)) ->
  git_Repo w c = Ok r ->
  bare r = true ->
  let after := mkSession (obj (scan_projects w s)) printed made in
  display_dashboard strftime datetime_str markup_ok after
  = (Failed (KeyError "last_commit"), after).
Proof.
  intros Hok Hc Hr Hb after. subst after.
  assert (Hprojects : projects (obj (scan_projects w s))
                      = kept w (candidates w (base_dir s))).
  { destruct (scan_projects_outcome w s)
      as [[_ E] | (pre & c0 & post & e0 & _ & _ & _ & E)]; rewrite E in *;
      [reflexivity | discriminate Hok]. }
  destruct (first_incomplete (kept w (candidates w (base_dir s))))
    as (pre & g & post & Ek & Hpre & Hg).
  - apply kept_shape.
  - apply List.Exists_exists. exists (record_of w c). split.
    + apply in_kept; [exact Hc|]. unfold record_of.
      rewrite (init_bare _ _ _ Hr Hb). reflexivity.
    + unfold record_of. rewrite (init_bare _ _ _ Hr Hb). apply lookup_empty.
  - apply (display_dashboard_missing_key_aux strftime datetime_str markup_ok _ pre post g);
      [cbn [scope]; rewrite Hprojects; exact Ek | exact Hpre | exact Hg].
Qed.

End ScanThenDisplay.

(** The checkout [proj] is shown; the checkout in the directory [a[/b]]
    makes the print raise. *)
Lemma display_dashboard_complete_witness :
  fst (display_dashboard sample_strftime sample_datetime_str sample_markup_ok
         (mkSession (mkGitScope [] [record_of world_today ["proj"%string]]) [] []))
  = Done tt
  /\ display_dashboard sample_strftime sample_datetime_str sample_markup_ok
       (mkSession (mkGitScope [] [record_of world_markup ["a[/b]"%string]]) [] [])
     = (Failed MarkupError,
        mkSession (mkGitScope [] [record_of world_markup ["a[/b]"%string]]) [] []).
Proof.
  split.
  - rewrite (display_dashboard_complete sample_strftime sample_datetime_str
               sample_markup_ok).
    + vm_compute. reflexivity.
    + cbn [scope projects]. constructor; [|constructor].
      apply record_complete. vm_compute. reflexivity.
  - rewrite (display_dashboard_complete sample_strftime sample_datetime_str
               sample_markup_ok).
    + vm_compute. reflexivity.
    + cbn [scope projects]. constructor; [|constructor].
      apply record_complete. vm_compute. reflexivity.
Defined.

Lemma display_dashboard_missing_key_witness :
  display_dashboard sample_strftime sample_datetime_str sample_markup_ok
    (mkSession (mkGitScope [] [record_of world_bare_and_normal ["proj"%string];
                               record_of world_bare_and_normal ["mirror"%string]])
               [] [])
  = (Failed (KeyError "last_commit"),
     mkSession (mkGitScope [] [record_of world_bare_and_normal ["proj"%string];
                               record_of world_bare_and_normal ["mirror"%string]])
               [] []).
Proof.
  apply (display_dashboard_missing_key sample_strftime sample_datetime_str sample_markup_ok _
           [record_of world_bare_and_normal ["proj"%string]] []
           (record_of world_bare_and_normal ["mirror"%string])).
  - reflexivity.
  - constructor; [|constructor]. apply record_complete. vm_compute. reflexivity.
  - vm_compute. reflexivity.
Defined.

Lemma scan_then_dashboard_witness :
  (exists shown,
     display_dashboard sample_strftime sample_datetime_str sample_markup_ok
       (mkSession (obj (scan_projects world_today (GitScope__init__ []))) [] [])
     = (Done tt,
        mkSession (obj (scan_projects world_today (GitScope__init__ []))) [shown] []))
  /\ fst (display_dashboard sample_strftime sample_datetime_str sample_markup_ok
            (mkSession (obj (scan_projects world_markup (GitScope__init__ []))) [] []))
     = Failed MarkupError.
Proof.
  split.
  - destruct (scan_then_dashboard sample_strftime sample_datetime_str sample_markup_ok
                world_today (GitScope__init__ []) [] [])
      as (_ & _ & E).
    + vm_compute. reflexivity.
    + intros c Hin _. vm_compute in Hin. destruct Hin as [<- | []].
      vm_compute. reflexivity.
    + rewrite E. eexists. vm_compute. reflexivity.
  - destruct (scan_then_dashboard sample_strftime sample_datetime_str sample_markup_ok
                world_markup (GitScope__init__ []) [] [])
      as (_ & _ & E).
    + vm_compute. reflexivity.
    + intros c Hin _. vm_compute in Hin. destruct Hin as [<- | []].
      vm_compute. reflexivity.
    + rewrite E. vm_compute. reflexivity.
Defined.

Lemma bare_repository_breaks_dashboard_witness :
  fst (display_dashboard sample_strftime sample_datetime_str sample_markup_ok
         (mkSession (obj (scan_projects world_bare_and_normal (GitScope__init__ [])))
                    [] []))
  = Failed (KeyError "last_commit").
Proof.
  rewrite (bare_repository_breaks_dashboard sample_strftime sample_datetime_str sample_markup_ok
             world_bare_and_normal (GitScope__init__ []) [] []
             ["mirror"%string] repo_bare).
  - reflexivity.
  - vm_compute. reflexivity.
  - vm_compute. right. left. reflexivity.
  - reflexivity.
  - reflexivity.
Defined.

(** ** The menu *)

Ltac close_choice :=
  repeat split; intros;
  try discriminate; try contradiction;
  try match goal with
      | H : strip ?l = _, H' : strip ?l = _ |- _ =>
          rewrite H in H'; vm_compute in H'; discriminate H'
      end;
  auto.

(** The dashboard only prints. *)
Lemma display_state (strftime : datetime -> string -> string)
      (datetime_str : datetime -> string) (markup_ok : string -> bool)
      (ss : Session) :
  scope (snd (display_dashboard strftime datetime_str markup_ok ss)) = scope ss
  /\ calls (snd (display_dashboard strftime datetime_str markup_ok ss)) = calls ss.
Proof.
  unfold display_dashboard.
  destruct (projects (scope ss)); [split; reflexivity|].
  unfold mbind, UI_bind, eval.
  destruct (add_rows _ _ _ _) as [table|e]; [|split; reflexivity].
  unfold console_print_table.
  destruct (forallb (forallb markup_ok) (rows table)); split; reflexivity.
Qed.

Section MenuProperties.

Variable strftime : datetime -> string -> string.
Variable datetime_str : datetime -> string.
Variable markup_ok : string -> bool.
Variable w : World.

Local Abbreviation menu := (interactive_menu strftime datetime_str markup_ok w).
Local Abbreviation choice := (menu_choice strftime datetime_str markup_ok w).

Lemma menu_prompt_run (ss : Session) :
  menu_prompt ss
  = (Done tt, mkSession (scope ss) (screen ss ++ prompt_outputs) (calls ss)).
Proof.
  unfold menu_prompt, mbind, UI_bind, console_print, prompt_outputs.
  cbn [scope screen calls]. rewrite <- !app_assoc. reflexivity.
Qed.

Lemma menu_nil (ss : Session) :
  menu [] ss
  = (Failed EOFError, mkSession (scope ss) (screen ss ++ prompt_outputs) (calls ss)).
Proof.
  cbn [interactive_menu]. unfold mbind at 1, UI_bind at 1.
  rewrite menu_prompt_run. reflexivity.
Qed.

Lemma menu_cons (line : str) (stdin : list str) (ss : Session) :
  menu (line :: stdin) ss
  = match choice line (mkSession (scope ss) (screen ss ++ prompt_outputs) (calls ss)) with
    | (Done true, ss1) => menu stdin ss1
    | (Done false, ss1) => (Done stdin, ss1)
    | (Failed e, ss1) => (Failed e, ss1)
    end.
Proof.
  cbn [interactive_menu]. unfold mbind at 1, UI_bind at 1.
  rewrite menu_prompt_run. reflexivity.
Qed.

(** One turn, case by case. *)
Lemma choice_exit (line : str) (ss : Session) :
  strip line = str_of_string "3" ->
  choice line ss
  = (Done false,
     mkSession (scope ss)
               (screen ss ++ [Print "[bold red]Exiting GitScope. See you![/bold red]"])
               (calls ss)).
Proof.
  intros H. unfold menu_choice. rewrite H.
  repeat (case_bool_decide; [discriminate|]).
  case_bool_decide; [reflexivity | contradiction].
Qed.

Lemma choice_help (line : str) (ss : Session) :
  strip line = str_of_string "2" ->
  choice line ss
  = (Done true,
     mkSession (scope ss)
               (screen ss ++ [PrintPanel help_text "[bold green]Help[/bold green]"])
               (calls ss)).
Proof.
  intros H. unfold menu_choice. rewrite H.
  case_bool_decide; [discriminate|].
  case_bool_decide; [reflexivity | contradiction].
Qed.

Lemma choice_invalid (line : str) (ss : Session) :
  strip line <> str_of_string "1" ->
  strip line <> str_of_string "2" ->
  strip line <> str_of_string "3" ->
  choice line ss
  = (Done true,
     mkSession (scope ss)
               (screen ss ++ [Print "[red]Invalid option. Please enter 1, 2, or 3.[/red]"])
               (calls ss)).
Proof.
  intros H1 H2 H3. unfold menu_choice.
  repeat (case_bool_decide; [contradiction|]). reflexivity.
Qed.

Lemma choice_scan (line : str) (ss : Session) :
  strip line = str_of_string "1" ->
  exists r ss1,
    choice line ss = (r, ss1)
    /\ scope ss1 = obj (scan_projects w (scope ss))
    /\ calls ss1 = calls ss ++ trace (scan_projects w (scope ss))
    /\ (r = Done true \/ exists e, r = Failed e).
Proof.
  intros H. unfold menu_choice. rewrite H.
  case_bool_decide; [|contradiction].
  unfold mbind, UI_bind, console_print, run_scan. cbn [scope screen calls].
  destruct (scan_projects w (scope ss)) as [[[]|e] self t]; cbn [obj trace].
  - match goal with
    | |- context [display_dashboard ?f ?g ?m ?x] =>
        pose proof (display_state f g m x) as Hd;
        destruct (display_dashboard f g m x) as [[[]|e] ss2]
    end; cbn [fst snd scope calls] in Hd; destruct Hd as [Hs Hc];
      eexists _, _; (split; [reflexivity|]); rewrite Hs, Hc; eauto.
  - eexists _, _. split; [reflexivity|]. eauto.
Qed.

(** Whatever the line, a turn either goes on, or stops the loop, which it
    does exactly on the choice 3, or raises. *)
Lemma choice_cases (line : str) (ss : Session) :
  exists r ss1,
    choice line ss = (r, ss1)
    /\ (r = Done false <-> strip line = str_of_string "3")
    /\ (r = Done true \/ r = Done false \/ exists e, r = Failed e)
    /\ (strip line <> str_of_string "1" ->
        scope ss1 = scope ss /\ calls ss1 = calls ss
        /\ (r = Done true \/ r = Done false))
    /\ (strip line = str_of_string "1" ->
        scope ss1 = obj (scan_projects w (scope ss))
        /\ calls ss1 = calls ss ++ trace (scan_projects w (scope ss))).
Proof.
  destruct (decide (strip line = str_of_string "1")) as [H1|H1].
  { destruct (choice_scan line ss H1) as (r & ss1 & E & Hs & Hc & Hr).
    exists r, ss1. split; [exact E|]. split.
    - rewrite H1. split; [|discriminate].
      intros ->. destruct Hr as [Hr | [e Hr]]; discriminate Hr.
    - split; [destruct Hr as [-> | [e ->]]; eauto|].
      split; [contradiction | auto]. }
  destruct (decide (strip line = str_of_string "2")) as [H2|H2].
  { eexists _, _. split; [apply (choice_help line ss H2)|].
    cbn [scope calls]. close_choice. }
  destruct (decide (strip line = str_of_string "3")) as [H3|H3].
  { eexists _, _. split; [apply (choice_exit line ss H3)|].
    cbn [scope calls]. close_choice. }
  eexists _, _. split; [apply (choice_invalid line ss H1 H2 H3)|].
  cbn [scope calls]. close_choice.
Qed.

(** X16: the menu returns only through the choice 3.  If
    [interactive_menu] returns, the lines read are the lines up to the
    first one that is "3" once stripped, the lines after it are left
    unread, and the last thing printed is the farewell.  In particular, on
    an input without such a line it never returns normally: it ends with
    [EOFError] or with whatever a scan or the dashboard raised. *)
Theorem menu_returns_only_on_exit (stdin rest : list str) (ss ss' : Session) :
  menu stdin ss = (Done rest, ss') ->
  exists pre line,
    stdin = pre ++ line :: rest
    /\ strip line = str_of_string "3"
    /\ Forall (fun l => strip l <> str_of_string "3") pre
    /\ exists printed,
         screen ss'
         = printed ++ [Print "[bold red]Exiting GitScope. See you![/bold red]"].
Proof.
  revert ss. induction stdin as [|line stdin IH]; intros ss Hrun.
  - rewrite menu_nil in Hrun. discriminate Hrun.
  - rewrite menu_cons in Hrun.
    destruct (choice_cases line
                (mkSession (scope ss) (screen ss ++ prompt_outputs) (calls ss)))
      as (r & ss1 & E & Hbreak & _).
    rewrite E in Hrun. destruct r as [[]|e].
    + destruct (IH ss1 Hrun) as (pre & line' & -> & H3 & Hpre & Hlast).
      exists (line :: pre), line'. split; [reflexivity|].
      split; [exact H3|]. split; [|exact Hlast].
      constructor; [|exact Hpre]. intros H. apply Hbreak in H. discriminate H.
    + injection Hrun as <- <-.
      assert (H3 : strip line = str_of_string "3") by (apply Hbreak; reflexivity).
      exists [], line. split; [reflexivity|]. split; [exact H3|].
      split; [constructor|].
      rewrite (choice_exit line _ H3) in E. injection E as <-.
      cbn [screen]. eauto.
    + discriminate Hrun.
Qed.

(** X17: as long as no line asks for a scan (none is "1" once
    stripped), the menu makes no call to Git or to the file system,
    leaves the [GitScope] untouched and cannot fail in any other way than
    by reaching the end of the input. *)
Theorem menu_without_scan (stdin : list str) (ss : Session) :
  Forall (fun l => strip l <> str_of_string "1") stdin ->
  scope (snd (menu stdin ss)) = scope ss
  /\ calls (snd (menu stdin ss)) = calls ss
  /\ (fst (menu stdin ss) = Failed EOFError
      \/ exists rest, fst (menu stdin ss) = Done rest).
Proof.
  intros Hall. revert ss. induction Hall as [|line stdin Hline _ IH]; intros ss.
  - rewrite menu_nil. cbn. auto.
  - rewrite menu_cons.
    destruct (choice_cases line
                (mkSession (scope ss) (screen ss ++ prompt_outputs) (calls ss)))
      as (r & ss1 & E & _ & _ & Hquiet & _).
    rewrite E. destruct (Hquiet Hline) as (Hs & Hc & Hr).
    cbn [scope calls] in Hs, Hc.
    destruct Hr as [-> | ->].
    + destruct (IH ss1) as (IHs & IHc & IHr).
      rewrite IHs, IHc, Hs, Hc. auto.
    + cbn [fst snd]. rewrite Hs, Hc. eauto.
Qed.

(** X18: scans do not add up.  However many times a scan is asked for in
    a session of the menu, and however the session ends, the [GitScope]
    ends as a single scan of the initial one leaves it (or untouched when
    none was run), and the calls made are those of that one scan, repeated
    once per scan run. *)
Theorem menu_scans_compose (stdin : list str) (ss : Session) :
  exists n : nat,
    (n <= scans_requested stdin)%nat
    /\ calls (snd (menu stdin ss))
       = calls ss ++ concat (repeat (trace (scan_projects w (scope ss))) n)
    /\ scope (snd (menu stdin ss))
       = match n with
         | O => scope ss
         | S _ => obj (scan_projects w (scope ss))
         end.
Proof.
  revert ss. induction stdin as [|line stdin IH]; intros ss.
  - exists 0%nat. rewrite menu_nil. cbn. rewrite app_nil_r. auto with arith.
  - rewrite menu_cons.
    destruct (choice_cases line
                (mkSession (scope ss) (screen ss ++ prompt_outputs) (calls ss)))
      as (r & ss1 & E & _ & Hr & Hquiet & Hscan).
    rewrite E. cbn [scope calls] in Hquiet, Hscan.
    unfold scans_requested. cbn [List.filter].
    destruct (decide (strip line = str_of_string "1")) as [H1|H1].
    + rewrite bool_decide_eq_true_2 by exact H1. cbn [length].
      destruct (Hscan H1) as [Hs Hc].
      assert (Hsame : scan_projects w (scope ss1) = scan_projects w (scope ss)).
      { rewrite Hs. apply scan_projects_same_base, scan_projects_base_dir. }
      destruct r as [[]|e].
      * destruct (IH ss1) as (n & Hn & IHc & IHs).
        exists (S n). split; [unfold scans_requested in Hn; lia|].
        rewrite IHc, IHs, Hc, Hsame. cbn [repeat concat].
        rewrite <- app_assoc. split; [reflexivity|].
        destruct n; [exact Hs | reflexivity].
      * exists 1%nat. cbn [snd repeat concat]. rewrite app_nil_r.
        split; [lia | auto].
      * exists 1%nat. cbn [snd repeat concat]. rewrite app_nil_r.
        split; [lia | auto].
    + rewrite bool_decide_eq_false_2 by exact H1.
      destruct (Hquiet H1) as (Hs & Hc & Hr').
      destruct Hr' as [-> | ->].
      * destruct (IH ss1) as (n & Hn & IHc & IHs).
        exists n. split; [exact Hn|]. rewrite IHc, IHs, Hs, Hc. auto.
      * exists 0%nat. cbn [snd repeat concat]. rewrite app_nil_r.
        split; [lia | auto].
Qed.

End MenuProperties.

Lemma menu_returns_only_on_exit_witness :
  exists pre line,
    [str_of_string "2"; str_of_string " 3 "; str_of_string "1"]
    = pre ++ line :: [str_of_string "1"]
    /\ strip line = str_of_string "3".
Proof.
  destruct (menu_returns_only_on_exit sample_strftime sample_datetime_str sample_markup_ok world_today
              [str_of_string "2"; str_of_string " 3 "; str_of_string "1"]
              [str_of_string "1"]
              (mkSession (GitScope__init__ []) [] [])
              (snd (interactive_menu sample_strftime sample_datetime_str sample_markup_ok world_today
                      [str_of_string "2"; str_of_string " 3 "; str_of_string "1"]
                      (mkSession (GitScope__init__ []) [] []))))
    as (pre & line & Hsplit & Hline & _).
  - vm_compute. reflexivity.
  - exists pre, line. auto.
Defined.

Lemma menu_without_scan_witness :
  calls (snd (interactive_menu sample_strftime sample_datetime_str sample_markup_ok world_bare_and_normal
                [str_of_string "2"; str_of_string "11"; str_of_string "scan"]
                (mkSession (GitScope__init__ []) [] [])))
  = []
  /\ fst (interactive_menu sample_strftime sample_datetime_str sample_markup_ok world_bare_and_normal
            [str_of_string "2"; str_of_string "11"; str_of_string "scan"]
            (mkSession (GitScope__init__ []) [] []))
     = Failed EOFError.
Proof.
  destruct (menu_without_scan sample_strftime sample_datetime_str sample_markup_ok world_bare_and_normal
              [str_of_string "2"; str_of_string "11"; str_of_string "scan"]
              (mkSession (GitScope__init__ []) [] []))
    as (_ & Hcalls & _).
  - repeat constructor; vm_compute; discriminate.
  - split; [exact Hcalls | vm_compute; reflexivity].
Defined.

(** ** Blanks around a choice *)

Lemma lstrip_blank (a s : str) : is_blank a = true -> lstrip (a ++ s) = lstrip s.
Proof.
  induction a as [|c a IH]; [reflexivity|].
  cbn [is_blank forallb app lstrip]. intros H.
  apply andb_prop in H. destruct H as [-> Ha]. apply IH. exact Ha.
Qed.

Lemma lstrip_all_blank (a : str) : is_blank a = true -> lstrip a = [].
Proof.
  intros H. rewrite <- (app_nil_r a). rewrite lstrip_blank by exact H. reflexivity.
Qed.

Lemma lstrip_cases (s : str) :
  (is_blank s = true /\ lstrip s = [])
  \/ exists c t, lstrip s = c :: t /\ isspace c = false.
Proof.
  induction s as [|c s IH]; [left; split; reflexivity|].
  cbn [lstrip is_blank forallb]. destruct (isspace c) eqn:Hc.
  - destruct IH as [[Hb Hl] | IH]; [left; split; assumption | right; exact IH].
  - right. exists c, s. split; [reflexivity | exact Hc].
Qed.

Lemma is_blank_rev (b : str) : is_blank b = true -> is_blank (rev b) = true.
Proof.
  unfold is_blank. intros H. apply List.forallb_forall. intros x Hx.
  apply in_rev in Hx. exact (proj1 (List.forallb_forall _ _) H x Hx).
Qed.

Lemma lstrip_app_blank (s b : str) :
  is_blank b = true -> lstrip (rev (lstrip (s ++ b))) = lstrip (rev (lstrip s)).
Proof.
  intros Hb. induction s as [|c s IH].
  - cbn [app]. rewrite (lstrip_all_blank b Hb). reflexivity.
  - cbn [app lstrip]. destruct (isspace c); [exact IH|].
    change (c :: s ++ b) with ((c :: s) ++ b).
    rewrite rev_app_distr. apply lstrip_blank, is_blank_rev, Hb.
Qed.

Lemma strip_blank_around (a line b : str) :
  is_blank a = true -> is_blank b = true -> strip (a ++ line ++ b) = strip line.
Proof.
  intros Ha Hb. unfold strip. rewrite (lstrip_blank a _ Ha).
  rewrite (lstrip_app_blank line b Hb). reflexivity.
Qed.

(** X19: the choice is read after [strip()]: white space typed before or
    after the choice changes nothing to what the menu does, for the whole
    rest of the session. *)
Theorem menu_ignores_blanks_around_choice
        (strftime : datetime -> string -> string) (datetime_str : datetime -> string)
        (markup_ok : string -> bool)
        (w : World) (a line b : str) (stdin : list str) (ss : Session) :
  is_blank a = true ->
  is_blank b = true ->
  strip (a ++ line ++ b) = strip line
  /\ interactive_menu strftime datetime_str markup_ok w ((a ++ line ++ b) :: stdin) ss
     = interactive_menu strftime datetime_str markup_ok w (line :: stdin) ss.
Proof.
  intros Ha Hb.
  pose proof (strip_blank_around a line b Ha Hb) as E.
  split; [exact E|].
  rewrite !menu_cons. unfold menu_choice. rewrite E. reflexivity.
Qed.

Lemma menu_ignores_blanks_around_choice_witness :
  interactive_menu sample_strftime sample_datetime_str sample_markup_ok world_today
    (([32; 9]%N ++ str_of_string "1" ++ [32]%N) :: [str_of_string "3"])
    (mkSession (GitScope__init__ []) [] [])
  = interactive_menu sample_strftime sample_datetime_str sample_markup_ok world_today
      [str_of_string "1"; str_of_string "3"]
      (mkSession (GitScope__init__ []) [] []).
Proof.
  apply (menu_ignores_blanks_around_choice sample_strftime sample_datetime_str sample_markup_ok
           world_today [32; 9]%N (str_of_string "1") [32]%N
           [str_of_string "3"] (mkSession (GitScope__init__ []) [] []));
    reflexivity.
Defined.
